(** * 3D structure viewer: geometry, scene bounds, endpoint counting, upload

    A shallow embedding of [src/src/App.js] (module [App]) and of the
    stand-alone model component [src/unnamed/part_000] (module
    [ThreeDModel]), with the parts of the JavaScript run time and of the
    three.js and SheetJS libraries these two files call.

    JavaScript numbers are doubles.  A number is kept as the real it
    stands for, one of the two infinities, or NaN, and every arithmetic
    operation rounds its exact result to the nearest double, ties to even,
    as IEEE 754 prescribes ([Num.fl]): results overflow to an infinity and
    underflow to zero as they do in the source.  The sign of zero is not
    represented.  Strings are kept as the bytes of their UTF-8 encoding.

    Two things are left as parameters of the functions that need them: the
    tolerance [EPS] of three.js's [setFromUnitVectors], which differs
    between releases of the library, and [numberToString], the way the host
    prints a number when it is used as a property key or converted with
    [toString()].

    The file has two parts: the embedding of the source, followed by the
    vocabulary of the statements; then the properties: rounding, and by
    component the scene bounds, the cylinder between two points, the
    cylinder list, the marker cubes, the connection counts, the upload
    handler, the reading of coordinates, and the path from the sheets to
    the scene. *)

From Stdlib Require Import Reals Lra Lia ZArith Ascii String Sorted.
From stdpp Require Import gmap strings list.

(** ** Numbers *)

Inductive num : Type :=
  | Finite (r : R)
  | PosInf
  | NegInf
  | NaN.

#[global] Instance Rlt_decision (a b : R) : Decision (a < b)%R := Rlt_dec a b.
#[global] Instance Rle_decision (a b : R) : Decision (a <= b)%R := Rle_dec a b.
#[global] Instance R_eq_decision : EqDecision R := Req_dec_T.
#[global] Instance num_eq_decision : EqDecision num.
Proof. solve_decision. Defined.

(** Two to the power [e]. *)
Definition pow2 (e : Z) : R := powerRZ 2 e.

Arguments pow2 e : simpl never.

Module Num.
Local Open Scope R_scope.

Definition zero : num := Finite 0.
Definition one : num := Finite 1.

(** Sign of a real, as the three-way case the arithmetic below needs. *)
Definition Rsgn (r : R) : comparison :=
  if decide (r < 0) then Lt else if decide (0 < r) then Gt else Eq.

Definition neg (a : num) : num :=
  match a with
  | Finite r => Finite (- r)
  | PosInf => NegInf
  | NegInf => PosInf
  | NaN => NaN
  end.

(** *** Rounding to the nearest double

    The doubles are the reals [m * 2^e] with [|m| < 2^53] and
    [-1074 <= e <= 971].  Around a positive real [x] they are spaced
    [2^e] apart, where [e] is the exponent [exponentOf x]: the [e] with
    [2^(e+52) <= x < 2^(e+53)], kept within [-1074] and [971]. *)

Fixpoint findExponent (fuel : nat) (e : Z) (x : R) : Z :=
  match fuel with
  | O => e
  | S fuel' =>
      if decide (pow2 (e + 52) <= x) then e
      else findExponent fuel' (e - 1) x
  end.

Definition exponentOf (x : R) : Z := findExponent (Z.to_nat 2045) 971 x.

(** The integer nearest to [y]; of two that are equally near, the even
    one. *)
Definition nearestEven (y : R) : Z :=
  let n := Int_part y in
  if decide (y - IZR n < / 2) then n
  else if decide (/ 2 < y - IZR n) then (n + 1)%Z
  else if Z.even n then n else (n + 1)%Z.

Definition roundPositive (x : R) : num :=
  let e := exponentOf x in
  let m := nearestEven (x * pow2 (- e)) in
  if decide (pow2 1024 <= IZR m * pow2 e) then PosInf
  else Finite (IZR m * pow2 e).

(** [fl x]: the number an operation returns whose exact result is [x]. *)
Definition fl (x : R) : num :=
  match Rsgn x with
  | Eq => Finite 0
  | Gt => roundPositive x
  | Lt => neg (roundPositive (- x))
  end.

(** *** Arithmetic *)

Definition add (a b : num) : num :=
  match a, b with
  | NaN, _ | _, NaN => NaN
  | Finite u, Finite v => fl (u + v)
  | PosInf, NegInf | NegInf, PosInf => NaN
  | PosInf, _ | _, PosInf => PosInf
  | NegInf, _ | _, NegInf => NegInf
  end.

Definition sub (a b : num) : num := add a (neg b).

(** An infinity times a finite number: the sign decides, zero gives NaN. *)
Definition scaleInf (positive : bool) (r : R) : num :=
  match Rsgn r with
  | Eq => NaN
  | Gt => if positive then PosInf else NegInf
  | Lt => if positive then NegInf else PosInf
  end.

Definition mul (a b : num) : num :=
  match a, b with
  | NaN, _ | _, NaN => NaN
  | Finite u, Finite v => fl (u * v)
  | Finite u, PosInf | PosInf, Finite u => scaleInf true u
  | Finite u, NegInf | NegInf, Finite u => scaleInf false u
  | PosInf, PosInf | NegInf, NegInf => PosInf
  | PosInf, NegInf | NegInf, PosInf => NegInf
  end.

(** Division; a zero divisor is taken as +0. *)
Definition div (a b : num) : num :=
  match a, b with
  | NaN, _ | _, NaN => NaN
  | Finite u, Finite v =>
      if decide (v = 0) then scaleInf true u else fl (u / v)
  | Finite _, (PosInf | NegInf) => Finite 0
  | PosInf, Finite v => if decide (v < 0) then NegInf else PosInf
  | NegInf, Finite v => if decide (v < 0) then PosInf else NegInf
  | (PosInf | NegInf), (PosInf | NegInf) => NaN
  end.

(** [Math.sqrt] *)
Definition sqrt (a : num) : num :=
  match a with
  | Finite u => if decide (u < 0) then NaN else fl (R_sqrt.sqrt u)
  | PosInf => PosInf
  | NegInf | NaN => NaN
  end.

(** [Math.abs] *)
Definition abs (a : num) : num :=
  match a with
  | Finite u => Finite (Rabs u)
  | PosInf | NegInf => PosInf
  | NaN => NaN
  end.

(** [a < b] *)
Definition lt (a b : num) : bool :=
  match a, b with
  | NaN, _ | _, NaN => false
  | Finite u, Finite v => bool_decide (u < v)
  | _, NegInf => false
  | NegInf, _ => true
  | PosInf, _ => false
  | Finite _, PosInf => true
  end.

(** [a > b] *)
Definition gt (a b : num) : bool := lt b a.

(** [a === b] on numbers: NaN equals nothing. *)
Definition eq (a b : num) : bool :=
  match a, b with
  | NaN, _ | _, NaN => false
  | _, _ => bool_decide (a = b)
  end.

(** ToBoolean on a number: NaN and zero are falsy. *)
Definition truthy (a : num) : bool :=
  match a with
  | NaN => false
  | Finite u => negb (bool_decide (u = 0))
  | PosInf | NegInf => true
  end.

(** [a || b] on numbers. *)
Definition or (a b : num) : num := if truthy a then a else b.

(** [Math.min(a, b)] and [Math.max(a, b)]: NaN if an argument is NaN. *)
Definition min (a b : num) : num :=
  match a, b with
  | NaN, _ | _, NaN => NaN
  | _, _ => if lt b a then b else a
  end.

Definition max (a b : num) : num :=
  match a, b with
  | NaN, _ | _, NaN => NaN
  | _, _ => if lt a b then b else a
  end.

(** [Math.max(a, b, c)] *)
Definition max3 (a b c : num) : num := max (max a b) c.

(** [Number.EPSILON], 2^-52. *)
Definition EPSILON : num := Finite (/ 2 ^ 52).
End Num.

(** ** three.js: [Vector3] and [Quaternion]

    The methods of three.js (math/Vector3.js, math/Quaternion.js) that the
    two [Cylinder] components call, as functions: a method that mutates
    [this] and returns it becomes a function returning the new value. *)

Module Vector3.
Record t : Type := new { x : num; y : num; z : num }.

Definition sub (a v : t) : t :=
  new (Num.sub (x a) (x v)) (Num.sub (y a) (y v)) (Num.sub (z a) (z v)).

Definition add (a v : t) : t :=
  new (Num.add (x a) (x v)) (Num.add (y a) (y v)) (Num.add (z a) (z v)).

Definition multiplyScalar (a : t) (s : num) : t :=
  new (Num.mul (x a) s) (Num.mul (y a) s) (Num.mul (z a) s).

(** [divideScalar(s)] is [multiplyScalar(1 / s)]. *)
Definition divideScalar (a : t) (s : num) : t :=
  multiplyScalar a (Num.div Num.one s).

Definition dot (a v : t) : num :=
  Num.add (Num.add (Num.mul (x a) (x v)) (Num.mul (y a) (y v)))
          (Num.mul (z a) (z v)).

Definition length (a : t) : num :=
  Num.sqrt (Num.add (Num.add (Num.mul (x a) (x a)) (Num.mul (y a) (y a)))
                    (Num.mul (z a) (z a))).

(** [normalize()] is [divideScalar(this.length() || 1)]. *)
Definition normalize (a : t) : t :=
  divideScalar a (Num.or (length a) Num.one).

Definition toArray (a : t) : num * num * num := (x a, y a, z a).
End Vector3.

Module Quaternion.
Record t : Type := new { x : num; y : num; z : num; w : num }.

(** [new Quaternion()] *)
Definition identity : t := new Num.zero Num.zero Num.zero Num.one.

Definition length (q : t) : num :=
  Num.sqrt
    (Num.add (Num.add (Num.add (Num.mul (x q) (x q)) (Num.mul (y q) (y q)))
                      (Num.mul (z q) (z q)))
             (Num.mul (w q) (w q))).

(** [normalize()]: a zero quaternion becomes the identity, any other is
    multiplied by [1 / length]. *)
Definition normalize (q : t) : t :=
  let l := length q in
  if Num.eq l Num.zero then identity
  else
    let l' := Num.div Num.one l in
    new (Num.mul (x q) l') (Num.mul (y q) l') (Num.mul (z q) l')
        (Num.mul (w q) l').

(** [setFromUnitVectors(vFrom, vTo)].  The tolerance under which the two
    directions count as opposite is a constant of the library
    ([Number.EPSILON] in current releases, [0.000001] in older ones); it
    is the parameter [EPS]. *)
Definition setFromUnitVectors (EPS : num) (vFrom vTo : Vector3.t) : t :=
  let r := Num.add (Vector3.dot vFrom vTo) Num.one in
  let q :=
    if Num.lt r EPS then
      if Num.gt (Num.abs (Vector3.x vFrom)) (Num.abs (Vector3.z vFrom)) then
        new (Num.neg (Vector3.y vFrom)) (Vector3.x vFrom) Num.zero Num.zero
      else
        new Num.zero (Num.neg (Vector3.z vFrom)) (Vector3.y vFrom) Num.zero
    else
      new (Num.sub (Num.mul (Vector3.y vFrom) (Vector3.z vTo))
                   (Num.mul (Vector3.z vFrom) (Vector3.y vTo)))
          (Num.sub (Num.mul (Vector3.z vFrom) (Vector3.x vTo))
                   (Num.mul (Vector3.x vFrom) (Vector3.z vTo)))
          (Num.sub (Num.mul (Vector3.x vFrom) (Vector3.y vTo))
                   (Num.mul (Vector3.y vFrom) (Vector3.x vTo)))
          r
  in
  normalize q.

Definition toArray (q : t) : num * num * num * num := (x q, y q, z q, w q).
End Quaternion.

(** ** JavaScript values and objects *)

Inductive value : Type :=
  | VUndefined
  | VNull
  | VBool (b : bool)
  | VNum (n : num)
  | VStr (s : string).

#[global] Instance value_eq_decision : EqDecision value.
Proof. solve_decision. Defined.

(** A plain object: own properties by name.  Properties inherited from
    [Object.prototype] are not represented. *)
Abbreviation obj := (gmap string value).

(** [o[k]] and [o.k]: an absent property reads as [undefined]. *)
Definition get (o : obj) (k : string) : value := default VUndefined (o !! k).

(** [a === b] *)
Definition strictEq (a b : value) : bool :=
  match a, b with
  | VUndefined, VUndefined | VNull, VNull => true
  | VBool p, VBool q => Bool.eqb p q
  | VNum m, VNum n => Num.eq m n
  | VStr s, VStr t => String.eqb s t
  | _, _ => false
  end.

(** ToString.  How a number prints ([Number.prototype.toString]) is left to
    the host: it is the parameter [numberToString]. *)
Definition ToString (numberToString : num -> string) (v : value) : string :=
  match v with
  | VUndefined => "undefined"
  | VNull => "null"
  | VBool true => "true"
  | VBool false => "false"
  | VNum n => numberToString n
  | VStr s => s
  end.

(** [v?.toString()] *)
Definition optToString (numberToString : num -> string) (v : value) : value :=
  match v with
  | VUndefined | VNull => VUndefined
  | _ => VStr (ToString numberToString v)
  end.

(** ** [parseFloat]

    [parseFloat(string)] trims leading white space and reads the longest
    prefix that is a StrDecimalLiteral:
      sign? ( Infinity | digits [. digits?] [exp] | . digits [exp] )
    where exp is e or E, an optional sign and digits.  Whatever follows the
    prefix is ignored; with no such prefix the result is NaN.  The white
    space trimmed is that of the language: the code points of WhiteSpace
    and of LineTerminator, in their UTF-8 encoding. *)

Inductive literal : Type :=
  | LitNaN
  | LitInfinity (negative : bool)
  | LitDecimal (negative : bool) (mantissa : N) (exponent : Z).

(** Tab, line feed, vertical tab, form feed, carriage return, space. *)
Definition isWhiteSpace (c : ascii) : bool :=
  match nat_of_ascii c with
  | 9 | 10 | 11 | 12 | 13 | 32 => true
  | _ => false
  end.

(** The no-break space U+00A0, encoded in two bytes. *)
Definition isWhiteSpace2 (c d : ascii) : bool :=
  (nat_of_ascii c =? 194) && (nat_of_ascii d =? 160).

(** The white space encoded in three bytes: U+1680, U+2000 to U+200A,
    U+2028, U+2029, U+202F, U+205F, U+3000 and U+FEFF. *)
Definition isWhiteSpace3 (c d e : ascii) : bool :=
  let c := nat_of_ascii c in
  let d := nat_of_ascii d in
  let e := nat_of_ascii e in
  ((c =? 225) && (d =? 154) && (e =? 128))
  || ((c =? 226) && (d =? 128)
      && (((128 <=? e) && (e <=? 138)) || (e =? 168) || (e =? 169)
          || (e =? 175)))
  || ((c =? 226) && (d =? 129) && (e =? 159))
  || ((c =? 227) && (d =? 128) && (e =? 128))
  || ((c =? 239) && (d =? 187) && (e =? 191)).

Definition isDigit (c : ascii) : bool :=
  (48 <=? nat_of_ascii c) && (nat_of_ascii c <=? 57).

Definition digitValue (c : ascii) : N := (N_of_ascii c - 48)%N.

Fixpoint trimStart (s : string) : string :=
  match s with
  | String c rest =>
      if isWhiteSpace c then trimStart rest
      else
        match rest with
        | String d rest2 =>
            if isWhiteSpace2 c d then trimStart rest2
            else
              match rest2 with
              | String e rest3 =>
                  if isWhiteSpace3 c d e then trimStart rest3 else s
              | EmptyString => s
              end
        | EmptyString => s
        end
  | EmptyString => EmptyString
  end.

(** Reads DecimalDigits off the front of [s]: the digits read extend the
    decimal numeral [acc]; returns the number, how many digits were read and
    the rest of the string. *)
Fixpoint readDigits (s : string) (acc : N) (count : nat) : N * nat * string :=
  match s with
  | String c rest =>
      if isDigit c then readDigits rest (10 * acc + digitValue c)%N (S count)
      else (acc, count, s)
  | EmptyString => (acc, count, s)
  end.

(** An optional sign at the front of [s]: whether it is a minus, and what
    follows it. *)
Definition readSign (s : string) : bool * string :=
  match s with
  | String c rest =>
      if Ascii.eqb c "+" then (false, rest)
      else if Ascii.eqb c "-" then (true, rest)
      else (false, s)
  | EmptyString => (false, s)
  end.

(** What follows the decimal point at the front of [s], if there is
    one. *)
Definition readPoint (s : string) : option string :=
  match s with
  | String c rest => if Ascii.eqb c "." then Some rest else None
  | EmptyString => None
  end.

(** The value of the ExponentPart at the front of [s], 0 if there is none. *)
Definition readExponent (s : string) : Z :=
  match s with
  | String c rest =>
      if (Ascii.eqb c "e" || Ascii.eqb c "E")%bool then
        let '(negative, digits) := readSign rest in
        let '(n, count, _) := readDigits digits 0%N 0 in
        if count =? 0 then 0%Z
        else if negative then (- Z.of_N n)%Z else Z.of_N n
      else 0%Z
  | EmptyString => 0%Z
  end.

Definition readUnsigned (negative : bool) (s : string) : literal :=
  if String.prefix "Infinity" s then LitInfinity negative
  else
    let '(int, intCount, afterInt) := readDigits s 0%N 0 in
    match readPoint afterInt with
    | Some afterDot =>
        let '(mantissa, fracCount, afterFrac) := readDigits afterDot int 0 in
        if ((intCount =? 0) && (fracCount =? 0))%bool then LitNaN
        else LitDecimal negative mantissa
                        (readExponent afterFrac - Z.of_nat fracCount)%Z
    | None =>
        if intCount =? 0 then LitNaN
        else LitDecimal negative int (readExponent afterInt)
    end.

Definition readLiteral (s : string) : literal :=
  let '(negative, unsigned) := readSign (trimStart s) in
  readUnsigned negative unsigned.

(** The number a literal denotes: the double nearest to mantissa times ten
    to the exponent.  (The language lets a host cut a numeral of more than
    20 significant digits at the 20th before rounding; the engines round
    the numeral as it is.) *)
Definition literalValue (l : literal) : num :=
  match l with
  | LitNaN => NaN
  | LitInfinity false => PosInf
  | LitInfinity true => NegInf
  | LitDecimal negative mantissa exponent =>
      let magnitude := (IZR (Z.of_N mantissa) * powerRZ 10 exponent)%R in
      Num.fl (if negative then (- magnitude)%R else magnitude)
  end.

(** [parseFloat(v)] is [parseFloat(ToString(v))].  A number prints to a
    string that reads back as itself, so a number is returned as it is. *)
Definition parseFloat (v : value) : num :=
  match v with
  | VNum n => n
  | VStr s => literalValue (readLiteral s)
  | VUndefined => literalValue (readLiteral "undefined")
  | VNull => literalValue (readLiteral "null")
  | VBool true => literalValue (readLiteral "true")
  | VBool false => literalValue (readLiteral "false")
  end.

(** [nodes.find(n => n.Node === id)] *)
Definition findNode (nodes : list obj) (id : value) : option obj :=
  List.find (fun n => strictEq (get n "Node") id) nodes.

(** ** Scene data shared by the two components *)

(** A position or a direction given as the array [[x, y, z]]. *)
Abbreviation triple := (num * num * num)%type.

(** The accumulator of the bounds fold. *)
Record Coords : Type := mkCoords {
  minX : num; maxX : num;
  minY : num; maxY : num;
  minZ : num; maxZ : num
}.

Record Bounds : Type := mkBounds { center : triple; size : num }.

(** The camera of the canvas: [center[i] + size] on every axis. *)
Definition cameraPosition (b : Bounds) : triple :=
  let '(cx, cy, cz) := center b in
  (Num.add cx (size b), Num.add cy (size b), Num.add cz (size b)).

(** The group holding the scene: [-center[i]] on every axis. *)
Definition groupPosition (b : Bounds) : triple :=
  let '(cx, cy, cz) := center b in (Num.neg cx, Num.neg cy, Num.neg cz).

(** [set.add(x)] on a [Set] kept in insertion order. *)
Definition setAdd {A : Type} `{EqDecision A} (set : list A) (x : A) : list A :=
  if decide (x ∈ set) then set else set ++ [x].

(** What [JSON.parse(JSON.stringify(n))] gives back for a number: the
    number, or [null] for NaN and the infinities. *)
Definition jsonNumber (n : num) : value :=
  match n with
  | Finite r => VNum (Finite r)
  | PosInf | NegInf | NaN => VNull
  end.

(** ** src/src/App.js *)

Module App.

(** The memoised value of [Cylinder]. *)
Record Mesh : Type := mkMesh {
  position : Vector3.t;
  rotation : Quaternion.t;
  length : num
}.

(** The body of [useMemo] in [Cylinder]: whether [console.warn] was called,
    and the mesh ([None] for the [null] of the [catch] branch, which no call
    in the [try] block can reach).  The literal [0.1] is the double nearest
    to one tenth. *)
Definition Cylinder_mesh (EPS : num) (start end_ : triple)
  : bool * option Mesh :=
  let '(sx, sy, sz) := start in
  let '(ex, ey, ez) := end_ in
  let startVec := Vector3.new sx sy sz in
  let endVec := Vector3.new ex ey ez in
  let direction := Vector3.sub endVec startVec in
  let length := Vector3.length direction in
  let warned := Num.lt length (Num.fl 0.1) in
  let center := Vector3.multiplyScalar (Vector3.add startVec endVec)
                                       (Finite 0.5) in
  let up := Vector3.new (Finite 0) (Finite 1) (Finite 0) in
  let direction := Vector3.normalize direction in
  let quaternion := Quaternion.setFromUnitVectors EPS up direction in
  (warned, Some (mkMesh center quaternion length)).

(** What [Cylinder] renders: the group's position, the mesh's quaternion
    and the height of the cylinder geometry; [None] when it returns
    [null]. *)
Record CylinderElement : Type := mkCylinderElement {
  elementPosition : triple;
  elementQuaternion : Quaternion.t;
  elementHeight : num
}.

Definition Cylinder (EPS : num) (start end_ : triple)
  : option CylinderElement :=
  match snd (Cylinder_mesh EPS start end_) with
  | None => None
  | Some mesh =>
      Some (mkCylinderElement (Vector3.toArray (position mesh))
                              (rotation mesh) (length mesh))
  end.

Definition specialMembers : list nat := [0; 11; 4].

(** The array a cube position is stringified from and parsed back to. *)
Definition cubePosition (node : obj) : value * value * value :=
  (jsonNumber (parseFloat (get node "X")),
   jsonNumber (parseFloat (get node "Y")),
   jsonNumber (parseFloat (get node "Z"))).

(** [cubes]: the positions of the [Cube] elements, in order (the key of a
    cube is its index in this list).  The set of JSON strings is kept as the
    list of the arrays the strings parse back to. *)
Definition cubes (members nodes : list obj) : list (value * value * value) :=
  if ((List.length members =? 0) || (List.length nodes =? 0))%bool then []
  else
    fold_left
      (fun cubePositions memberIndex =>
         match members !! memberIndex with
         | Some member =>
             let startNode := findNode nodes (get member "StartNode") in
             let endNode := findNode nodes (get member "EndNode") in
             let cubePositions :=
               match startNode with
               | Some node => setAdd cubePositions (cubePosition node)
               | None => cubePositions
               end in
             match endNode with
             | Some node => setAdd cubePositions (cubePosition node)
             | None => cubePositions
             end
         | None => cubePositions
         end)
      specialMembers [].

(** The props of a [Cylinder] element; [key] is the index of its member. *)
Record CylinderProps : Type := mkCylinderProps {
  key : nat;
  start : triple;
  end_ : triple
}.

Definition cylinderOf (nodes : list obj) (index : nat) (member : obj)
  : option CylinderProps :=
  let startNode := findNode nodes (get member "StartNode") in
  let endNode := findNode nodes (get member "EndNode") in
  match startNode, endNode with
  | Some startNode, Some endNode =>
      Some (mkCylinderProps index
              (parseFloat (get startNode "X"), parseFloat (get startNode "Y"),
               parseFloat (get startNode "Z"))
              (parseFloat (get endNode "X"), parseFloat (get endNode "Y"),
               parseFloat (get endNode "Z")))
  | _, _ => None
  end.

(** [cylinders]: [members.map(...).filter(Boolean)]. *)
Definition cylinders (members nodes : list obj) : list CylinderProps :=
  if ((List.length members =? 0) || (List.length nodes =? 0))%bool then []
  else omap (fun element => element) (imap (cylinderOf nodes) members).

Definition sceneBounds (nodes : list obj) : Bounds :=
  if List.length nodes =? 0 then
    mkBounds (Finite 0, Finite 0, Finite 0) (Finite 10)
  else
    let coords :=
      fold_left
        (fun acc node =>
           let x := parseFloat (get node "X") in
           let y := parseFloat (get node "Y") in
           let z := parseFloat (get node "Z") in
           mkCoords (Num.min (minX acc) x) (Num.max (maxX acc) x)
                    (Num.min (minY acc) y) (Num.max (maxY acc) y)
                    (Num.min (minZ acc) z) (Num.max (maxZ acc) z))
        nodes
        (mkCoords PosInf NegInf PosInf NegInf PosInf NegInf) in
    let center :=
      (Num.div (Num.add (minX coords) (maxX coords)) (Finite 2),
       Num.div (Num.add (minY coords) (maxY coords)) (Finite 2),
       Num.div (Num.add (minZ coords) (maxZ coords)) (Finite 2)) in
    let size :=
      Num.mul (Num.max3 (Num.sub (maxX coords) (minX coords))
                        (Num.sub (maxY coords) (minY coords))
                        (Num.sub (maxZ coords) (minZ coords)))
              (Finite 1.5) in
    mkBounds center size.

(** *** Upload *)

(** A workbook as SheetJS hands it over: the sheet names in order and the
    sheets by name.  A sheet is kept as the rows [XLSX.utils.sheet_to_json]
    makes of it. *)
Record WorkBook : Type := mkWorkBook {
  SheetNames : list string;
  Sheets : gmap string (list obj)
}.

(** [XLSX.read(data)] throws or returns a workbook. *)
Inductive ReadResult : Type :=
  | ReadThrows (message : string)
  | ReadOk (workbook : WorkBook).

(** [XLSX.utils.sheet_to_json(workbook.Sheets[workbook.SheetNames[i]])]:
    [SheetNames[i]] past the end is [undefined], which looks up the property
    named "undefined"; for an absent sheet [sheet_to_json] returns []. *)
Definition sheetRows (workbook : WorkBook) (i : nat) : list obj :=
  let name := default "undefined" (SheetNames workbook !! i) in
  default [] (Sheets workbook !! name).

Definition processNode (numberToString : num -> string) (node : obj) : obj :=
  {[ "Node" := optToString numberToString (get node "Node");
     "X" := VNum (Num.or (parseFloat (get node "X")) (Finite 0));
     "Y" := VNum (Num.or (parseFloat (get node "Y")) (Finite 0));
     "Z" := VNum (Num.or (parseFloat (get node "Z")) (Finite 0)) ]}.

Definition processMember (numberToString : num -> string) (member : obj)
  : obj :=
  {[ "StartNode" := optToString numberToString (get member "Start Node");
     "EndNode" := optToString numberToString (get member "End Node") ]}.

(** The three pieces of state of [App]. *)
Record State : Type := mkState {
  members : list obj;
  nodes : list obj;
  error : option string
}.

Definition initialState : State := mkState [] [] None.

(** The [try] block of [reader.onload]: the message of the exception it
    throws, or the processed members and nodes. *)
Definition tryProcess (numberToString : num -> string) (read : ReadResult)
  : string + list obj * list obj :=
  match read with
  | ReadThrows message => inl message
  | ReadOk workbook =>
      let membersData := sheetRows workbook 0 in
      let nodesData := sheetRows workbook 1 in
      if ((List.length membersData =? 0) || (List.length nodesData =? 0))%bool
      then inl "Invalid data in Excel file"
      else inr (map (processMember numberToString) membersData,
                map (processNode numberToString) nodesData)
  end.

(** [reader.onload]: the state after the handler has run. *)
Definition onload (numberToString : num -> string) (st : State)
  (read : ReadResult) : State :=
  match tryProcess numberToString read with
  | inr (processedMembers, processedNodes) =>
      mkState processedMembers processedNodes None
  | inl message =>
      mkState [] [] (Some (String.append "Error processing file: " message))
  end.

(** *** The two components as a whole *)

(** What [ThreeDModel] hands to the canvas: the camera position, the
    position of the group, and in the group the cylinders and the cubes. *)
Record Scene : Type := mkScene {
  camera : triple;
  group : triple;
  sceneCylinders : list CylinderProps;
  sceneCubes : list (value * value * value)
}.

Definition ThreeDModel (members nodes : list obj) : Scene :=
  let bounds := sceneBounds nodes in
  mkScene (cameraPosition bounds) (groupPosition bounds)
          (cylinders members nodes) (cubes members nodes).

(** What [App] renders below the file input: the error text, the counts of
    the message "Loaded ... members and ... nodes", and the model; [None]
    for a part that is left out (for the model, the line that asks for a
    file is shown instead).  [error && ...] shows a string that is not
    empty. *)
Record View : Type := mkView {
  errorMessage : option string;
  loadedMessage : option (nat * nat);
  model : option Scene
}.

Definition render (st : State) : View :=
  mkView
    match error st with
    | Some message => if String.eqb message "" then None else Some message
    | None => None
    end
    (if 0 <? List.length (members st)
     then Some (List.length (members st), List.length (nodes st)) else None)
    (if ((0 <? List.length (members st)) && (0 <? List.length (nodes st)))%bool
     then Some (ThreeDModel (members st) (nodes st)) else None).

End App.

(** ** src/unnamed/part_000: the stand-alone [ThreeDModel] component *)

Module ThreeDModel.

(** The memoised value of [Cylinder]: position and quaternion as arrays. *)
Record Mesh : Type := mkMesh {
  position : triple;
  quaternion : num * num * num * num;
  length : num
}.

Definition Cylinder_mesh (EPS : num) (start end_ : triple) : Mesh :=
  let '(sx, sy, sz) := start in
  let '(ex, ey, ez) := end_ in
  let startVec := Vector3.new sx sy sz in
  let endVec := Vector3.new ex ey ez in
  let direction := Vector3.sub endVec startVec in
  let length := Vector3.length direction in
  let center := Vector3.multiplyScalar (Vector3.add startVec endVec)
                                       (Finite 0.5) in
  let up := Vector3.new (Finite 0) (Finite 1) (Finite 0) in
  let direction := Vector3.normalize direction in
  let quaternion := Quaternion.setFromUnitVectors EPS up direction in
  mkMesh (Vector3.toArray center) (Quaternion.toArray quaternion) length.

(** What [Cylinder] renders: the cylinder mesh, and an [EndCube] at [end]
    when [isEndpoint] holds. *)
Record CylinderElement : Type := mkCylinderElement {
  elementMesh : Mesh;
  endCube : option triple
}.

Definition Cylinder (EPS : num) (start end_ : triple) (isEndpoint : bool)
  : CylinderElement :=
  mkCylinderElement (Cylinder_mesh EPS start end_)
                    (if isEndpoint then Some end_ else None).

(** [members["End Node"]]: [members] is the array, which has no such
    property. *)
Definition members_End_Node (members : list obj) : value := VUndefined.

(** [findEndpoints]: the object [nodeConnections] after the loop.  A
    property key is the string its value converts to;
    [nodeConnections[k] || 0] is 0 for an absent key.  The map holds the
    properties the loop writes.  A key that names a property every object
    inherits ("constructor", "__proto__", ...) is read from the prototype
    in the source and is not covered by the map: the statements about
    arbitrary members exclude such keys ([plainKeys]). *)
Definition findEndpoints (numberToString : num -> string)
  (members : list obj) : gmap string nat :=
  fold_left
    (fun (nodeConnections : gmap string nat) member =>
       let key := ToString numberToString in
       let nodeConnections :=
         <[ key (get member "StartNode") :=
              default 0 (nodeConnections !! key (get member "Start Node")) + 1 ]>
           nodeConnections in
       <[ key (get member "EndNode") :=
            default 0 (nodeConnections !! key (members_End_Node members)) + 1 ]>
         nodeConnections)
    members ∅.

(** The sum of all the counts of a connection map. *)
Definition totalCount (nodeConnections : gmap string nat) : nat :=
  map_fold (fun _ count total => count + total) 0 nodeConnections.

(** The coordinates the component reads off a node: [parseFloat(c) || 0]. *)
Definition nodePosition (node : obj) : triple :=
  (Num.or (parseFloat (get node "X")) (Finite 0),
   Num.or (parseFloat (get node "Y")) (Finite 0),
   Num.or (parseFloat (get node "Z")) (Finite 0)).

(** [nodePoints]: the positions of the [NodePoint] elements. *)
Definition nodePoints (nodes : list obj) : list triple :=
  map nodePosition nodes.

(** The props of a [Cylinder] element; [key] is the index of its member. *)
Record CylinderProps : Type := mkCylinderProps {
  key : nat;
  start : triple;
  end_ : triple;
  isEndpoint : bool
}.

(** [cylinders]: one entry per member, [None] for the [null] of a member
    with a node that is not found. *)
Definition cylinders (numberToString : num -> string)
  (members nodes : list obj) : list (option CylinderProps) :=
  imap
    (fun index member =>
       let startNode := findNode nodes (get member "Start Node") in
       let endNode := findNode nodes (get member "End Node") in
       match startNode, endNode with
       | Some startNode, Some endNode =>
           let isEndpoint :=
             bool_decide
               (findEndpoints numberToString members
                  !! ToString numberToString (get member "EndNode") = Some 1) in
           Some (mkCylinderProps index (nodePosition startNode)
                                 (nodePosition endNode) isEndpoint)
       | _, _ => None
       end)
    members.

Definition sceneBounds (nodes : list obj) : Bounds :=
  if List.length nodes =? 0 then
    mkBounds (Finite 0, Finite 0, Finite 0) (Finite 10)
  else
    let coords :=
      fold_left
        (fun acc node =>
           let x := Num.or (parseFloat (get node "X")) (Finite 0) in
           let y := Num.or (parseFloat (get node "Y")) (Finite 0) in
           let z := Num.or (parseFloat (get node "Z")) (Finite 0) in
           mkCoords (Num.min (minX acc) x) (Num.max (maxX acc) x)
                    (Num.min (minY acc) y) (Num.max (maxY acc) y)
                    (Num.min (minZ acc) z) (Num.max (maxZ acc) z))
        nodes
        (mkCoords PosInf NegInf PosInf NegInf PosInf NegInf) in
    let center :=
      (Num.div (Num.add (minX coords) (maxX coords)) (Finite 2),
       Num.div (Num.add (minY coords) (maxY coords)) (Finite 2),
       Num.div (Num.add (minZ coords) (maxZ coords)) (Finite 2)) in
    let size :=
      Num.mul (Num.max3 (Num.sub (maxX coords) (minX coords))
                        (Num.sub (maxY coords) (minY coords))
                        (Num.sub (maxZ coords) (minZ coords)))
              (Finite 1.5) in
    mkBounds center size.

(** What the component hands to the canvas: the camera position, the
    position of the group, and in the group the node points and the
    cylinders. *)
Record Scene : Type := mkScene {
  camera : triple;
  group : triple;
  sceneNodePoints : list triple;
  sceneCylinders : list (option CylinderProps)
}.

Definition ThreeDModel (numberToString : num -> string)
  (members nodes : list obj) : Scene :=
  let bounds := sceneBounds nodes in
  mkScene (cameraPosition bounds) (groupPosition bounds)
          (nodePoints nodes) (cylinders numberToString members nodes).

End ThreeDModel.


(** ** Vocabulary of the statements *)

Section Vocabulary.
Local Open Scope R_scope.

(** *** Points and vectors *)

(** The three coordinates of a position. *)
Definition xOf (p : R * R * R) : R := p.1.1.
Definition yOf (p : R * R * R) : R := p.1.2.
Definition zOf (p : R * R * R) : R := p.2.

(** A point with real coordinates, as the array of numbers a component
    receives, and as a [Vector3]. *)
Definition fin3 (p : R * R * R) : triple :=
  (Finite (xOf p), Finite (yOf p), Finite (zOf p)).

Definition vec3 (p : R * R * R) : Vector3.t :=
  Vector3.new (Finite (xOf p)) (Finite (yOf p)) (Finite (zOf p)).

(** *** Doubles *)

(** [x] is a double: [m * 2^e] with a significand of at most 53 bits and
    an exponent in the range of the format. *)
Definition isDouble (x : R) : Prop :=
  exists m e : Z,
    (Z.abs m < 2 ^ 53)%Z /\ (-1074 <= e <= 971)%Z /\ x = IZR m * pow2 e.

(** The double nearest to one tenth, which the literal [0.1] denotes. *)
Definition tenth : R := 3602879701896397 / 36028797018963968.

(** The real a finite number is, 0 for the others. *)
Definition realPart (n : num) : R :=
  match n with
  | Finite r => r
  | PosInf | NegInf | NaN => 0
  end.

(** *** Distances and directions *)






(** The canonical up axis (0, 1, 0). *)
Definition up : Vector3.t := Vector3.new (Finite 0) (Finite 1) (Finite 0).

(** The orientation that takes up onto the unit vector [d] by the shortest
    arc: the half-angle quaternion (d.z, 0, -d.x, 1 + d.y) / |...|. *)
Definition shortestArc (d : R * R * R) : Quaternion.t :=
  let l := sqrt (2 * (1 + yOf d)) in
  Quaternion.new (Finite (zOf d / l)) (Finite 0) (Finite (- xOf d / l))
                 (Finite ((1 + yOf d) / l)).

(** The half turn about the z axis. *)
Definition halfTurnZ : Quaternion.t :=
  Quaternion.new (Finite 0) (Finite 0) (Finite 1) (Finite 0).

(** The orientation [setFromUnitVectors(up, d)] settles on for a unit
    vector [d], with the library's tolerance [EPS]. *)
Definition orientationTo (EPS : R) (d : R * R * R) : Quaternion.t :=
  if decide (EPS <= 1 + yOf d) then shortestArc d else halfTurnZ.






(** The center [Cylinder] computes for two points that both have the
    coordinate [x], a double: [x], unless [x + x] overflows. *)
Definition centerOfSame (x : R) : num :=
  if decide (Rabs x < pow2 1023) then Finite x
  else if decide (0 < x) then PosInf else NegInf.

(** *** Nodes, members and bounds *)

(** The row of a node with numeric coordinates. *)
Definition nodeRow (id : string) (x y z : R) : obj :=
  {[ "Node" := VStr id; "X" := VNum (Finite x); "Y" := VNum (Finite y);
     "Z" := VNum (Finite z) ]}.

(** The row of a member as [App.js] processes it, and as the sheet has
    it. *)
Definition memberOf (startId endId : string) : obj :=
  {[ "StartNode" := VStr startId; "EndNode" := VStr endId ]}.

Definition memberRow (startId endId : string) : obj :=
  {[ "Start Node" := VStr startId; "End Node" := VStr endId ]}.

(** Node [n] is at position [p], read the way [App.js] reads it. *)
Definition positioned (n : obj) (p : R * R * R) : Prop :=
  parseFloat (get n "X") = Finite (xOf p) /\
  parseFloat (get n "Y") = Finite (yOf p) /\
  parseFloat (get n "Z") = Finite (zOf p).

(** [lo] is the least element of [xs]; [hi] is the greatest. *)
Definition least (lo : R) (xs : list R) : Prop :=
  lo ∈ xs /\ Forall (fun x => lo <= x) xs.

Definition greatest (hi : R) (xs : list R) : Prop :=
  hi ∈ xs /\ Forall (fun x => x <= hi) xs.

(** The bounds the specification describes for a list of positions whose
    least and greatest coordinates are given. *)
Definition boundsOf (loX hiX loY hiY loZ hiZ : R) : Bounds :=
  mkBounds (Finite ((loX + hiX) / 2), Finite ((loY + hiY) / 2),
            Finite ((loZ + hiZ) / 2))
           (Finite (Rmax (Rmax (hiX - loX) (hiY - loY)) (hiZ - loZ) * 1.5)).

(** The exact results of the steps by which [sceneBounds] computes the
    center and the size from the least and greatest coordinates. *)
Definition boundsSteps (loX hiX loY hiY loZ hiZ : R) : list R :=
  [loX + hiX; (loX + hiX) / 2; loY + hiY; (loY + hiY) / 2;
   loZ + hiZ; (loZ + hiZ) / 2; hiX - loX; hiY - loY; hiZ - loZ;
   Rmax (Rmax (hiX - loX) (hiY - loY)) (hiZ - loZ) * 1.5].

(** The seed of the bounds fold and what is computed from its result. *)
Definition seedCoords : Coords :=
  mkCoords PosInf NegInf PosInf NegInf PosInf NegInf.

Definition boundsFrom (coords : Coords) : Bounds :=
  mkBounds
    (Num.div (Num.add (minX coords) (maxX coords)) (Finite 2),
     Num.div (Num.add (minY coords) (maxY coords)) (Finite 2),
     Num.div (Num.add (minZ coords) (maxZ coords)) (Finite 2))
    (Num.mul (Num.max3 (Num.sub (maxX coords) (minX coords))
                       (Num.sub (maxY coords) (minY coords))
                       (Num.sub (maxZ coords) (minZ coords)))
             (Finite 1.5)).

(** One step of the bounds fold, over any way of reading a node's
    coordinates. *)
Definition boundsStep (rx ry rz : obj -> num) (acc : Coords) (node : obj)
  : Coords :=
  mkCoords (Num.min (minX acc) (rx node)) (Num.max (maxX acc) (rx node))
           (Num.min (minY acc) (ry node)) (Num.max (maxY acc) (ry node))
           (Num.min (minZ acc) (rz node)) (Num.max (maxZ acc) (rz node)).

(** Identifier [id] matches no node of the list. *)
Definition matchesNoNode (nodes : list obj) (id : value) : Prop :=
  Forall (fun n => strictEq (get n "Node") id = false) nodes.

(** A member has an unresolved reference: its start or its end identifier,
    read from the fields [startField] and [endField], matches no node. *)
Definition unresolved (startField endField : string) (nodes : list obj)
  (member : obj) : Prop :=
  matchesNoNode nodes (get member startField) \/
  matchesNoNode nodes (get member endField).

(** What the loop of [cubes] does for one member index. *)
Definition cubesStep (members nodes : list obj)
  (cubePositions : list (value * value * value)) (memberIndex : nat)
  : list (value * value * value) :=
  match members !! memberIndex with
  | Some member =>
      let startNode := findNode nodes (get member "StartNode") in
      let endNode := findNode nodes (get member "EndNode") in
      let cubePositions :=
        match startNode with
        | Some node => setAdd cubePositions (App.cubePosition node)
        | None => cubePositions
        end in
      match endNode with
      | Some node => setAdd cubePositions (App.cubePosition node)
      | None => cubePositions
      end
  | None => cubePositions
  end.

(** [p] is the position of the node found for the start or for the end of
    the member at index [i]. *)
Definition markedAt (members nodes : list obj) (i : nat)
  (p : value * value * value) : Prop :=
  exists member node,
    members !! i = Some member /\
    (findNode nodes (get member "StartNode") = Some node \/
     findNode nodes (get member "EndNode") = Some node) /\
    App.cubePosition node = p.

(** *** Connection counts *)

(** One round of the loop of [findEndpoints]. *)
Definition countStep (numberToString : num -> string) (members : list obj)
  (nodeConnections : gmap string nat) (member : obj) : gmap string nat :=
  let key := ToString numberToString in
  let nodeConnections :=
    <[ key (get member "StartNode") :=
         (default 0 (nodeConnections !! key (get member "Start Node")) + 1)%nat ]>
      nodeConnections in
  <[ key (get member "EndNode") :=
       (default 0 (nodeConnections
                     !! key (ThreeDModel.members_End_Node members)) + 1)%nat ]>
    nodeConnections.

(** A row of the members sheet, as [cylinders] of the stand-alone component
    reads it: identifiers under "Start Node" and "End Node", nothing under
    [StartNode] and [EndNode], and a start identifier that does not print
    as "undefined". *)
Definition isSheetRow (numberToString : num -> string) (member : obj) : Prop :=
  get member "StartNode" = VUndefined /\
  get member "EndNode" = VUndefined /\
  ToString numberToString (get member "Start Node") <> "undefined"%string.

(** A member as [App.js] processes it: identifiers under [StartNode] and
    [EndNode] that do not print as "undefined", nothing under
    "Start Node". *)
Definition isProcessedMember (numberToString : num -> string) (member : obj)
  : Prop :=
  get member "Start Node" = VUndefined /\
  ToString numberToString (get member "StartNode") <> "undefined"%string /\
  ToString numberToString (get member "EndNode") <> "undefined"%string.

(** *** Cells and numerals *)

(** The coordinate fields of a node row. *)
Definition coordinateFields : list string := ["X"; "Y"; "Z"].

(** The coordinate both files make of a cell: [parseFloat(cell) || 0]. *)
Definition coordinate (cell : value) : num :=
  Num.or (parseFloat cell) (Finite 0).

(** Text can start a number: after leading white space and an optional
    sign comes a digit, a point followed by a digit, or "Infinity". *)
Definition startsNumber (s : string) : bool :=
  let unsigned := snd (readSign (trimStart s)) in
  (String.prefix "Infinity" unsigned
   || match unsigned with
      | String c rest =>
          isDigit c
          || (Ascii.eqb c "."
              && match rest with
                 | String d _ => isDigit d
                 | EmptyString => false
                 end)
      | EmptyString => false
      end)%bool.

(** The string of the given bytes. *)
Definition bytes (codes : list nat) : string :=
  fold_right (fun code s => String (ascii_of_nat code) s) EmptyString codes.

(** The white space of the language, each character in its UTF-8
    encoding: tab, line feed, vertical tab, form feed, carriage return,
    space, U+00A0, U+1680, U+2000 to U+200A, U+2028, U+2029, U+202F,
    U+205F, U+3000 and U+FEFF. *)
Definition whiteSpace : list string :=
  map bytes
    [[9]; [10]; [11]; [12]; [13]; [32]; [194; 160]; [225; 154; 128];
     [226; 128; 128]; [226; 128; 129]; [226; 128; 130]; [226; 128; 131];
     [226; 128; 132]; [226; 128; 133]; [226; 128; 134]; [226; 128; 135];
     [226; 128; 136]; [226; 128; 137]; [226; 128; 138]; [226; 128; 168];
     [226; 128; 169]; [226; 128; 175]; [226; 129; 159]; [227; 128; 128];
     [239; 187; 191]]%nat.

(** The text of a run of white space characters. *)
Definition padding (pad : list string) : string :=
  fold_right String.append EmptyString pad.

(** Decimal numerals: the character of a digit, the text and the value of
    a list of digits. *)
Definition digitChar (d : nat) : ascii := ascii_of_nat (48 + d).

Definition digitsText (ds : list nat) : string :=
  fold_right (fun d s => String (digitChar d) s) EmptyString ds.

Definition digitsValue (ds : list nat) : N :=
  fold_left (fun acc d => (10 * acc + N.of_nat d)%N) ds 0%N.

(** A numeral of the language (StrDecimalLiteral other than Infinity): an
    optional sign, the digits before the point, whether there is a point,
    the digits after it, and an optional exponent part with its letter,
    its sign and its digits. *)
Inductive sign : Type := NoSign | PlusSign | MinusSign.

Record exponentPart : Type := mkExponentPart {
  upperCase : bool;
  exponentSign : sign;
  exponentDigits : list nat
}.

Record numeral : Type := mkNumeral {
  numeralSign : sign;
  integerDigits : list nat;
  hasPoint : bool;
  fractionDigits : list nat;
  exponent : option exponentPart
}.

Definition signText (s : sign) : string :=
  match s with
  | NoSign => ""
  | PlusSign => "+"
  | MinusSign => "-"
  end.

Definition exponentText (e : option exponentPart) : string :=
  match e with
  | None => ""
  | Some part =>
      String (if upperCase part then "E" else "e")
        (String.append (signText (exponentSign part))
                       (digitsText (exponentDigits part)))
  end.

Definition numeralText (n : numeral) : string :=
  String.append (signText (numeralSign n))
    (String.append (digitsText (integerDigits n))
       (String.append
          (if hasPoint n then String "." (digitsText (fractionDigits n))
           else "")
          (exponentText (exponent n)))).

(** The numeral is one of the language: digits are below ten, there is a
    digit before or after the point, no fraction without a point, and an
    exponent part has a digit. *)
Definition wellFormed (n : numeral) : Prop :=
  Forall (fun d => (d < 10)%nat) (integerDigits n) /\
  Forall (fun d => (d < 10)%nat) (fractionDigits n) /\
  integerDigits n ++ fractionDigits n <> [] /\
  (hasPoint n = false -> fractionDigits n = []) /\
  match exponent n with
  | None => True
  | Some part =>
      Forall (fun d => (d < 10)%nat) (exponentDigits part) /\
      exponentDigits part <> []
  end.

Definition exponentValue (e : option exponentPart) : Z :=
  match e with
  | None => 0%Z
  | Some part =>
      let v := Z.of_N (digitsValue (exponentDigits part)) in
      match exponentSign part with
      | MinusSign => (- v)%Z
      | _ => v
      end
  end.

(** The real the numeral denotes. *)
Definition numeralValue (n : numeral) : R :=
  let magnitude :=
    IZR (Z.of_N (digitsValue (integerDigits n ++ fractionDigits n)))
    * powerRZ 10 (exponentValue (exponent n)
                  - Z.of_nat (List.length (fractionDigits n))) in
  match numeralSign n with
  | MinusSign => - magnitude
  | _ => magnitude
  end.

(** The text starts with an exponent part: the letter e, an optional sign
    and a digit. *)
Definition startsExponent (rest : string) : bool :=
  match rest with
  | String c afterLetter =>
      (Ascii.eqb c "e" || Ascii.eqb c "E")
      && match afterLetter with
         | String d afterSign =>
             isDigit d
             || ((Ascii.eqb d "+" || Ascii.eqb d "-")
                 && match afterSign with
                    | String f _ => isDigit f
                    | EmptyString => false
                    end)
         | EmptyString => false
         end
  | EmptyString => false
  end.

Definition startsDigit (rest : string) : bool :=
  match rest with
  | String c _ => isDigit c
  | EmptyString => false
  end.

Definition startsPoint (rest : string) : bool :=
  match rest with
  | String c _ => Ascii.eqb c "."
  | EmptyString => false
  end.

(** What follows the numeral [n] does not extend it: it starts with no
    digit, with no exponent part unless [n] has one, and with no point
    unless [n] has a point or an exponent part. *)
Definition endsNumeral (n : numeral) (rest : string) : bool :=
  negb (startsDigit rest)
  && (match exponent n with
      | Some _ => true
      | None => negb (startsExponent rest)
      end)
  && (match exponent n with
      | Some _ => true
      | None => hasPoint n || negb (startsPoint rest)
      end).

(** Skips the digits at the front of [s]: how many there were, and the
    rest. *)
Fixpoint skipDigits (s : string) : nat * string :=
  match s with
  | String c rest =>
      if isDigit c then
        let '(n, r) := skipDigits rest in (S n, r)
      else (0%nat, s)
  | EmptyString => (0%nat, s)
  end.

(** The whole text, leading white space aside, is a decimal number: an
    optional sign, then "Infinity" or digits with at most one point, at
    least one digit, and an optional exponent; nothing follows. *)
Definition isNumericText (s : string) : bool :=
  let unsigned := snd (readSign (trimStart s)) in
  if String.eqb unsigned "Infinity" then true
  else
    let '(intCount, afterInt) := skipDigits unsigned in
    let '(fracCount, afterFrac) :=
      match readPoint afterInt with
      | Some afterDot => skipDigits afterDot
      | None => (0%nat, afterInt)
      end in
    let afterExponent :=
      match afterFrac with
      | String c rest =>
          if (Ascii.eqb c "e" || Ascii.eqb c "E")%bool then
            let digits := snd (readSign rest) in
            let '(expCount, afterDigits) := skipDigits digits in
            if (expCount =? 0)%nat then afterFrac else afterDigits
          else afterFrac
      | EmptyString => EmptyString
      end in
    ((0 <? intCount + fracCount)%nat && String.eqb afterExponent "")%bool.

(** *** Identifiers *)

(** An identifier cell is missing: [undefined] or [null]. *)
Definition isMissing (cell : value) : bool :=
  match cell with
  | VUndefined | VNull => true
  | _ => false
  end.

(** Two identifier cells print the same: both are missing, or neither is
    and their strings are equal. *)
Definition sameId (numberToString : num -> string) (a b : value) : bool :=
  if isMissing a then isMissing b
  else if isMissing b then false
  else String.eqb (ToString numberToString a) (ToString numberToString b).

(** Two values are of the same type. *)
Definition sameType (a b : value) : bool :=
  match a, b with
  | VUndefined, VUndefined | VNull, VNull | VBool _, VBool _
  | VNum _, VNum _ | VStr _, VStr _ => true
  | _, _ => false
  end.

(** The row of a node whose identifier is a number. *)
Definition numberedNodeRow (id x y z : R) : obj :=
  {[ "Node" := VNum (Finite id); "X" := VNum (Finite x);
     "Y" := VNum (Finite y); "Z" := VNum (Finite z) ]}.

(** The array of a position as it comes back from JSON. *)
Definition jsonTriple (p : triple) : value * value * value :=
  (jsonNumber p.1.1, jsonNumber p.1.2, jsonNumber p.2).

(** *** Positions read off nodes *)

(** The position [App.js] reads off a node, when it is finite. *)
Definition realPosition (node : obj) : R * R * R :=
  (realPart (parseFloat (get node "X")), realPart (parseFloat (get node "Y")),
   realPart (parseFloat (get node "Z"))).

(** Position [p] is within [r] of [c] on every axis. *)
Definition withinBox (c : R * R * R) (r : R) (p : R * R * R) : Prop :=
  Rabs (xOf p - xOf c) <= r /\ Rabs (yOf p - yOf c) <= r /\
  Rabs (zOf p - zOf c) <= r.

(** Position [p] moved by [t]. *)
Definition shift (t p : R * R * R) : R * R * R :=
  (xOf p + xOf t, yOf p + yOf t, zOf p + zOf t).

(** The keys [findEndpoints] writes for a member. *)
Definition startKey (numberToString : num -> string) (member : obj) : string :=
  ToString numberToString (get member "StartNode").

Definition endKey (numberToString : num -> string) (member : obj) : string :=
  ToString numberToString (get member "EndNode").

(** The names of the properties a plain object inherits from
    [Object.prototype]. *)
Definition objectPrototypeNames : list string :=
  ["constructor"; "__proto__"; "hasOwnProperty"; "isPrototypeOf";
   "propertyIsEnumerable"; "toLocaleString"; "toString"; "valueOf";
   "__defineGetter__"; "__defineSetter__"; "__lookupGetter__";
   "__lookupSetter__"].

(** [k] names no inherited property. *)
Definition ownName (k : string) : bool :=
  negb (existsb (String.eqb k) objectPrototypeNames).

(** The keys [findEndpoints] reads and writes for a member name no
    inherited property. *)
Definition plainKeys (numberToString : num -> string) (member : obj) : Prop :=
  ownName (startKey numberToString member) = true /\
  ownName (endKey numberToString member) = true /\
  ownName (ToString numberToString (get member "Start Node")) = true.

End Vocabulary.

(** * Properties *)

(** ** Rounding to the nearest double *)

Section Rounding.
Local Open Scope R_scope.

Lemma pow2_pos (e : Z) : 0 < pow2 e.
Proof. apply powerRZ_lt. lra. Qed.

Lemma pow2_add (a b : Z) : pow2 (a + b) = pow2 a * pow2 b.
Proof. apply powerRZ_add. lra. Qed.

Lemma pow2_IZR (z : Z) : (0 <= z)%Z -> pow2 z = IZR (2 ^ z).
Proof.
  intros Hz. unfold pow2. rewrite <- (Z2Nat.id z Hz).
  rewrite <- pow_powerRZ, pow_IZR. reflexivity.
Qed.

Lemma pow2_opp (e : Z) : pow2 (- e) = / pow2 e.
Proof. apply powerRZ_neg'. Qed.

Lemma pow2_opp_IZR (z : Z) : (0 <= z)%Z -> pow2 (- z) = / IZR (2 ^ z).
Proof. intros Hz. rewrite pow2_opp, pow2_IZR by exact Hz. reflexivity. Qed.

Lemma pow2_cancel (e : Z) : pow2 e * pow2 (- e) = 1.
Proof. rewrite <- pow2_add, Z.add_opp_diag_r. reflexivity. Qed.

Lemma pow2_ge_1 (k : Z) : (0 <= k)%Z -> 1 <= pow2 k.
Proof.
  intros Hk. rewrite pow2_IZR by exact Hk. apply IZR_le.
  pose proof (Z.pow_pos_nonneg 2 k). lia.
Qed.

Lemma pow2_le (a b : Z) : (a <= b)%Z -> pow2 a <= pow2 b.
Proof.
  intros Hab. replace b with (a + (b - a))%Z by lia. rewrite pow2_add.
  pose proof (pow2_pos a). pose proof (pow2_ge_1 (b - a) ltac:(lia)). nra.
Qed.

Lemma pow2_1 : pow2 1 = 2.
Proof. unfold pow2. simpl. lra. Qed.

Lemma pow2_lt (a b : Z) : (a < b)%Z -> pow2 a < pow2 b.
Proof.
  intros Hab. replace b with (a + 1 + (b - a - 1))%Z by lia.
  rewrite !pow2_add.
  pose proof (pow2_pos a). pose proof (pow2_ge_1 (b - a - 1) ltac:(lia)).
  rewrite pow2_1. nra.
Qed.

(** The search for the exponent ends in the binade of [x]. *)
Lemma findExponent_spec (x : R) (fuel : nat) (e : Z) :
  (e - Z.of_nat fuel = -1074)%Z ->
  (e = 971%Z \/ x < pow2 (e + 53)) ->
  let r := Num.findExponent fuel e x in
  (-1074 <= r <= e)%Z /\
  ((-1074 < r)%Z -> pow2 (r + 52) <= x) /\
  (r = 971%Z \/ x < pow2 (r + 53)).
Proof.
  revert e. induction fuel as [| fuel IH]; intros e He Hup;
    cbn [Num.findExponent].
  - cbv zeta. split; [lia |]. split; [lia | exact Hup].
  - destruct (decide (pow2 (e + 52) <= x)) as [H | H].
    + cbv zeta. split; [lia |]. split; [intros _; exact H | exact Hup].
    + specialize (IH (e - 1)%Z ltac:(lia)).
      destruct IH as (H1 & H2 & H3).
      { right. replace (e - 1 + 53)%Z with (e + 52)%Z by lia. lra. }
      cbv zeta. split; [lia |]. split; assumption.
Qed.

Lemma exponentOf_spec (x : R) :
  (-1074 <= Num.exponentOf x <= 971)%Z /\
  ((-1074 < Num.exponentOf x)%Z -> pow2 (Num.exponentOf x + 52) <= x) /\
  (Num.exponentOf x = 971%Z \/ x < pow2 (Num.exponentOf x + 53)).
Proof.
  unfold Num.exponentOf.
  apply (findExponent_spec x (Z.to_nat 2045) 971).
  - rewrite Z2Nat.id; lia.
  - left. reflexivity.
Qed.

(** The exponent is determined by the binade of [x]. *)
Lemma exponentOf_unique (x : R) (e : Z) :
  (-1074 <= e <= 971)%Z ->
  ((-1074 < e)%Z -> pow2 (e + 52) <= x) ->
  ((e < 971)%Z -> x < pow2 (e + 53)) ->
  Num.exponentOf x = e.
Proof.
  intros He Hlo Hhi. destruct (exponentOf_spec x) as (Hr & Hrlo & Hrhi).
  destruct (Z.lt_trichotomy (Num.exponentOf x) e) as [H | [H | H]];
    [| exact H |].
  - exfalso. destruct Hrhi as [Hrhi | Hrhi]; [lia |].
    specialize (Hlo ltac:(lia)).
    pose proof (pow2_le (Num.exponentOf x + 53) (e + 52) ltac:(lia)). lra.
  - exfalso. specialize (Hrlo ltac:(lia)). specialize (Hhi ltac:(lia)).
    pose proof (pow2_le (e + 53) (Num.exponentOf x + 52) ltac:(lia)). lra.
Qed.

Lemma Int_part_IZR (k : Z) : Int_part (IZR k) = k.
Proof. symmetry. apply Int_part_spec. lra. Qed.

Lemma nearestEven_IZR (k : Z) : Num.nearestEven (IZR k) = k.
Proof.
  unfold Num.nearestEven. rewrite Int_part_IZR.
  rewrite decide_True by lra. reflexivity.
Qed.

(** A real closer than a half to an integer rounds to it. *)
Lemma nearestEven_near (y : R) (k : Z) :
  Rabs (y - IZR k) < / 2 -> Num.nearestEven y = k.
Proof.
  intros H. apply Rabs_def2 in H as [H1 H2].
  unfold Num.nearestEven.
  destruct (Rle_lt_dec (IZR k) y) as [Hk | Hk].
  - assert (Int_part y = k) as ->.
    { symmetry. apply Int_part_spec. lra. }
    rewrite decide_True by lra. reflexivity.
  - assert (Int_part y = (k - 1)%Z) as ->.
    { symmetry. apply Int_part_spec. rewrite minus_IZR. lra. }
    rewrite minus_IZR. rewrite decide_False by lra.
    rewrite decide_True by lra. f_equal. lia.
Qed.

Lemma nearestEven_ge_floor (y : R) : (Int_part y <= Num.nearestEven y)%Z.
Proof.
  unfold Num.nearestEven. repeat destruct (decide _); try lia.
  destruct (Z.even _); lia.
Qed.

Lemma Rsgn_pos (x : R) : 0 < x -> Num.Rsgn x = Gt.
Proof.
  intros H. unfold Num.Rsgn. rewrite decide_False by lra.
  rewrite decide_True by lra. reflexivity.
Qed.

Lemma Rsgn_neg (x : R) : x < 0 -> Num.Rsgn x = Lt.
Proof. intros H. unfold Num.Rsgn. rewrite decide_True by lra. reflexivity. Qed.

Lemma Rsgn_zero : Num.Rsgn 0 = Eq.
Proof.
  unfold Num.Rsgn. rewrite decide_False by lra.
  rewrite decide_False by lra. reflexivity.
Qed.

Lemma fl_0 : Num.fl 0 = Finite 0.
Proof. unfold Num.fl. rewrite Rsgn_zero. reflexivity. Qed.

(** Rounding is symmetric. *)
Lemma fl_opp (x : R) : Num.fl (- x) = Num.neg (Num.fl x).
Proof.
  unfold Num.fl. destruct (Rtotal_order x 0) as [H | [-> | H]].
  - rewrite (Rsgn_neg x H), (Rsgn_pos (- x)) by lra.
    destruct (Num.roundPositive (- x)); cbn; try reflexivity.
    f_equal. lra.
  - rewrite Ropp_0, Rsgn_zero. cbn. f_equal. lra.
  - rewrite (Rsgn_pos x H), (Rsgn_neg (- x)) by lra.
    rewrite Ropp_involutive. reflexivity.
Qed.

(** Rounding never gives NaN. *)
Lemma fl_not_NaN (x : R) : Num.fl x <> NaN.
Proof.
  unfold Num.fl, Num.roundPositive.
  destruct (Num.Rsgn x); repeat destruct (decide _); discriminate.
Qed.

(** Rounding a positive real, given its binade and the integer nearest to
    its significand. *)
Lemma fl_positive (x : R) (e m : Z) :
  0 < x ->
  (-1074 <= e <= 971)%Z ->
  ((-1074 < e)%Z -> pow2 (e + 52) <= x) ->
  ((e < 971)%Z -> x < pow2 (e + 53)) ->
  Num.nearestEven (x * pow2 (- e)) = m ->
  IZR m * pow2 e < pow2 1024 ->
  Num.fl x = Finite (IZR m * pow2 e).
Proof.
  intros Hx He Hlo Hhi Hm Hfin. unfold Num.fl. rewrite (Rsgn_pos x Hx).
  unfold Num.roundPositive. rewrite (exponentOf_unique x e He Hlo Hhi).
  rewrite Hm. rewrite decide_False by lra. reflexivity.
Qed.

Lemma isDouble_opp (x : R) : isDouble x -> isDouble (- x).
Proof.
  intros (m & e & Hm & He & ->). exists (- m)%Z, e.
  split; [lia |]. split; [exact He |]. rewrite opp_IZR. ring.
Qed.

Lemma fl_double_pos (x : R) : 0 < x -> isDouble x -> Num.fl x = Finite x.
Proof.
  intros Hx (m & e & Hm & He & ->).
  pose proof (pow2_pos e) as Hpe.
  assert (Hmpos : (0 < m)%Z).
  { apply lt_IZR. nra. }
  destruct (exponentOf_spec (IZR m * pow2 e)) as (Hr & Hrlo & Hrhi).
  set (r := Num.exponentOf (IZR m * pow2 e)) in *.
  assert (Hre : (r <= e)%Z).
  { destruct (Z_le_gt_dec r e) as [H | H]; [exact H | exfalso].
    specialize (Hrlo ltac:(lia)).
    assert (IZR m * pow2 e < pow2 (e + 53)).
    { rewrite Z.add_comm, pow2_add, (pow2_IZR 53) by lia.
      assert (IZR m < IZR (2 ^ 53)) by (apply IZR_lt; lia). nra. }
    pose proof (pow2_le (e + 53) (r + 52) ltac:(lia)). lra. }
  assert (Hk : IZR m * pow2 e * pow2 (- r) = IZR (m * 2 ^ (e - r))).
  { rewrite Rmult_assoc, <- pow2_add, mult_IZR.
    replace (e + - r)%Z with (e - r)%Z by lia.
    rewrite (pow2_IZR (e - r)) by lia. reflexivity. }
  assert (Hval : IZR (m * 2 ^ (e - r)) * pow2 r = IZR m * pow2 e).
  { rewrite <- Hk, Rmult_assoc, (Rmult_comm (pow2 (- r))), pow2_cancel.
    ring. }
  rewrite <- Hval at 2.
  apply fl_positive.
  - exact Hx.
  - exact Hr.
  - intros H. apply Hrlo, H.
  - intros H. destruct Hrhi as [Hrhi | Hrhi]; [lia | exact Hrhi].
  - fold r. rewrite Hk. apply nearestEven_IZR.
  - rewrite Hval.
    assert (IZR m < IZR (2 ^ 53)) by (apply IZR_lt; lia).
    assert (pow2 e <= pow2 971) by (apply pow2_le; lia).
    replace 1024%Z with (53 + 971)%Z by lia.
    rewrite pow2_add, (pow2_IZR 53) by lia.
    pose proof (pow2_pos 971).
    assert (0 < IZR m) by (apply IZR_lt; lia). nra.
Qed.

(** A double is left as it is. *)
Lemma fl_double (x : R) : isDouble x -> Num.fl x = Finite x.
Proof.
  intros Hd. destruct (Rtotal_order x 0) as [H | [-> | H]].
  - replace x with (- - x) at 1 by lra. rewrite fl_opp.
    rewrite fl_double_pos; [| lra | apply isDouble_opp, Hd].
    cbn. f_equal. lra.
  - apply fl_0.
  - apply fl_double_pos; assumption.
Qed.

(** Overflow: from [2^1024] on the result is infinite. *)
Lemma fl_overflow (x : R) : pow2 1024 <= x -> Num.fl x = PosInf.
Proof.
  intros Hx. pose proof (pow2_pos 1024) as Hp.
  unfold Num.fl. rewrite Rsgn_pos by lra. unfold Num.roundPositive.
  assert (He : Num.exponentOf x = 971%Z).
  { apply exponentOf_unique; [lia | | lia].
    intros _. pose proof (pow2_le (971 + 52) 1024 ltac:(lia)). lra. }
  rewrite He. change (Z.opp 971) with (-971)%Z.
  rewrite decide_True; [reflexivity |].
  pose proof (nearestEven_ge_floor (x * pow2 (- 971))) as Hge.
  assert (Hfloor : (2 ^ 53 <= Int_part (x * pow2 (- 971)))%Z).
  { destruct (base_Int_part (x * pow2 (- 971))) as [_ H].
    assert (Hy : IZR (2 ^ 53) <= x * pow2 (- 971)).
    { rewrite <- (pow2_IZR 53) by lia.
      replace (pow2 53) with (pow2 1024 * pow2 (- 971))
        by (rewrite <- pow2_add; reflexivity).
      pose proof (pow2_pos (- 971)). nra. }
    apply Z.lt_succ_r. apply lt_IZR. rewrite succ_IZR. lra. }
  replace 1024%Z with (53 + 971)%Z by lia.
  rewrite pow2_add, (pow2_IZR 53) by lia.
  apply Rmult_le_compat_r; [pose proof (pow2_pos 971); lra |].
  apply IZR_le. lia.
Qed.

(** Underflow: a positive real of at most half the least positive double
    rounds to zero. *)
Lemma fl_underflow (x : R) :
  0 < x -> x <= pow2 (- 1075) -> Num.fl x = Finite 0.
Proof.
  intros Hx Hsmall.
  assert (Hlt : pow2 (- 1075) < pow2 (- 1074 + 53)) by (apply pow2_lt; lia).
  assert (H : Num.fl x = Finite (IZR 0 * pow2 (- 1074))).
  { apply fl_positive; try lia; try exact Hx.
    - intros _. lra.
    - assert (Hy : 0 < x * pow2 (- - 1074) <= / 2).
      { pose proof (pow2_pos (- - 1074)). split; [nra |].
        assert (pow2 (- 1075) * pow2 (- - 1074) = / 2) as <-.
        { rewrite <- pow2_add. unfold pow2. simpl. lra. }
        nra. }
      unfold Num.nearestEven.
      assert (Int_part (x * pow2 (- - 1074)) = 0%Z) as ->.
      { symmetry. apply Int_part_spec. lra. }
      destruct (decide _); [reflexivity |].
      rewrite decide_False by lra. reflexivity.
    - pose proof (pow2_pos 1024). rewrite Rmult_0_l. lra. }
  rewrite H. f_equal. apply Rmult_0_l.
Qed.

(** *** Doubles *)

Lemma isDouble_IZR (k : Z) : (Z.abs k < 2 ^ 53)%Z -> isDouble (IZR k).
Proof.
  intros Hk. exists k, 0%Z. split; [exact Hk |]. split; [lia |].
  unfold pow2. simpl. ring.
Qed.

Lemma isDouble_0 : isDouble 0.
Proof. apply (isDouble_IZR 0). reflexivity. Qed.

Lemma isDouble_1 : isDouble 1.
Proof. apply (isDouble_IZR 1). reflexivity. Qed.

Lemma isDouble_pow2 (e : Z) : (-1074 <= e <= 1023)%Z -> isDouble (pow2 e).
Proof.
  intros He. destruct (Z_le_gt_dec e 971) as [H | H].
  - exists 1%Z, e. split; [reflexivity |]. split; [lia |]. ring.
  - exists (2 ^ (e - 971))%Z, 971%Z. split; [| split; [lia |]].
    + rewrite Z.abs_eq by (apply Z.pow_nonneg; lia).
      apply Z.pow_lt_mono_r; lia.
    + rewrite <- pow2_IZR by lia. rewrite <- pow2_add. f_equal. lia.
Qed.

(** Twice a double below [2^1023] is a double. *)
Lemma isDouble_twice (x : R) :
  isDouble x -> Rabs x < pow2 1023 -> isDouble (x + x).
Proof.
  intros (m & e & Hm & He & ->) Hx.
  destruct (Z_lt_le_dec e 971) as [H | H].
  - exists m, (e + 1)%Z. split; [exact Hm |]. split; [lia |].
    rewrite pow2_add, pow2_1. ring.
  - assert (e = 971%Z) as -> by lia.
    exists (2 * m)%Z, 971%Z. split; [| split; [lia |]].
    + assert (Hlt : IZR (Z.abs m) < IZR (2 ^ 52)).
      { rewrite <- (pow2_IZR 52) by lia. rewrite abs_IZR.
        pose proof (pow2_pos 971) as Hp.
        replace 1023%Z with (52 + 971)%Z in Hx by lia.
        rewrite pow2_add, Rabs_mult, (Rabs_pos_eq (pow2 971)) in Hx by lra.
        nra. }
      apply lt_IZR in Hlt. lia.
    + rewrite mult_IZR. ring.
Qed.

End Rounding.

(** A real given by a numeral is a double: significand and exponent are
    found by the caller. *)
Ltac double_by m e :=
  exists m, e;
  split; [reflexivity | split; [lia | unfold pow2; simpl; lra]].

(** Takes a list of steps that are doubles apart. *)
Ltac split_steps H :=
  repeat (let Hd := fresh "Hd" in apply Forall_cons in H as [Hd H]);
  clear H.

(** Shows that the steps of a list are doubles, each by [tac]. *)
Ltac all_doubles tac :=
  repeat (apply List.Forall_cons; [tac |]); apply List.Forall_nil.

(** ** Arithmetic on finite numbers *)

Section NumFacts.
Local Open Scope R_scope.

Lemma Num_add_Finite (a b : R) :
  Num.add (Finite a) (Finite b) = Num.fl (a + b).
Proof. reflexivity. Qed.

Lemma Num_sub_Finite (a b : R) :
  Num.sub (Finite a) (Finite b) = Num.fl (a - b).
Proof. reflexivity. Qed.

Lemma Num_mul_Finite (a b : R) :
  Num.mul (Finite a) (Finite b) = Num.fl (a * b).
Proof. reflexivity. Qed.

Lemma Num_div_Finite (a b : R) :
  b <> 0 -> Num.div (Finite a) (Finite b) = Num.fl (a / b).
Proof. intros Hb. cbn. rewrite decide_False by exact Hb. reflexivity. Qed.

Lemma Num_sqrt_Finite (a : R) :
  0 <= a -> Num.sqrt (Finite a) = Num.fl (sqrt a).
Proof. intros Ha. cbn. rewrite decide_False by lra. reflexivity. Qed.

Lemma Num_add_exact (a b : R) :
  isDouble (a + b) -> Num.add (Finite a) (Finite b) = Finite (a + b).
Proof. intros H. cbn. apply fl_double, H. Qed.

Lemma Num_sub_exact (a b : R) :
  isDouble (a - b) -> Num.sub (Finite a) (Finite b) = Finite (a - b).
Proof. intros H. cbn. fold (a - b). apply fl_double, H. Qed.

Lemma Num_mul_exact (a b : R) :
  isDouble (a * b) -> Num.mul (Finite a) (Finite b) = Finite (a * b).
Proof. intros H. cbn. apply fl_double, H. Qed.

Lemma Num_div_exact (a b : R) :
  b <> 0 -> isDouble (a / b) -> Num.div (Finite a) (Finite b) = Finite (a / b).
Proof.
  intros Hb H. cbn. rewrite decide_False by exact Hb. apply fl_double, H.
Qed.

Lemma Num_sqrt_exact (a : R) :
  0 <= a -> isDouble (sqrt a) -> Num.sqrt (Finite a) = Finite (sqrt a).
Proof.
  intros Ha H. cbn. rewrite decide_False by lra. apply fl_double, H.
Qed.

(** Zero and one in sums and products: no rounding. *)
Lemma Num_mul_0_l (a : R) : Num.mul (Finite 0) (Finite a) = Finite 0.
Proof. cbn. rewrite Rmult_0_l. apply fl_0. Qed.

Lemma Num_mul_0_r (a : R) : Num.mul (Finite a) (Finite 0) = Finite 0.
Proof. cbn. rewrite Rmult_0_r. apply fl_0. Qed.

Lemma Num_mul_1_l (a : R) :
  isDouble a -> Num.mul (Finite 1) (Finite a) = Finite a.
Proof. intros H. cbn. rewrite Rmult_1_l. apply fl_double, H. Qed.

Lemma Num_mul_1_r (a : R) :
  isDouble a -> Num.mul (Finite a) (Finite 1) = Finite a.
Proof. intros H. cbn. rewrite Rmult_1_r. apply fl_double, H. Qed.

Lemma Num_add_0_l (a : R) :
  isDouble a -> Num.add (Finite 0) (Finite a) = Finite a.
Proof. intros H. cbn. rewrite Rplus_0_l. apply fl_double, H. Qed.

Lemma Num_add_0_r (a : R) :
  isDouble a -> Num.add (Finite a) (Finite 0) = Finite a.
Proof. intros H. cbn. rewrite Rplus_0_r. apply fl_double, H. Qed.

Lemma Num_sub_0_r (a : R) :
  isDouble a -> Num.sub (Finite a) (Finite 0) = Finite a.
Proof.
  intros H. cbn. replace (a + - 0) with a by lra. apply fl_double, H.
Qed.


Lemma Num_sub_same (a : R) : Num.sub (Finite a) (Finite a) = Finite 0.
Proof. cbn. rewrite Rplus_opp_r. apply fl_0. Qed.

Lemma Num_add_comm (a b : num) : Num.add a b = Num.add b a.
Proof.
  destruct a, b; try reflexivity. cbn. rewrite Rplus_comm. reflexivity.
Qed.

Lemma Num_lt_Finite_true (a b : R) :
  a < b -> Num.lt (Finite a) (Finite b) = true.
Proof. intros H. simpl. apply bool_decide_eq_true_2, H. Qed.

Lemma Num_lt_Finite_false (a b : R) :
  b <= a -> Num.lt (Finite a) (Finite b) = false.
Proof. intros H. simpl. apply bool_decide_eq_false_2. lra. Qed.

Lemma Num_eq_zero_false (a : R) :
  a <> 0 -> Num.eq (Finite a) Num.zero = false.
Proof.
  intros H. unfold Num.eq, Num.zero. apply bool_decide_eq_false_2.
  intros E. apply H. congruence.
Qed.

Lemma Num_or_truthy (a : R) (b : num) :
  a <> 0 -> Num.or (Finite a) b = Finite a.
Proof.
  intros H. unfold Num.or, Num.truthy.
  rewrite bool_decide_eq_false_2; [reflexivity | exact H].
Qed.

Lemma Num_or_zero (b : num) : Num.or (Finite 0) b = b.
Proof.
  unfold Num.or, Num.truthy.
  rewrite bool_decide_eq_true_2; reflexivity.
Qed.

(** [c || 0] leaves a finite number as it is: zero is replaced by zero. *)
Lemma Num_or_Finite_zero (a : R) : Num.or (Finite a) (Finite 0) = Finite a.
Proof.
  destruct (decide (a = 0)) as [-> | H].
  - apply Num_or_zero.
  - apply Num_or_truthy, H.
Qed.

(** [c || 0] leaves every number but NaN as it is. *)
Lemma Num_or_not_NaN (a : num) : a <> NaN -> Num.or a (Finite 0) = a.
Proof.
  intros H. destruct a; try reflexivity; [apply Num_or_Finite_zero |].
  congruence.
Qed.

Lemma Num_min_Finite (a b : R) :
  Num.min (Finite a) (Finite b) = Finite (Rmin a b).
Proof.
  unfold Num.min, Num.lt, Rmin. case_bool_decide; destruct (Rle_dec a b);
    f_equal; lra.
Qed.

Lemma Num_max_Finite (a b : R) :
  Num.max (Finite a) (Finite b) = Finite (Rmax a b).
Proof.
  unfold Num.max, Num.lt, Rmax. case_bool_decide; destruct (Rle_dec a b);
    f_equal; lra.
Qed.

(** The literal [0.1]. *)
Lemma fl_tenth : Num.fl 0.1 = Finite tenth.
Proof.
  assert (H2 : pow2 (- 56) = / 72057594037927936)
    by exact (pow2_opp_IZR 56 ltac:(lia)).
  replace tenth with (IZR 7205759403792794 * pow2 (- 56))
    by (rewrite H2; unfold tenth; lra).
  assert (Hlo : pow2 (- 56 + 52) = / 16) by (unfold pow2; simpl; lra).
  assert (Hhi : pow2 (- 56 + 53) = / 8) by (unfold pow2; simpl; lra).
  assert (H56 : pow2 (- - 56) = 72057594037927936)
    by exact (pow2_IZR 56 ltac:(lia)).
  apply fl_positive; try lia; try lra; try (intros _; lra).
  - rewrite H56. apply nearestEven_near.
    unfold Rabs. destruct (Rcase_abs _); lra.
  - rewrite H2. pose proof (pow2_ge_1 1024 ltac:(lia)). lra.
Qed.

End NumFacts.

(** ** Scene bounds *)

Section Bounds.
Local Open Scope R_scope.

Lemma boundsStep_fold (rx ry rz : obj -> num) (nodes : list obj)
  (acc : Coords) :
  fold_left (boundsStep rx ry rz) nodes acc =
  mkCoords (fold_left (fun m n => Num.min m (rx n)) nodes (minX acc))
           (fold_left (fun m n => Num.max m (rx n)) nodes (maxX acc))
           (fold_left (fun m n => Num.min m (ry n)) nodes (minY acc))
           (fold_left (fun m n => Num.max m (ry n)) nodes (maxY acc))
           (fold_left (fun m n => Num.min m (rz n)) nodes (minZ acc))
           (fold_left (fun m n => Num.max m (rz n)) nodes (maxZ acc)).
Proof.
  revert acc. induction nodes as [| n nodes IH]; intros acc.
  - destruct acc; reflexivity.
  - simpl. rewrite IH. reflexivity.
Qed.

Lemma fold_min_Finite (r : obj -> num) (nodes : list obj) (xs : list R)
  (a : R) :
  Forall2 (fun n x => r n = Finite x) nodes xs ->
  fold_left (fun m n => Num.min m (r n)) nodes (Finite a) =
  Finite (fold_left Rmin xs a).
Proof.
  intros H. revert a. induction H as [| n x nodes xs Hn _ IH]; intros a.
  - reflexivity.
  - cbn [fold_left]. rewrite Hn, Num_min_Finite. apply IH.
Qed.

Lemma fold_max_Finite (r : obj -> num) (nodes : list obj) (xs : list R)
  (a : R) :
  Forall2 (fun n x => r n = Finite x) nodes xs ->
  fold_left (fun m n => Num.max m (r n)) nodes (Finite a) =
  Finite (fold_left Rmax xs a).
Proof.
  intros H. revert a. induction H as [| n x nodes xs Hn _ IH]; intros a.
  - reflexivity.
  - cbn [fold_left]. rewrite Hn, Num_max_Finite. apply IH.
Qed.

Lemma fold_Rmin_least (xs : list R) (a : R) :
  least (fold_left Rmin xs a) (a :: xs).
Proof.
  revert a. induction xs as [| x xs IH]; intros a.
  - split; [left | repeat constructor; lra].
  - simpl. destruct (IH (Rmin a x)) as [Hin Hall].
    apply Forall_cons in Hall as [H0 Hall]. cbv beta in H0.
    split.
    + apply elem_of_cons in Hin as [-> | Hin].
      * unfold Rmin. destruct (Rle_dec a x); [left | right; left].
      * right; right; exact Hin.
    + pose proof (Rmin_l a x). pose proof (Rmin_r a x).
      constructor; [lra |]. constructor; [lra | exact Hall].
Qed.

Lemma fold_Rmax_greatest (xs : list R) (a : R) :
  greatest (fold_left Rmax xs a) (a :: xs).
Proof.
  revert a. induction xs as [| x xs IH]; intros a.
  - split; [left | repeat constructor; lra].
  - simpl. destruct (IH (Rmax a x)) as [Hin Hall].
    apply Forall_cons in Hall as [H0 Hall]. cbv beta in H0.
    split.
    + apply elem_of_cons in Hin as [-> | Hin].
      * unfold Rmax. destruct (Rle_dec a x); [right; left | left].
      * right; right; exact Hin.
    + pose proof (Rmax_l a x). pose proof (Rmax_r a x).
      constructor; [lra |]. constructor; [lra | exact Hall].
Qed.

End Bounds.

Section BoundsTheorems.
Local Open Scope R_scope.

Lemma xOf_triple (x y z : R) : xOf (x, y, z) = x.
Proof. reflexivity. Qed.

Lemma yOf_triple (x y z : R) : yOf (x, y, z) = y.
Proof. reflexivity. Qed.

Lemma zOf_triple (x y z : R) : zOf (x, y, z) = z.
Proof. reflexivity. Qed.

(** When no step rounds, the bounds made of the extremes are those of the
    specification. *)
Lemma boundsFrom_exact (loX hiX loY hiY loZ hiZ : R) :
  Forall isDouble (boundsSteps loX hiX loY hiY loZ hiZ) ->
  boundsFrom (mkCoords (Finite loX) (Finite hiX) (Finite loY) (Finite hiY)
                       (Finite loZ) (Finite hiZ)) =
  boundsOf loX hiX loY hiY loZ hiZ.
Proof.
  intros H. unfold boundsSteps in H. split_steps H.
  unfold boundsFrom, boundsOf, Num.max3. cbn [minX maxX minY maxY minZ maxZ].
  rewrite !Num_add_exact by assumption.
  rewrite !Num_div_exact by (first [lra | assumption]).
  rewrite !Num_sub_exact by assumption.
  rewrite !Num_max_Finite. rewrite Num_mul_exact by assumption.
  reflexivity.
Qed.

Lemma positioned_coordinates (r : obj -> num) (proj : R * R * R -> R)
  (nodes : list obj) (ps : list (R * R * R)) :
  Forall2 (fun n p => r n = Finite (proj p)) nodes ps ->
  Forall2 (fun n x => r n = Finite x) nodes (map proj ps).
Proof.
  induction 1; simpl; constructor; assumption.
Qed.

(** The fold over a non-empty list of nodes at finite positions ends in the
    least and greatest coordinate of every axis. *)
Lemma bounds_fold_extremes (rx ry rz : obj -> num) (nodes : list obj)
  (ps : list (R * R * R)) :
  nodes <> [] ->
  Forall2 (fun n p => rx n = Finite (xOf p)) nodes ps ->
  Forall2 (fun n p => ry n = Finite (yOf p)) nodes ps ->
  Forall2 (fun n p => rz n = Finite (zOf p)) nodes ps ->
  exists loX hiX loY hiY loZ hiZ,
    least loX (map xOf ps) /\ greatest hiX (map xOf ps) /\
    least loY (map yOf ps) /\ greatest hiY (map yOf ps) /\
    least loZ (map zOf ps) /\ greatest hiZ (map zOf ps) /\
    fold_left (boundsStep rx ry rz) nodes seedCoords =
    mkCoords (Finite loX) (Finite hiX) (Finite loY) (Finite hiY)
             (Finite loZ) (Finite hiZ).
Proof.
  intros Hne HX HY HZ.
  destruct HX as [| n p nodes ps Hx HX]; [congruence |].
  apply Forall2_cons in HY as [Hy HY]. apply Forall2_cons in HZ as [Hz HZ].
  apply positioned_coordinates in HX, HY, HZ.
  exists (fold_left Rmin (map xOf ps) (xOf p)),
         (fold_left Rmax (map xOf ps) (xOf p)),
         (fold_left Rmin (map yOf ps) (yOf p)),
         (fold_left Rmax (map yOf ps) (yOf p)),
         (fold_left Rmin (map zOf ps) (zOf p)),
         (fold_left Rmax (map zOf ps) (zOf p)).
  repeat split;
    try apply fold_Rmin_least; try apply fold_Rmax_greatest.
  cbn [fold_left]. rewrite boundsStep_fold.
  unfold boundsStep, seedCoords. cbn [minX maxX minY maxY minZ maxZ].
  rewrite Hx, Hy, Hz.
  change (Num.min PosInf (Finite ?a)) with (Finite a).
  change (Num.max NegInf (Finite ?a)) with (Finite a).
  rewrite (fold_min_Finite rx _ _ _ HX), (fold_max_Finite rx _ _ _ HX),
          (fold_min_Finite ry _ _ _ HY), (fold_max_Finite ry _ _ _ HY),
          (fold_min_Finite rz _ _ _ HZ), (fold_max_Finite rz _ _ _ HZ).
  reflexivity.
Qed.

Lemma App_sceneBounds_fold (n : obj) (nodes : list obj) :
  App.sceneBounds (n :: nodes) =
  boundsFrom
    (fold_left (boundsStep (fun node => parseFloat (get node "X"))
                           (fun node => parseFloat (get node "Y"))
                           (fun node => parseFloat (get node "Z")))
               (n :: nodes) seedCoords).
Proof. reflexivity. Qed.

Lemma ThreeDModel_sceneBounds_fold (n : obj) (nodes : list obj) :
  ThreeDModel.sceneBounds (n :: nodes) =
  boundsFrom
    (fold_left
       (boundsStep
          (fun node => Num.or (parseFloat (get node "X")) (Finite 0))
          (fun node => Num.or (parseFloat (get node "Y")) (Finite 0))
          (fun node => Num.or (parseFloat (get node "Z")) (Finite 0)))
       (n :: nodes) seedCoords).
Proof. reflexivity. Qed.

Lemma least_unique (lo lo' : R) (xs : list R) :
  least lo xs -> least lo' xs -> lo = lo'.
Proof.
  intros [Hin Hall] [Hin' Hall'].
  rewrite Forall_forall in Hall, Hall'.
  apply Hall in Hin'. apply Hall' in Hin. lra.
Qed.

Lemma greatest_unique (hi hi' : R) (xs : list R) :
  greatest hi xs -> greatest hi' xs -> hi = hi'.
Proof.
  intros [Hin Hall] [Hin' Hall'].
  rewrite Forall_forall in Hall, Hall'.
  apply Hall in Hin'. apply Hall' in Hin. lra.
Qed.

(** On nodes at finite positions the stand-alone component folds over the
    same coordinates as [App.js]. *)
Lemma ThreeDModel_fold_positioned (nodes : list obj) (ps : list (R * R * R))
  (acc : Coords) :
  Forall2 positioned nodes ps ->
  fold_left
    (boundsStep
       (fun node => Num.or (parseFloat (get node "X")) (Finite 0))
       (fun node => Num.or (parseFloat (get node "Y")) (Finite 0))
       (fun node => Num.or (parseFloat (get node "Z")) (Finite 0)))
    nodes acc =
  fold_left (boundsStep (fun node => parseFloat (get node "X"))
                        (fun node => parseFloat (get node "Y"))
                        (fun node => parseFloat (get node "Z")))
            nodes acc.
Proof.
  intros Hpos. revert acc.
  induction Hpos as [| n p nodes ps (Hx & Hy & Hz) _ IH]; intros acc.
  - reflexivity.
  - cbn [fold_left]. rewrite IH. f_equal. unfold boundsStep.
    rewrite Hx, Hy, Hz, !Num_or_Finite_zero. reflexivity.
Qed.

(** The fold of either component over a non-empty list of nodes at finite
    positions ends in the least and greatest coordinates. *)
Lemma sceneBounds_extremes (nodes : list obj) (ps : list (R * R * R)) :
  nodes <> [] ->
  Forall2 positioned nodes ps ->
  exists loX hiX loY hiY loZ hiZ,
    least loX (map xOf ps) /\ greatest hiX (map xOf ps) /\
    least loY (map yOf ps) /\ greatest hiY (map yOf ps) /\
    least loZ (map zOf ps) /\ greatest hiZ (map zOf ps) /\
    App.sceneBounds nodes
    = boundsFrom (mkCoords (Finite loX) (Finite hiX) (Finite loY)
                           (Finite hiY) (Finite loZ) (Finite hiZ)) /\
    ThreeDModel.sceneBounds nodes
    = boundsFrom (mkCoords (Finite loX) (Finite hiX) (Finite loY)
                           (Finite hiY) (Finite loZ) (Finite hiZ)).
Proof.
  intros Hne Hpos.
  assert (HX : Forall2 (fun n p => parseFloat (get n "X") = Finite (xOf p))
                       nodes ps)
    by (eapply Forall2_impl; [exact Hpos | intros ? ? (? & ? & ?); assumption]).
  assert (HY : Forall2 (fun n p => parseFloat (get n "Y") = Finite (yOf p))
                       nodes ps)
    by (eapply Forall2_impl; [exact Hpos | intros ? ? (? & ? & ?); assumption]).
  assert (HZ : Forall2 (fun n p => parseFloat (get n "Z") = Finite (zOf p))
                       nodes ps)
    by (eapply Forall2_impl; [exact Hpos | intros ? ? (? & ? & ?); assumption]).
  destruct (bounds_fold_extremes _ _ _ nodes ps Hne HX HY HZ)
    as (loX & hiX & loY & hiY & loZ & hiZ & H1 & H2 & H3 & H4 & H5 & H6 & HA).
  exists loX, hiX, loY, hiY, loZ, hiZ.
  destruct nodes as [| n nodes]; [congruence |].
  rewrite App_sceneBounds_fold, ThreeDModel_sceneBounds_fold.
  rewrite (ThreeDModel_fold_positioned _ _ _ Hpos), HA.
  split_and!; first [assumption | reflexivity].
Qed.

(** C5, as the code has it.  For a non-empty list of nodes at finite
    positions whose least and greatest coordinates are [lo] and [hi] on
    each axis, both [sceneBounds] return as center the midpoints
    [(lo + hi) / 2] and as size 1.5 times the largest of the three extents
    [hi - lo], each computed in doubles from [lo] and [hi]
    ([boundsFrom]); when these sums, halves, extents and the product are
    doubles, so that no step of the computation rounds, the center and the
    size are these values themselves ([boundsOf]). *)
Theorem sceneBounds_midpoint_and_extent (nodes : list obj)
  (ps : list (R * R * R)) (loX hiX loY hiY loZ hiZ : R) :
  nodes <> [] ->
  Forall2 positioned nodes ps ->
  least loX (map xOf ps) -> greatest hiX (map xOf ps) ->
  least loY (map yOf ps) -> greatest hiY (map yOf ps) ->
  least loZ (map zOf ps) -> greatest hiZ (map zOf ps) ->
  App.sceneBounds nodes
  = boundsFrom (mkCoords (Finite loX) (Finite hiX) (Finite loY) (Finite hiY)
                         (Finite loZ) (Finite hiZ)) /\
  ThreeDModel.sceneBounds nodes = App.sceneBounds nodes /\
  (Forall isDouble (boundsSteps loX hiX loY hiY loZ hiZ) ->
   App.sceneBounds nodes = boundsOf loX hiX loY hiY loZ hiZ /\
   ThreeDModel.sceneBounds nodes = boundsOf loX hiX loY hiY loZ hiZ).
Proof.
  intros Hne Hpos H1 H2 H3 H4 H5 H6.
  destruct (sceneBounds_extremes nodes ps Hne Hpos)
    as (loX' & hiX' & loY' & hiY' & loZ' & hiZ'
        & H1' & H2' & H3' & H4' & H5' & H6' & HA & HT).
  rewrite (least_unique _ _ _ H1' H1), (greatest_unique _ _ _ H2' H2),
          (least_unique _ _ _ H3' H3), (greatest_unique _ _ _ H4' H4),
          (least_unique _ _ _ H5' H5), (greatest_unique _ _ _ H6' H6)
    in HA, HT.
  rewrite HA, HT. split_and!; try reflexivity.
  intros Hexact. rewrite (boundsFrom_exact _ _ _ _ _ _ Hexact).
  split; reflexivity.
Qed.

(** The instance of the specification: on the nodes (0,0,0), (10,0,0) and
    (0,10,0) the center is (5,5,0) and the size 15. *)
Lemma sceneBounds_midpoint_and_extent_example :
  let nodes := [nodeRow "1" 0 0 0; nodeRow "2" 10 0 0; nodeRow "3" 0 10 0] in
  let ps := [(0, 0, 0); (10, 0, 0); (0, 10, 0)] in
  nodes <> [] /\
  Forall2 positioned nodes ps /\
  least 0 (map xOf ps) /\ greatest 10 (map xOf ps) /\
  least 0 (map yOf ps) /\ greatest 10 (map yOf ps) /\
  least 0 (map zOf ps) /\ greatest 0 (map zOf ps) /\
  Forall isDouble (boundsSteps 0 10 0 10 0 0) /\
  App.sceneBounds nodes = mkBounds (Finite 5, Finite 5, Finite 0) (Finite 15) /\
  ThreeDModel.sceneBounds nodes =
    mkBounds (Finite 5, Finite 5, Finite 0) (Finite 15).
Proof.
  intros nodes ps.
  assert (Hne : nodes <> []) by discriminate.
  assert (Hpos : Forall2 positioned nodes ps) by (repeat constructor).
  assert (H1 : least 0 (map xOf ps))
    by (split; [left | repeat constructor; cbn; lra]).
  assert (H2 : greatest 10 (map xOf ps))
    by (split; [right; left | repeat constructor; cbn; lra]).
  assert (H3 : least 0 (map yOf ps))
    by (split; [left | repeat constructor; cbn; lra]).
  assert (H4 : greatest 10 (map yOf ps))
    by (split; [right; right; left | repeat constructor; cbn; lra]).
  assert (H5 : least 0 (map zOf ps))
    by (split; [left | repeat constructor; cbn; lra]).
  assert (H6 : greatest 0 (map zOf ps))
    by (split; [left | repeat constructor; cbn; lra]).
  assert (Hmax : Rmax (Rmax (10 - 0) (10 - 0)) (0 - 0) = 10)
    by (unfold Rmax; repeat destruct (Rle_dec _ _); lra).
  assert (Hexact : Forall isDouble (boundsSteps 0 10 0 10 0 0)).
  { unfold boundsSteps. rewrite Hmax.
    all_doubles
      ltac:(first [double_by 10%Z 0%Z | double_by 5%Z 0%Z
                  | double_by 0%Z 0%Z | double_by 15%Z 0%Z]). }
  destruct (sceneBounds_midpoint_and_extent nodes ps 0 10 0 10 0 0
              Hne Hpos H1 H2 H3 H4 H5 H6) as (_ & _ & Hsteps).
  destruct (Hsteps Hexact) as [HA HT].
  assert (Hb : boundsOf 0 10 0 10 0 0
               = mkBounds (Finite 5, Finite 5, Finite 0) (Finite 15)).
  { unfold boundsOf. rewrite Hmax. repeat f_equal; lra. }
  rewrite Hb in HA, HT. split_and!; assumption.
Defined.

(** C5 fails as stated: a single node at x = 2^1023, a double, has the
    midpoint 2^1023 on the x axis, and both [sceneBounds] return the
    center x = Infinity, because the sum of the least and the greatest
    coordinate overflows. *)
Lemma sceneBounds_center_overflows :
  let nodes := [nodeRow "1" (pow2 1023) 0 0] in
  nodes <> [] /\
  Forall2 positioned nodes [(pow2 1023, 0, 0)] /\
  isDouble (pow2 1023) /\
  least (pow2 1023) [pow2 1023] /\ greatest (pow2 1023) [pow2 1023] /\
  (pow2 1023 + pow2 1023) / 2 = pow2 1023 /\
  center (App.sceneBounds nodes) = (PosInf, Finite 0, Finite 0) /\
  center (ThreeDModel.sceneBounds nodes) = (PosInf, Finite 0, Finite 0).
Proof.
  intros nodes.
  assert (Hpos : Forall2 positioned nodes [(pow2 1023, 0, 0)])
    by (repeat constructor).
  assert (Hover : Num.add (Finite (pow2 1023)) (Finite (pow2 1023)) = PosInf).
  { rewrite Num_add_Finite. apply fl_overflow.
    replace 1024%Z with (1023 + 1)%Z by lia.
    rewrite pow2_add, pow2_1. lra. }
  assert (Hzero : Num.div (Num.add (Finite 0) (Finite 0)) (Finite 2)
                  = Finite 0).
  { rewrite Num_add_exact by (rewrite Rplus_0_l; apply isDouble_0).
    rewrite Num_div_exact; [f_equal; lra | lra |].
    replace ((0 + 0) / 2) with 0 by lra. apply isDouble_0. }
  assert (HA : center (App.sceneBounds nodes) = (PosInf, Finite 0, Finite 0)).
  { change (center (App.sceneBounds nodes))
      with (Num.div (Num.add (Finite (pow2 1023)) (Finite (pow2 1023)))
                    (Finite 2),
            Num.div (Num.add (Finite 0) (Finite 0)) (Finite 2),
            Num.div (Num.add (Finite 0) (Finite 0)) (Finite 2)).
    rewrite Hover, Hzero. cbn. rewrite decide_False by lra. reflexivity. }
  split_and!.
  - discriminate.
  - exact Hpos.
  - apply isDouble_pow2. lia.
  - split; [left | repeat constructor; lra].
  - split; [left | repeat constructor; lra].
  - lra.
  - exact HA.
  - destruct (sceneBounds_extremes nodes _ ltac:(discriminate) Hpos)
      as (loX & hiX & loY & hiY & loZ & hiZ & _ & _ & _ & _ & _ & _ & HA' & HT).
    rewrite HT, <- HA'. exact HA.
Qed.

(** C6.  On an empty node list both [sceneBounds] return the fixed default,
    center (0,0,0) and size 10, and the camera derived from it is at the
    finite position (10,10,10). *)
Theorem sceneBounds_empty_default :
  App.sceneBounds [] = mkBounds (Finite 0, Finite 0, Finite 0) (Finite 10) /\
  ThreeDModel.sceneBounds [] =
    mkBounds (Finite 0, Finite 0, Finite 0) (Finite 10) /\
  cameraPosition (App.sceneBounds []) = (Finite 10, Finite 10, Finite 10) /\
  cameraPosition (ThreeDModel.sceneBounds []) =
    (Finite 10, Finite 10, Finite 10).
Proof.
  assert (H : Num.add (Finite 0) (Finite 10) = Finite 10)
    by (apply Num_add_0_l; double_by 10%Z 0%Z).
  split_and!; try reflexivity.
  - unfold cameraPosition. cbn [App.sceneBounds List.length Nat.eqb center size].
    rewrite H. reflexivity.
  - unfold cameraPosition.
    cbn [ThreeDModel.sceneBounds List.length Nat.eqb center size].
    rewrite H. reflexivity.
Qed.

End BoundsTheorems.

(** ** The cylinder between two points *)

Section Geometry.
Local Open Scope R_scope.







(** *** The steps of [Cylinder], when none of them rounds *)


(** The memoised value of [Cylinder] in [App.js], part by part. *)
Lemma App_Cylinder_mesh_parts (EPS : num) (a b : R * R * R) :
  App.Cylinder_mesh EPS (fin3 a) (fin3 b) =
  (Num.lt (Vector3.length (Vector3.sub (vec3 b) (vec3 a))) (Num.fl 0.1),
   Some (App.mkMesh
           (Vector3.multiplyScalar (Vector3.add (vec3 a) (vec3 b))
                                   (Finite 0.5))
           (Quaternion.setFromUnitVectors EPS up
              (Vector3.normalize (Vector3.sub (vec3 b) (vec3 a))))
           (Vector3.length (Vector3.sub (vec3 b) (vec3 a))))).
Proof. reflexivity. Qed.

(** The two [Cylinder] components compute the same mesh. *)
Lemma ThreeDModel_Cylinder_mesh_App (EPS : num) (start end_ : triple) :
  exists warned mesh,
    App.Cylinder_mesh EPS start end_ = (warned, Some mesh) /\
    ThreeDModel.Cylinder_mesh EPS start end_ =
    ThreeDModel.mkMesh (Vector3.toArray (App.position mesh))
                       (Quaternion.toArray (App.rotation mesh))
                       (App.length mesh).
Proof.
  destruct start as [[sx sy] sz], end_ as [[ex ey] ez].
  eexists _, _. split; reflexivity.
Qed.





(** [direction.normalize()] on the zero vector leaves it as it is: the
    length 0 is replaced by 1. *)
Lemma Vector3_normalize_zero :
  Vector3.normalize (Vector3.new (Finite 0) (Finite 0) (Finite 0)) =
  Vector3.new (Finite 0) (Finite 0) (Finite 0).
Proof.
  unfold Vector3.normalize, Vector3.length.
  cbn [Vector3.x Vector3.y Vector3.z].
  rewrite !Num_mul_0_l. rewrite !Num_add_0_l by apply isDouble_0.
  rewrite Num_sqrt_exact by (rewrite ?sqrt_0; first [lra | apply isDouble_0]).
  rewrite sqrt_0, Num_or_zero.
  unfold Vector3.divideScalar, Num.one.
  rewrite Num_div_exact
    by (first [lra | replace (1 / 1) with 1 by lra; apply isDouble_1]).
  unfold Vector3.multiplyScalar. cbn [Vector3.x Vector3.y Vector3.z].
  rewrite !Num_mul_0_l. reflexivity.
Qed.

Lemma Quaternion_length_exact (x y z w : R) :
  Forall isDouble
    [x * x; y * y; z * z; w * w; x * x + y * y; x * x + y * y + z * z;
     x * x + y * y + z * z + w * w;
     sqrt (x * x + y * y + z * z + w * w)] ->
  Quaternion.length
    (Quaternion.new (Finite x) (Finite y) (Finite z) (Finite w)) =
  Finite (sqrt (x * x + y * y + z * z + w * w)).
Proof.
  intros H. split_steps H. unfold Quaternion.length.
  cbn [Quaternion.x Quaternion.y Quaternion.z Quaternion.w].
  rewrite !Num_mul_exact by assumption. rewrite !Num_add_exact by assumption.
  apply Num_sqrt_exact; [nra | assumption].
Qed.

Lemma Quaternion_normalize_exact (x y z w : R) :
  0 < x * x + y * y + z * z + w * w ->
  Forall isDouble
    [x * x; y * y; z * z; w * w; x * x + y * y; x * x + y * y + z * z;
     x * x + y * y + z * z + w * w;
     sqrt (x * x + y * y + z * z + w * w)] ->
  Forall isDouble
    [1 / sqrt (x * x + y * y + z * z + w * w);
     x * (1 / sqrt (x * x + y * y + z * z + w * w));
     y * (1 / sqrt (x * x + y * y + z * z + w * w));
     z * (1 / sqrt (x * x + y * y + z * z + w * w));
     w * (1 / sqrt (x * x + y * y + z * z + w * w))] ->
  Quaternion.normalize
    (Quaternion.new (Finite x) (Finite y) (Finite z) (Finite w)) =
  Quaternion.new
    (Finite (x * (1 / sqrt (x * x + y * y + z * z + w * w))))
    (Finite (y * (1 / sqrt (x * x + y * y + z * z + w * w))))
    (Finite (z * (1 / sqrt (x * x + y * y + z * z + w * w))))
    (Finite (w * (1 / sqrt (x * x + y * y + z * z + w * w)))).
Proof.
  intros Hpos Hlen Hdiv. pose proof (sqrt_lt_R0 _ Hpos) as Hl.
  unfold Quaternion.normalize. rewrite (Quaternion_length_exact _ _ _ _ Hlen).
  rewrite Num_eq_zero_false by lra. split_steps Hdiv.
  unfold Num.one. rewrite Num_div_exact by (lra || assumption).
  cbn [Quaternion.x Quaternion.y Quaternion.z Quaternion.w].
  rewrite !Num_mul_exact by assumption. reflexivity.
Qed.

(** A quaternion along one axis is a unit quaternion as it is. *)
Lemma Quaternion_normalize_w :
  Quaternion.normalize
    (Quaternion.new (Finite 0) (Finite 0) (Finite 0) (Finite 1))
  = Quaternion.identity.
Proof.
  assert (Hs : sqrt (0 * 0 + 0 * 0 + 0 * 0 + 1 * 1) = 1)
    by (replace (0 * 0 + 0 * 0 + 0 * 0 + 1 * 1) with 1 by ring; apply sqrt_1).
  rewrite Quaternion_normalize_exact.
  - rewrite Hs. unfold Quaternion.identity, Num.zero, Num.one.
    f_equal; f_equal; lra.
  - lra.
  - rewrite Hs.
    all_doubles ltac:(first [double_by 0%Z 0%Z | double_by 1%Z 0%Z]).
  - rewrite Hs.
    all_doubles ltac:(first [double_by 0%Z 0%Z | double_by 1%Z 0%Z]).
Qed.


(** [up . d + 1], as [setFromUnitVectors] computes it. *)
Lemma dot_up_plus_one (dx dy dz : R) :
  isDouble dy -> isDouble (1 + dy) ->
  Num.add (Vector3.dot up (Vector3.new (Finite dx) (Finite dy) (Finite dz)))
          Num.one =
  Finite (1 + dy).
Proof.
  intros Hy Hr. unfold Vector3.dot, up, Num.one.
  cbn [Vector3.x Vector3.y Vector3.z].
  rewrite !Num_mul_0_l, Num_mul_1_l by exact Hy.
  rewrite Num_add_0_l, Num_add_0_r by exact Hy.
  rewrite Num_add_Finite, Rplus_comm. apply fl_double, Hr.
Qed.



(** [setFromUnitVectors(up, 0)]: with the zero vector for a direction the
    cross product vanishes and the result normalises to the identity. *)
Lemma setFromUnitVectors_up_zero (EPS : R) :
  EPS <= 1 ->
  Quaternion.setFromUnitVectors (Finite EPS) up
    (Vector3.new (Finite 0) (Finite 0) (Finite 0)) = Quaternion.identity.
Proof.
  intros HEPS. unfold Quaternion.setFromUnitVectors.
  rewrite dot_up_plus_one
    by (first [apply isDouble_0 | rewrite Rplus_0_r; apply isDouble_1]).
  rewrite Rplus_0_r. rewrite Num_lt_Finite_false by lra.
  unfold up. cbn [Vector3.x Vector3.y Vector3.z].
  rewrite !Num_mul_0_l, !Num_mul_0_r. rewrite !Num_sub_same.
  apply Quaternion_normalize_w.
Qed.

(** *** What the orientations do to the up axis *)



(** *** From (0,0,0) to (0,5,0) *)




(** *** The claim about the cylinder *)


Lemma EPSILON_bounds : / 10 ^ 16 < / 2 ^ 52 /\ / 2 ^ 52 < 1.
Proof.
  assert (H2 : 2 ^ 52 = 4503599627370496) by (simpl; ring).
  assert (H10 : 10 ^ 16 = 10000000000000000) by (simpl; ring).
  rewrite H2, H10. split.
  - apply Rinv_lt_contravar; lra.
  - rewrite <- Rinv_1. apply Rinv_lt_contravar; lra.
Qed.


(** *** Where the claim fails *)



(** Underflow: from (0,0,0) to (2^-600, 0, 0), two distinct points, the
    square of the difference rounds to zero and the length is 0. *)
Lemma Cylinder_length_underflows :
  let a : R * R * R := (0, 0, 0) in
  let b : R * R * R := (pow2 (- 600), 0, 0) in
  a <> b /\
  isDouble (pow2 (- 600)) /\
  Vector3.length (Vector3.sub (vec3 b) (vec3 a)) = Finite 0.
Proof.
  intros a b. pose proof (pow2_pos (- 600)) as Hp.
  assert (Hd : isDouble (pow2 (- 600))) by (apply isDouble_pow2; lia).
  split_and!.
  - intros [= H]. lra.
  - exact Hd.
  - unfold Vector3.sub, vec3, a, b.
    rewrite !xOf_triple, !yOf_triple, !zOf_triple.
    cbn [Vector3.x Vector3.y Vector3.z].
    rewrite !Num_sub_0_r by (first [exact Hd | apply isDouble_0]).
    unfold Vector3.length. cbn [Vector3.x Vector3.y Vector3.z].
    rewrite Num_mul_0_l, Num_mul_Finite.
    rewrite fl_underflow.
    + rewrite !Num_add_0_l by apply isDouble_0.
      rewrite Num_sqrt_Finite by lra. rewrite sqrt_0. apply fl_0.
    + nra.
    + rewrite <- pow2_add. apply pow2_le. lia.
Qed.

(** *** Two coincident points *)

Lemma Vector3_length_zero :
  Vector3.length (Vector3.new (Finite 0) (Finite 0) (Finite 0)) = Finite 0.
Proof.
  unfold Vector3.length. cbn [Vector3.x Vector3.y Vector3.z].
  rewrite !Num_mul_0_l. rewrite !Num_add_0_l by apply isDouble_0.
  rewrite Num_sqrt_Finite by lra. rewrite sqrt_0. apply fl_0.
Qed.

(** Half of twice a double is the double, unless twice the double
    overflows. *)
Lemma center_of_same (x : R) :
  isDouble x ->
  Num.mul (Num.add (Finite x) (Finite x)) (Finite 0.5) = centerOfSame x.
Proof.
  intros Hx. unfold centerOfSame.
  pose proof (pow2_pos 1023) as Hp.
  assert (H2 : pow2 1024 = 2 * pow2 1023).
  { replace 1024%Z with (1023 + 1)%Z by lia. rewrite pow2_add, pow2_1. ring. }
  destruct (decide (Rabs x < pow2 1023)) as [Hsmall | Hbig].
  - rewrite Num_add_exact by (apply isDouble_twice; assumption).
    rewrite Num_mul_Finite. replace ((x + x) * 0.5) with x by lra.
    apply fl_double, Hx.
  - rewrite Num_add_Finite. destruct (decide (0 < x)) as [Hpos | Hneg].
    + rewrite Rabs_pos_eq in Hbig by lra.
      rewrite fl_overflow by lra.
      cbn. unfold Num.scaleInf. rewrite Rsgn_pos by lra. reflexivity.
    + assert (Hx0 : x < 0).
      { destruct (Rtotal_order x 0) as [H | [H | H]]; [exact H | | lra].
        subst x. rewrite Rabs_R0 in Hbig. lra. }
      rewrite Rabs_left in Hbig by exact Hx0.
      replace (x + x) with (- (- x + - x)) by lra.
      rewrite fl_opp, fl_overflow by lra.
      cbn. unfold Num.scaleInf. rewrite Rsgn_pos by lra. reflexivity.
Qed.

(** The memoised value of [Cylinder] in [App.js] for two coincident
    points: a warning, and a mesh of length 0 with the identity for
    orientation. *)
Lemma App_Cylinder_mesh_coincident (EPS : R) (a : R * R * R) :
  EPS <= 1 ->
  isDouble (xOf a) -> isDouble (yOf a) -> isDouble (zOf a) ->
  App.Cylinder_mesh (Finite EPS) (fin3 a) (fin3 a) =
  (true,
   Some (App.mkMesh
           (Vector3.new (centerOfSame (xOf a)) (centerOfSame (yOf a))
                        (centerOfSame (zOf a)))
           Quaternion.identity (Finite 0))).
Proof.
  intros HEPS Hx Hy Hz. rewrite App_Cylinder_mesh_parts.
  assert (Hsub : Vector3.sub (vec3 a) (vec3 a)
                 = Vector3.new (Finite 0) (Finite 0) (Finite 0)).
  { unfold Vector3.sub, vec3. cbn [Vector3.x Vector3.y Vector3.z].
    rewrite !Num_sub_same. reflexivity. }
  rewrite Hsub, Vector3_length_zero, Vector3_normalize_zero.
  rewrite (setFromUnitVectors_up_zero EPS HEPS), fl_tenth.
  rewrite Num_lt_Finite_true by (unfold tenth; lra).
  unfold Vector3.multiplyScalar, Vector3.add, vec3.
  cbn [Vector3.x Vector3.y Vector3.z].
  rewrite !center_of_same by assumption. reflexivity.
Qed.

End Geometry.

(** ** Members and their nodes *)

Section Members.

Lemma findNode_None (nodes : list obj) (id : value) :
  findNode nodes id = None <-> matchesNoNode nodes id.
Proof.
  unfold findNode, matchesNoNode. induction nodes as [| n nodes IH]; simpl.
  - split; [constructor | reflexivity].
  - destruct (strictEq (get n "Node") id) eqn:E.
    + split; [discriminate |]. intros H. apply Forall_cons in H as [H _].
      congruence.
    + rewrite IH. split.
      * intros H. constructor; assumption.
      * intros H. apply Forall_cons in H as [_ H]. exact H.
Qed.

Lemma App_cylinderOf_None (nodes : list obj) (i : nat) (m : obj) :
  App.cylinderOf nodes i m = None <-> unresolved "StartNode" "EndNode" nodes m.
Proof.
  unfold App.cylinderOf, unresolved. rewrite <- !findNode_None.
  destruct (findNode nodes (get m "StartNode")),
           (findNode nodes (get m "EndNode"));
    split; try discriminate; try tauto; intros [H | H]; discriminate.
Qed.

Lemma App_cylinderOf_key (nodes : list obj) (i : nat) (m : obj)
  (props : App.CylinderProps) :
  App.cylinderOf nodes i m = Some props -> App.key props = i.
Proof.
  unfold App.cylinderOf.
  destruct (findNode nodes (get m "StartNode")),
           (findNode nodes (get m "EndNode")); intros [= <-]; reflexivity.
Qed.

(** The elements of [cylinders] in [App.js] are the cylinders of the
    members, each under the index of its member. *)
Lemma App_cylinders_elem (members nodes : list obj)
  (props : App.CylinderProps) :
  props ∈ App.cylinders members nodes <->
  exists i m, members !! i = Some m /\ App.cylinderOf nodes i m = Some props.
Proof.
  unfold App.cylinders.
  destruct members as [| m0 members].
  { simpl. split; [intros H; inversion H | intros (i & m & H & _)].
    rewrite lookup_nil in H. discriminate. }
  destruct nodes as [| n0 nodes].
  { simpl. split; [intros H; inversion H | intros (i & m & _ & H)].
    unfold App.cylinderOf, findNode in H. simpl in H. discriminate. }
  cbn [List.length Nat.eqb orb].
  rewrite list_elem_of_omap. split.
  - intros (o & Ho & ->). apply elem_of_lookup_imap in Ho
      as (i & m & Heq & Hm). eauto.
  - intros (i & m & Hm & Hc). exists (Some props). split; [| reflexivity].
    apply elem_of_lookup_imap. exists i, m. split; [congruence | exact Hm].
Qed.

End Members.

Section CylinderList.
Local Open Scope R_scope.

Lemma nodePosition_nodeRow (id : string) (x y z : R) :
  ThreeDModel.nodePosition (nodeRow id x y z) = fin3 (x, y, z).
Proof.
  unfold ThreeDModel.nodePosition.
  change (parseFloat (get (nodeRow id x y z) "X")) with (Finite x).
  change (parseFloat (get (nodeRow id x y z) "Y")) with (Finite y).
  change (parseFloat (get (nodeRow id x y z) "Z")) with (Finite z).
  rewrite !Num_or_Finite_zero. reflexivity.
Qed.

Lemma ThreeDModel_cylinders_lookup (numberToString : num -> string)
  (members nodes : list obj) (i : nat) (m : obj) :
  members !! i = Some m ->
  ThreeDModel.cylinders numberToString members nodes !! i =
  Some
    match findNode nodes (get m "Start Node"),
          findNode nodes (get m "End Node") with
    | Some startNode, Some endNode =>
        Some (ThreeDModel.mkCylinderProps i
                (ThreeDModel.nodePosition startNode)
                (ThreeDModel.nodePosition endNode)
                (bool_decide
                   (ThreeDModel.findEndpoints numberToString members
                      !! ToString numberToString (get m "EndNode") = Some 1%nat)))
    | _, _ => None
    end.
Proof.
  intros Hm. unfold ThreeDModel.cylinders.
  rewrite list_lookup_imap, Hm. reflexivity.
Qed.

(** C7.  A member with a start or end identifier that matches no node gets
    no element in the cylinder list of [App.js] and the entry [null] in the
    list of the stand-alone component; any other member has its element,
    under its own index, whatever the other members are. *)
Theorem cylinders_skip_unresolved (numberToString : num -> string)
  (members nodes : list obj) (i : nat) (m : obj) :
  members !! i = Some m ->
  (unresolved "StartNode" "EndNode" nodes m ->
   forall props, props ∈ App.cylinders members nodes -> App.key props <> i) /\
  (~ unresolved "StartNode" "EndNode" nodes m ->
   exists props,
     props ∈ App.cylinders members nodes /\ App.key props = i /\
     App.cylinderOf nodes i m = Some props) /\
  (unresolved "Start Node" "End Node" nodes m ->
   ThreeDModel.cylinders numberToString members nodes !! i = Some None) /\
  (~ unresolved "Start Node" "End Node" nodes m ->
   exists props,
     ThreeDModel.cylinders numberToString members nodes !! i
       = Some (Some props) /\
     ThreeDModel.key props = i).
Proof.
  intros Hm. split_and!.
  - intros Hun props Hin Hkey.
    apply App_cylinders_elem in Hin as (j & m' & Hj & Hc).
    pose proof (App_cylinderOf_key _ _ _ _ Hc) as Hk.
    assert (j = i) as -> by congruence.
    assert (m' = m) as -> by congruence.
    apply (App_cylinderOf_None nodes i m) in Hun. congruence.
  - intros Hres. destruct (App.cylinderOf nodes i m) as [props |] eqn:Hc.
    + exists props. split_and!.
      * apply App_cylinders_elem. eauto.
      * eapply App_cylinderOf_key, Hc.
      * reflexivity.
    + exfalso. apply Hres. apply (App_cylinderOf_None nodes i m). exact Hc.
  - intros [Hun | Hun]; apply findNode_None in Hun;
      rewrite (ThreeDModel_cylinders_lookup _ _ _ _ _ Hm), Hun.
    + reflexivity.
    + destruct (findNode nodes (get m "Start Node")); reflexivity.
  - intros Hres. rewrite (ThreeDModel_cylinders_lookup _ _ _ _ _ Hm).
    destruct (findNode nodes (get m "Start Node")) eqn:Hs.
    + destruct (findNode nodes (get m "End Node")) eqn:He.
      * eexists. split; reflexivity.
      * exfalso. apply Hres. right. apply findNode_None, He.
    + exfalso. apply Hres. left. apply findNode_None, Hs.
Qed.

(** Of three members over the nodes 1, 2 and 3, the second one ends at a
    node 9 that does not exist: no cylinder has its index. *)
Lemma cylinders_skip_unresolved_example :
  let nodes := [nodeRow "1" 0 0 0; nodeRow "2" 0 5 0; nodeRow "3" 4 5 0] in
  let members := [memberOf "1" "2"; memberOf "2" "9"; memberOf "2" "3"] in
  members !! 1%nat = Some (memberOf "2" "9") /\
  unresolved "StartNode" "EndNode" nodes (memberOf "2" "9") /\
  forall props, props ∈ App.cylinders members nodes -> App.key props <> 1%nat.
Proof.
  intros nodes members.
  assert (Hm : members !! 1%nat = Some (memberOf "2" "9")) by reflexivity.
  assert (Hun : unresolved "StartNode" "EndNode" nodes (memberOf "2" "9"))
    by (right; repeat constructor).
  split; [exact Hm |]. split; [exact Hun |].
  exact (proj1 (cylinders_skip_unresolved (fun _ => ""%string) members nodes
                  1%nat _ Hm) Hun).
Defined.

Lemma centerOfSame_0 : centerOfSame 0 = Finite 0.
Proof.
  unfold centerOfSame. rewrite decide_True; [reflexivity |].
  rewrite Rabs_R0. apply pow2_pos.
Qed.

(** C2, as the code has it.  A member whose two nodes are at one and the
    same point, with doubles for coordinates, keeps its element in the
    cylinder list, and [Cylinder] renders it: the length is 0 and the
    orientation the identity; the center is the point, except that a
    coordinate of 2^1023 or more in absolute value, whose sum with itself
    overflows, gives an infinite one.  [App.js] calls [console.warn];
    neither component skips the member. *)
Theorem Cylinder_coincident_points (EPS : R) (a : R * R * R)
  (members nodes : list obj) (i : nat) (m startNode endNode : obj) :
  EPS <= 1 ->
  members !! i = Some m ->
  findNode nodes (get m "StartNode") = Some startNode ->
  findNode nodes (get m "EndNode") = Some endNode ->
  positioned startNode a ->
  positioned endNode a ->
  isDouble (xOf a) -> isDouble (yOf a) -> isDouble (zOf a) ->
  App.mkCylinderProps i (fin3 a) (fin3 a) ∈ App.cylinders members nodes /\
  App.Cylinder_mesh (Finite EPS) (fin3 a) (fin3 a) =
    (true,
     Some (App.mkMesh
             (Vector3.new (centerOfSame (xOf a)) (centerOfSame (yOf a))
                          (centerOfSame (zOf a)))
             Quaternion.identity (Finite 0))) /\
  App.Cylinder (Finite EPS) (fin3 a) (fin3 a) =
    Some (App.mkCylinderElement
            (centerOfSame (xOf a), centerOfSame (yOf a), centerOfSame (zOf a))
            Quaternion.identity (Finite 0)) /\
  forall isEndpoint,
    ThreeDModel.Cylinder (Finite EPS) (fin3 a) (fin3 a) isEndpoint =
    ThreeDModel.mkCylinderElement
      (ThreeDModel.mkMesh
         (centerOfSame (xOf a), centerOfSame (yOf a), centerOfSame (zOf a))
         (Quaternion.toArray Quaternion.identity) (Finite 0))
      (if isEndpoint then Some (fin3 a) else None).
Proof.
  intros HEPS Hm Hs He (Hsx & Hsy & Hsz) (Hex & Hey & Hez) Hx Hy Hz.
  pose proof (App_Cylinder_mesh_coincident EPS a HEPS Hx Hy Hz) as Hmesh.
  split_and!.
  - apply App_cylinders_elem. exists i, m. split; [exact Hm |].
    unfold App.cylinderOf. rewrite Hs, He, Hsx, Hsy, Hsz, Hex, Hey, Hez.
    reflexivity.
  - exact Hmesh.
  - unfold App.Cylinder. rewrite Hmesh. reflexivity.
  - intros isEndpoint. unfold ThreeDModel.Cylinder.
    destruct (ThreeDModel_Cylinder_mesh_App (Finite EPS) (fin3 a) (fin3 a))
      as (warned & mesh & HA & HT).
    rewrite Hmesh in HA. injection HA as _ <-. rewrite HT. reflexivity.
Qed.

(** One member between two nodes that are both at the origin. *)
Lemma Cylinder_coincident_points_example :
  let nodes := [nodeRow "1" 0 0 0; nodeRow "2" 0 0 0] in
  let members := [memberOf "1" "2"] in
  / 2 ^ 52 <= 1 /\
  isDouble 0 /\
  App.mkCylinderProps 0 (fin3 (0, 0, 0)) (fin3 (0, 0, 0))
    ∈ App.cylinders members nodes /\
  App.Cylinder Num.EPSILON (fin3 (0, 0, 0)) (fin3 (0, 0, 0)) =
    Some (App.mkCylinderElement (fin3 (0, 0, 0)) Quaternion.identity
                                (Finite 0)).
Proof.
  intros nodes members.
  assert (HEPS : / 2 ^ 52 <= 1) by (destruct EPSILON_bounds; lra).
  destruct (Cylinder_coincident_points (/ 2 ^ 52) (0, 0, 0) members nodes 0
              (memberOf "1" "2") (nodeRow "1" 0 0 0) (nodeRow "2" 0 0 0) HEPS)
    as (Hin & _ & Hcyl & _);
    try reflexivity; try (repeat split; reflexivity);
    try apply isDouble_0.
  rewrite xOf_triple, yOf_triple, zOf_triple, centerOfSame_0 in Hcyl.
  split_and!; try assumption. apply isDouble_0.
Defined.

(** C2 fails as stated: the member between two nodes at the origin is in
    the cylinder list of both components, and [Cylinder] renders it rather
    than returning [null]. *)
Lemma coincident_member_rendered :
  let nodes := [nodeRow "1" 0 0 0; nodeRow "2" 0 0 0] in
  App.cylinders [memberOf "1" "2"] nodes =
    [App.mkCylinderProps 0 (fin3 (0, 0, 0)) (fin3 (0, 0, 0))] /\
  App.Cylinder Num.EPSILON (fin3 (0, 0, 0)) (fin3 (0, 0, 0)) =
    Some (App.mkCylinderElement (fin3 (0, 0, 0)) Quaternion.identity
                                (Finite 0)) /\
  forall numberToString,
    ThreeDModel.cylinders numberToString [memberRow "1" "2"] nodes =
    [Some (ThreeDModel.mkCylinderProps 0 (fin3 (0, 0, 0)) (fin3 (0, 0, 0))
                                       false)].
Proof.
  intros nodes. split_and!.
  - reflexivity.
  - unfold App.Cylinder, Num.EPSILON.
    rewrite App_Cylinder_mesh_coincident
      by (first [destruct EPSILON_bounds; lra | apply isDouble_0]).
    rewrite xOf_triple, yOf_triple, zOf_triple, centerOfSame_0. reflexivity.
  - intros numberToString. unfold ThreeDModel.cylinders, nodes.
    cbn [imap].
    change (findNode _ (get (memberRow "1" "2") "Start Node"))
      with (Some (nodeRow "1" 0 0 0)).
    change (findNode _ (get (memberRow "1" "2") "End Node"))
      with (Some (nodeRow "2" 0 0 0)).
    cbv beta iota. rewrite !nodePosition_nodeRow.
    assert (He : bool_decide
                   (ThreeDModel.findEndpoints numberToString
                      [memberRow "1" "2"]
                      !! ToString numberToString
                           (get (memberRow "1" "2") "EndNode") = Some 1%nat)
                 = false) by (vm_compute; reflexivity).
    rewrite He. reflexivity.
Qed.

End CylinderList.

(** ** Marker cubes *)

Section Cubes.

Lemma setAdd_elem {A : Type} `{EqDecision A} (set : list A) (x y : A) :
  y ∈ setAdd set x <-> y ∈ set \/ y = x.
Proof.
  unfold setAdd. destruct (decide (x ∈ set)) as [Hin | Hin].
  - split; [auto | intros [H | ->]; assumption].
  - rewrite elem_of_app, list_elem_of_singleton. reflexivity.
Qed.

Lemma setAdd_NoDup {A : Type} `{EqDecision A} (set : list A) (x : A) :
  NoDup set -> NoDup (setAdd set x).
Proof.
  intros Hnd. unfold setAdd. destruct (decide (x ∈ set)) as [Hin | Hin].
  - exact Hnd.
  - apply NoDup_app. split_and!; [exact Hnd | | apply NoDup_singleton].
    intros y Hy Hy'. apply list_elem_of_singleton in Hy'. congruence.
Qed.

Lemma cubesStep_elem (members nodes : list obj)
  (acc : list (value * value * value)) (i : nat) (p : value * value * value) :
  p ∈ cubesStep members nodes acc i <-> p ∈ acc \/ markedAt members nodes i p.
Proof.
  unfold cubesStep, markedAt. destruct (members !! i) as [m |].
  - destruct (findNode nodes (get m "StartNode")) as [s |] eqn:Hs,
             (findNode nodes (get m "EndNode")) as [e |] eqn:He;
      rewrite ?setAdd_elem; split;
      try (intros [H | (m' & n & [= <-] & Hn & <-)]; [auto |];
           rewrite Hs, He in Hn; destruct Hn as [Hn | Hn];
           try discriminate Hn; injection Hn as <-; auto).
    + intros [[H | ->] | ->]; [left; exact H | right | right];
        exists m; eauto.
    + intros [H | ->]; [left; exact H | right]. exists m; eauto.
    + intros [H | ->]; [left; exact H | right]. exists m; eauto.
    + intros H. left; exact H.
  - split; [intros H; left; exact H |].
    intros [H | (m' & n & Hm & _)]; [exact H | discriminate Hm].
Qed.

Lemma cubesStep_NoDup (members nodes : list obj)
  (acc : list (value * value * value)) (i : nat) :
  NoDup acc -> NoDup (cubesStep members nodes acc i).
Proof.
  intros Hnd. unfold cubesStep. destruct (members !! i) as [m |]; [| exact Hnd].
  destruct (findNode nodes (get m "StartNode")),
           (findNode nodes (get m "EndNode"));
    repeat apply setAdd_NoDup; exact Hnd.
Qed.

Lemma cubes_fold_elem (members nodes : list obj) (indices : list nat)
  (acc : list (value * value * value)) (p : value * value * value) :
  p ∈ fold_left (cubesStep members nodes) indices acc <->
  p ∈ acc \/ exists i, i ∈ indices /\ markedAt members nodes i p.
Proof.
  revert acc. induction indices as [| i indices IH]; intros acc.
  - simpl. split; [auto |]. intros [H | (i & Hi & _)]; [exact H |].
    inversion Hi.
  - cbn [fold_left]. rewrite IH, cubesStep_elem. split.
    + intros [[H | H] | (j & Hj & H)]; [auto | right | right].
      * exists i. split; [left | exact H].
      * exists j. split; [right; exact Hj | exact H].
    + intros [H | (j & Hj & H)]; [auto |].
      apply elem_of_cons in Hj as [-> | Hj]; [auto |]. right. eauto.
Qed.

Lemma cubes_fold_NoDup (members nodes : list obj) (indices : list nat)
  (acc : list (value * value * value)) :
  NoDup acc -> NoDup (fold_left (cubesStep members nodes) indices acc).
Proof.
  revert acc. induction indices as [| i indices IH]; intros acc Hnd.
  - exact Hnd.
  - cbn [fold_left]. apply IH, cubesStep_NoDup, Hnd.
Qed.

Lemma cubes_fold_agree (members members' nodes : list obj)
  (indices : list nat) (acc : list (value * value * value)) :
  (forall i, i ∈ indices -> members' !! i = members !! i) ->
  fold_left (cubesStep members' nodes) indices acc =
  fold_left (cubesStep members nodes) indices acc.
Proof.
  revert acc. induction indices as [| i indices IH]; intros acc Hag.
  - reflexivity.
  - cbn [fold_left].
    assert (Hstep : cubesStep members' nodes acc i
                    = cubesStep members nodes acc i)
      by (unfold cubesStep; rewrite Hag by left; reflexivity).
    rewrite Hstep. apply IH. intros j Hj. apply Hag. right. exact Hj.
Qed.

Lemma App_cubes_fold (members nodes : list obj) :
  App.cubes members nodes =
  if ((List.length members =? 0) || (List.length nodes =? 0))%bool then []
  else fold_left (cubesStep members nodes) App.specialMembers [].
Proof. reflexivity. Qed.

(** C10.  The cubes of [App.js] are, without repetition, the positions of
    the nodes found for the start and for the end of the members at the
    indices 0, 11 and 4, an index past the end of the list giving nothing;
    no other member and no count of connections has a part in them: two
    member lists that agree at these three indices give the same cubes. *)
Theorem cubes_at_special_members (members nodes : list obj) :
  NoDup (App.cubes members nodes) /\
  (forall p,
     p ∈ App.cubes members nodes <->
     exists i, i ∈ [0; 11; 4] /\ markedAt members nodes i p) /\
  (forall members',
     (forall i, i ∈ [0; 11; 4] -> members' !! i = members !! i) ->
     App.cubes members' nodes = App.cubes members nodes).
Proof.
  rewrite App_cubes_fold. split_and!.
  - destruct (_ || _)%bool; [apply NoDup_nil_2 |].
    apply cubes_fold_NoDup, NoDup_nil_2.
  - intros p. destruct members as [| m0 members].
    { simpl. split; [intros H; inversion H |].
      intros (i & _ & m & n & H & _). rewrite lookup_nil in H. discriminate. }
    destruct nodes as [| n0 nodes].
    { simpl. split; [intros H; inversion H |].
      intros (i & _ & m & n & _ & [H | H] & _); discriminate. }
    cbn [List.length Nat.eqb orb]. rewrite cubes_fold_elem.
    unfold App.specialMembers. split; [| auto].
    intros [H | H]; [inversion H | exact H].
  - intros members' Hag. rewrite App_cubes_fold.
    assert (Hlen : (List.length members' =? 0) = (List.length members =? 0)).
    { specialize (Hag 0 ltac:(left)).
      destruct members', members; simpl in *; congruence. }
    rewrite Hlen. destruct (_ || _)%bool; [reflexivity |].
    apply cubes_fold_agree. exact Hag.
Qed.

(** Two members in a chain 1 - 2 - 3: the cube positions come from the
    first member alone.  Node 2, where two members meet, has a cube; node 3,
    an end of the chain, has none. *)
Lemma cubes_at_special_members_example :
  let node1 := nodeRow "1" 0 0 0 in
  let node2 := nodeRow "2" 0 5 0 in
  let node3 := nodeRow "3" 4 5 0 in
  let members := [memberOf "1" "2"; memberOf "2" "3"] in
  App.cubePosition node2 ∈ App.cubes members [node1; node2; node3] /\
  App.cubePosition node3 ∉ App.cubes members [node1; node2; node3].
Proof.
  intros node1 node2 node3 members.
  destruct (cubes_at_special_members members [node1; node2; node3])
    as (_ & Hcubes & _).
  split.
  - apply Hcubes. exists 0. split; [left |].
    exists (memberOf "1" "2"), node2. split_and!; [| right |]; reflexivity.
  - intros Hin. apply Hcubes in Hin as (i & Hi & m & n & Hm & Hn & Hp).
    repeat (apply elem_of_cons in Hi as [-> | Hi]; [try discriminate Hm |]);
      [| inversion Hi].
    injection Hm as <-.
    change (findNode [node1; node2; node3] (get (memberOf "1" "2") "StartNode"))
      with (Some node1) in Hn.
    change (findNode [node1; node2; node3] (get (memberOf "1" "2") "EndNode"))
      with (Some node2) in Hn.
    destruct Hn as [[= <-] | [= <-]];
      apply (f_equal (fun p => p.1.1)) in Hp;
      change (VNum (Finite 0) = VNum (Finite 4)) in Hp;
      injection Hp as Hx; lra.
Defined.

End Cubes.

(** ** Connection counts *)

Section Endpoints.

Lemma findEndpoints_fold (numberToString : num -> string)
  (members : list obj) :
  ThreeDModel.findEndpoints numberToString members =
  fold_left (countStep numberToString members) members ∅.
Proof. reflexivity. Qed.

(** On rows of the sheet every round leaves the one key "undefined" with
    the count 2. *)
Lemma countStep_sheet_row (numberToString : num -> string)
  (members : list obj) (acc : gmap string nat) (member : obj) :
  acc = ∅ \/ acc = {[ "undefined"%string := 2 ]} ->
  isSheetRow numberToString member ->
  countStep numberToString members acc member = {[ "undefined"%string := 2 ]}.
Proof.
  intros Hacc (Hs & He & Hkey). unfold countStep, ThreeDModel.members_End_Node.
  rewrite Hs, He. cbn [ToString].
  assert (Hnone : acc !! ToString numberToString (get member "Start Node")
                  = None).
  { destruct Hacc as [-> | ->].
    - apply lookup_empty.
    - apply lookup_singleton_ne. congruence. }
  rewrite Hnone, lookup_insert_eq, insert_insert_eq. cbn [default].
  destruct Hacc as [-> | ->].
  - apply insert_empty.
  - apply insert_singleton_eq.
Qed.

(** Whatever the members are, on rows of the sheet the connection map is
    the single entry "undefined" with count 2. *)
Lemma findEndpoints_sheet_rows (numberToString : num -> string)
  (members : list obj) :
  members <> [] ->
  Forall (isSheetRow numberToString) members ->
  ThreeDModel.findEndpoints numberToString members
  = {[ "undefined"%string := 2 ]}.
Proof.
  intros Hne Hrows. rewrite findEndpoints_fold.
  generalize members at 1. intros all.
  assert (Hgen : forall acc,
            acc = ∅ \/ acc = {[ "undefined"%string := 2 ]} ->
            fold_left (countStep numberToString all) members acc
            = match members with
              | [] => acc
              | _ => {[ "undefined"%string := 2 ]}
              end).
  { clear Hne. induction Hrows as [| m members Hm _ IH]; intros acc Hacc.
    - reflexivity.
    - cbn [fold_left].
      rewrite (countStep_sheet_row _ all _ _ Hacc Hm), IH by (right; reflexivity).
      destruct members; reflexivity. }
  rewrite Hgen by (left; reflexivity).
  destruct members; [congruence | reflexivity].
Qed.

(** On processed members every count that is written is 1. *)
Lemma findEndpoints_processed (numberToString : num -> string)
  (members : list obj) (k : string) (count : nat) :
  Forall (isProcessedMember numberToString) members ->
  ThreeDModel.findEndpoints numberToString members !! k = Some count ->
  count = 1.
Proof.
  intros Hmembers. rewrite findEndpoints_fold.
  generalize members at 1. intros all.
  assert (Hgen : forall acc : gmap string nat,
            acc !! "undefined"%string = None ->
            (forall k v, acc !! k = Some v -> v = 1) ->
            forall k v,
              fold_left (countStep numberToString all) members acc !! k
                = Some v -> v = 1).
  { induction Hmembers as [| m members (Hraw & Hs & He) _ IH];
      intros acc Hundef Hall.
    - exact Hall.
    - cbn [fold_left]. apply IH.
      + unfold countStep, ThreeDModel.members_End_Node. rewrite Hraw.
        cbn [ToString]. rewrite !lookup_insert_ne by exact He || exact Hs.
        exact Hundef.
      + intros k' v. unfold countStep, ThreeDModel.members_End_Node.
        rewrite Hraw. cbn [ToString].
        rewrite (lookup_insert_ne _ _ _ _ Hs), Hundef. cbn [default].
        rewrite !lookup_insert. repeat case_decide; intros Hv;
          first [injection Hv as <-; reflexivity | eapply Hall; exact Hv]. }
  apply Hgen; [apply lookup_empty |]. intros k' v H.
  rewrite lookup_empty in H. discriminate.
Qed.

(** C3, evaluated on a chain of three nodes 1 - 2 - 3.  On the rows of the
    sheet, the only key of the connection map is "undefined", with count 2:
    none of the nodes has a count, and no member is marked as ending at an
    endpoint.  On members as [App.js] processes them every node gets the
    count 1, the interior node 2 as well. *)
Theorem findEndpoints_chain_counts (numberToString : num -> string) :
  let nodes := [nodeRow "1" 0 0 0; nodeRow "2" 0 5 0; nodeRow "3" 4 5 0] in
  let rows := [memberRow "1" "2"; memberRow "2" "3"] in
  let processed := [memberOf "1" "2"; memberOf "2" "3"] in
  map_to_list (ThreeDModel.findEndpoints numberToString rows)
    = [("undefined"%string, 2)] /\
  ThreeDModel.isEndpoint
    <$> omap (fun element => element)
             (ThreeDModel.cylinders numberToString rows nodes)
    = [false; false] /\
  ThreeDModel.findEndpoints numberToString processed !! "1" = Some 1 /\
  ThreeDModel.findEndpoints numberToString processed !! "2" = Some 1 /\
  ThreeDModel.findEndpoints numberToString processed !! "3" = Some 1.
Proof.
  intros nodes rows processed. split_and!; vm_compute; reflexivity.
Qed.

(** C4, evaluated on two members.  The counts sum to 2 on the rows of the
    sheet and to 3 on processed members, not to 4. *)
Theorem findEndpoints_total_count (numberToString : num -> string) :
  ThreeDModel.totalCount
    (ThreeDModel.findEndpoints numberToString
       [memberRow "1" "2"; memberRow "2" "3"]) = 2 /\
  ThreeDModel.totalCount
    (ThreeDModel.findEndpoints numberToString
       [memberOf "1" "2"; memberOf "2" "3"]) = 3.
Proof. split; vm_compute; reflexivity. Qed.

End Endpoints.

(** ** Upload *)

Section Upload.

(** The handler clears the dataset and sets the message exactly when the
    [try] block throws, and replaces the dataset otherwise; the state
    before has no part in the state after. *)
Lemma onload_outcome (numberToString : num -> string) (st : App.State)
  (read : App.ReadResult) :
  match App.tryProcess numberToString read with
  | inl message =>
      App.onload numberToString st read =
      App.mkState [] [] (Some (String.append "Error processing file: " message))
  | inr (processedMembers, processedNodes) =>
      App.onload numberToString st read =
      App.mkState processedMembers processedNodes None
  end.
Proof.
  unfold App.onload. destruct (App.tryProcess numberToString read) as [| []];
    reflexivity.
Qed.

(** The [try] block throws when the decoder throws and when the first or
    the second sheet gives no rows, and only then. *)
Lemma tryProcess_throws (numberToString : num -> string)
  (read : App.ReadResult) :
  (exists message, App.tryProcess numberToString read = inl message) <->
  match read with
  | App.ReadThrows _ => True
  | App.ReadOk workbook =>
      App.sheetRows workbook 0 = [] \/ App.sheetRows workbook 1 = []
  end.
Proof.
  destruct read as [message | workbook]; simpl.
  - split; [trivial | eauto].
  - destruct (App.sheetRows workbook 0) as [| r0 rows0];
      destruct (App.sheetRows workbook 1) as [| r1 rows1]; simpl;
      (split; [intros [message H] | intros [H | H]]);
      try discriminate H; eauto.
Qed.

(** A sheet index past the end of [SheetNames] gives no rows, unless a
    sheet is named "undefined". *)
Lemma sheetRows_past_end (workbook : App.WorkBook) (i : nat) :
  List.length (App.SheetNames workbook) <= i ->
  App.Sheets workbook !! "undefined" = None ->
  App.sheetRows workbook i = [].
Proof.
  intros Hlen Hnone. unfold App.sheetRows.
  rewrite (lookup_ge_None_2 _ _ Hlen). simpl. rewrite Hnone. reflexivity.
Qed.

(** C8, evaluated on a workbook whose only sheet is named "undefined": the
    sheet is read as the first and as the second sheet, and the upload
    succeeds. *)
Theorem onload_single_sheet_named_undefined (numberToString : num -> string)
  (st : App.State) :
  let rows := [memberRow "1" "2"] in
  let workbook := App.mkWorkBook ["undefined"] {[ "undefined" := rows ]} in
  List.length (App.SheetNames workbook) = 1 /\
  App.onload numberToString st (App.ReadOk workbook) =
  App.mkState (map (App.processMember numberToString) rows)
              (map (App.processNode numberToString) rows) None.
Proof. split; reflexivity. Qed.

End Upload.

(** ** Reading coordinates *)

Section Coordinates.

Lemma readDigits_count (s : string) (acc : N) (count : nat) :
  count <= (readDigits s acc count).1.2.
Proof.
  revert acc count. induction s as [| c s IH]; intros acc count; simpl.
  - lia.
  - destruct (isDigit c); simpl; [| lia].
    specialize (IH (10 * acc + digitValue c)%N (S count)). lia.
Qed.

Lemma readDigits_no_digit (s : string) (acc : N) (count : nat) :
  startsDigit s = false -> readDigits s acc count = (acc, count, s).
Proof.
  destruct s as [| c s]; simpl; [reflexivity |]. intros ->. reflexivity.
Qed.

(** What a digit is not. *)
Lemma digit_facts (c : ascii) :
  isDigit c = true ->
  Ascii.eqb c "+" = false /\ Ascii.eqb c "-" = false /\
  Ascii.eqb c "." = false /\ Ascii.eqb c "e" = false /\
  Ascii.eqb c "E" = false /\ Ascii.eqb c "I" = false /\
  isWhiteSpace c = false /\ nat_of_ascii c < 128.
Proof.
  intros H. destruct c as [[] [] [] [] [] [] [] []];
    first [vm_compute in H; discriminate H
          | split_and!; first [reflexivity | vm_compute; lia]].
Qed.

Lemma isDigit_not_Infinity (c : ascii) (s : string) :
  isDigit c = true -> String.prefix "Infinity" (String c s) = false.
Proof.
  intros H. destruct (digit_facts c H) as (_ & _ & _ & _ & _ & HI & _).
  cbn [String.prefix]. destruct (ascii_dec "I" c) as [<- | Hne].
  - discriminate HI.
  - reflexivity.
Qed.

(** [readUnsigned] gives NaN exactly on text that cannot start a number. *)
Lemma readUnsigned_NaN (negative : bool) (s : string) :
  readUnsigned negative s = LitNaN <->
  (String.prefix "Infinity" s
   || match s with
      | String c rest =>
          isDigit c
          || (Ascii.eqb c "."
              && match rest with
                 | String d _ => isDigit d
                 | EmptyString => false
                 end)
      | EmptyString => false
      end)%bool = false.
Proof.
  unfold readUnsigned. destruct (String.prefix "Infinity" s) eqn:Hinf.
  { simpl. split; discriminate. }
  rewrite orb_false_l. destruct s as [| c s].
  { simpl. split; reflexivity. }
  destruct (isDigit c) eqn:Hc.
  - simpl. split; [| discriminate]. cbn [readDigits]. rewrite Hc.
    pose proof (readDigits_count s (10 * 0 + digitValue c)%N 1) as Hcount.
    destruct (readDigits s (10 * 0 + digitValue c)%N 1)
      as [[int intCount] afterInt]. simpl in Hcount.
    assert (Hz : (intCount =? 0) = false) by (apply Nat.eqb_neq; lia).
    rewrite Hz. destruct (readPoint afterInt) as [afterDot |].
    + destruct (readDigits afterDot int 0) as [[m fc] r]. simpl. discriminate.
    + discriminate.
  - rewrite orb_false_l. cbn [readDigits]. rewrite Hc.
    cbn [readPoint]. destruct (Ascii.eqb c ".") eqn:Hdot.
    + rewrite andb_true_l. destruct s as [| d s].
      * simpl. split; reflexivity.
      * cbn [readDigits]. destruct (isDigit d) eqn:Hd.
        -- pose proof (readDigits_count s (10 * 0 + digitValue d)%N 1)
             as Hcount.
           destruct (readDigits s (10 * 0 + digitValue d)%N 1)
             as [[m fc] r]. simpl in Hcount.
           assert (Hz : (fc =? 0) = false) by (apply Nat.eqb_neq; lia).
           rewrite Hz. simpl. split; discriminate.
        -- simpl. split; reflexivity.
    + rewrite andb_false_l. split; reflexivity.
Qed.

(** [readLiteral] gives NaN exactly on text that cannot start a number. *)
Lemma readLiteral_NaN (s : string) :
  readLiteral s = LitNaN <-> startsNumber s = false.
Proof.
  unfold readLiteral, startsNumber.
  destruct (readSign (trimStart s)) as [negative unsigned].
  apply readUnsigned_NaN.
Qed.

Lemma digitChar_digit (d : nat) :
  d < 10 ->
  isDigit (digitChar d) = true /\ digitValue (digitChar d) = N.of_nat d.
Proof.
  intros H. do 10 (destruct d as [| d]; [split; reflexivity |]). lia.
Qed.

Lemma readDigits_cons (c : ascii) (s : string) (acc : N) (count : nat) :
  readDigits (String c s) acc count =
  if isDigit c then readDigits s (10 * acc + digitValue c)%N (S count)
  else (acc, count, String c s).
Proof. reflexivity. Qed.

Lemma readDigits_digitsText (ds : list nat) (rest : string) (acc : N)
  (count : nat) :
  Forall (fun d => d < 10) ds ->
  startsDigit rest = false ->
  readDigits (String.append (digitsText ds) rest) acc count =
  (fold_left (fun a d => (10 * a + N.of_nat d)%N) ds acc,
   count + List.length ds, rest).
Proof.
  intros Hds Hrest. revert acc count.
  induction Hds as [| d ds Hd _ IH]; intros acc count.
  - simpl. rewrite readDigits_no_digit by exact Hrest.
    rewrite Nat.add_0_r. reflexivity.
  - destruct (digitChar_digit d Hd) as [H1 H2].
    change (String.append (digitsText (d :: ds)) rest)
      with (String (digitChar d) (String.append (digitsText ds) rest)).
    rewrite readDigits_cons, H1, H2, IH. cbn [fold_left List.length].
    replace (S count + List.length ds) with (count + S (List.length ds))
      by lia.
    reflexivity.
Qed.

Lemma string_append_assoc (s t u : string) :
  String.append (String.append s t) u = String.append s (String.append t u).
Proof.
  induction s as [| c s IH]; [reflexivity |].
  change (String c (String.append (String.append s t) u)
          = String c (String.append s (String.append t u))).
  f_equal. exact IH.
Qed.

(** *** White space *)

(** A character of ASCII that is no white space ends the trimming. *)
Lemma trimStart_ascii (c : ascii) (s : string) :
  nat_of_ascii c < 128 ->
  isWhiteSpace c = false ->
  trimStart (String c s) = String c s.
Proof.
  intros Hc Hws. cbn [trimStart]. rewrite Hws.
  destruct s as [| d s]; [reflexivity |].
  assert (H2 : isWhiteSpace2 c d = false).
  { unfold isWhiteSpace2.
    rewrite (proj2 (Nat.eqb_neq (nat_of_ascii c) 194)) by lia. reflexivity. }
  rewrite H2. destruct s as [| e s]; [reflexivity |].
  assert (H3 : isWhiteSpace3 c d e = false).
  { unfold isWhiteSpace3. cbv zeta.
    rewrite (proj2 (Nat.eqb_neq (nat_of_ascii c) 225)) by lia.
    rewrite !(proj2 (Nat.eqb_neq (nat_of_ascii c) 226)) by lia.
    rewrite (proj2 (Nat.eqb_neq (nat_of_ascii c) 227)) by lia.
    rewrite (proj2 (Nat.eqb_neq (nat_of_ascii c) 239)) by lia.
    reflexivity. }
  rewrite H3. reflexivity.
Qed.

(** Every white space character is trimmed. *)
Lemma trimStart_whiteSpace (w s : string) :
  w ∈ whiteSpace -> trimStart (String.append w s) = trimStart s.
Proof.
  intros H. unfold whiteSpace in H. cbn [map] in H.
  repeat (apply elem_of_cons in H as [-> | H]; [reflexivity |]).
  inversion H.
Qed.

Lemma trimStart_padding (pad : list string) (s : string) :
  Forall (fun w => w ∈ whiteSpace) pad ->
  trimStart (String.append (padding pad) s) = trimStart s.
Proof.
  induction 1 as [| w pad Hw _ IH]; [reflexivity |].
  cbn [padding fold_right]. fold (padding pad).
  rewrite string_append_assoc, (trimStart_whiteSpace _ _ Hw). exact IH.
Qed.

(** *** Signs, points and exponents *)

Lemma readSign_signText (s : sign) (rest : string) :
  (s = NoSign ->
   match rest with
   | String c _ => Ascii.eqb c "+" = false /\ Ascii.eqb c "-" = false
   | EmptyString => True
   end) ->
  readSign (String.append (signText s) rest) =
  (match s with MinusSign => true | _ => false end, rest).
Proof.
  intros H. destruct s; [| reflexivity | reflexivity].
  specialize (H eq_refl). destruct rest as [| c rest]; [reflexivity |].
  destruct H as [H1 H2].
  change (String.append (signText NoSign) (String c rest))
    with (String c rest).
  unfold readSign. rewrite H1, H2. reflexivity.
Qed.

Lemma startsDigit_digitsText (ds : list nat) (rest : string) :
  Forall (fun d => d < 10) ds -> ds <> [] ->
  exists c tail,
    String.append (digitsText ds) rest = String c tail /\ isDigit c = true.
Proof.
  intros Hds Hne. destruct ds as [| d ds]; [congruence |].
  apply Forall_cons in Hds as [Hd _].
  exists (digitChar d), (String.append (digitsText ds) rest).
  split; [reflexivity | apply digitChar_digit, Hd].
Qed.

(** With no exponent part at its front, a text has the exponent 0. *)
Lemma readExponent_none (rest : string) :
  startsExponent rest = false -> readExponent rest = 0%Z.
Proof.
  destruct rest as [| c afterLetter]; [reflexivity |].
  cbn [startsExponent readExponent].
  destruct (Ascii.eqb c "e" || Ascii.eqb c "E")%bool; [| reflexivity].
  rewrite andb_true_l. destruct afterLetter as [| d afterSign].
  { reflexivity. }
  cbn [readSign]. intros H. apply orb_false_iff in H as [Hd Hsign].
  destruct (Ascii.eqb d "+") eqn:Hplus.
  - rewrite orb_true_l, andb_true_l in Hsign.
    rewrite readDigits_no_digit by exact Hsign. reflexivity.
  - destruct (Ascii.eqb d "-") eqn:Hminus.
    + rewrite orb_true_r, andb_true_l in Hsign.
      rewrite readDigits_no_digit by exact Hsign. reflexivity.
    + rewrite readDigits_no_digit by exact Hd. reflexivity.
Qed.

(** An exponent part is read as the integer it denotes. *)
Lemma readExponent_part (part : exponentPart) (rest : string) :
  Forall (fun d => d < 10) (exponentDigits part) ->
  exponentDigits part <> [] ->
  startsDigit rest = false ->
  readExponent (String.append (exponentText (Some part)) rest)
  = exponentValue (Some part).
Proof.
  intros Hds Hne Hrest. destruct part as [upper sgn ds].
  cbn [exponentDigits] in Hds, Hne.
  cbn [exponentText upperCase exponentSign exponentDigits].
  change (String.append (String ?c ?t) rest)
    with (String c (String.append t rest)).
  cbn [readExponent].
  assert (Hletter : (Ascii.eqb (if upper then "E" else "e") "e"
                     || Ascii.eqb (if upper then "E" else "e") "E")%bool
                    = true) by (destruct upper; reflexivity).
  rewrite Hletter, string_append_assoc, readSign_signText.
  - rewrite (readDigits_digitsText ds rest 0%N 0 Hds Hrest).
    cbn [exponentValue exponentSign exponentDigits]. fold (digitsValue ds).
    assert (Hz : (0 + List.length ds =? 0) = false).
    { apply Nat.eqb_neq. destruct ds; [congruence | simpl; lia]. }
    rewrite Hz. destruct sgn; reflexivity.
  - intros _.
    destruct (startsDigit_digitsText ds rest Hds Hne) as (c & tail & -> & Hc).
    destruct (digit_facts c Hc) as (H1 & H2 & _). split; assumption.
Qed.

(** *** Numerals *)

(** The digits, the point and the exponent of a numeral are read as the
    literal they denote, whatever follows the numeral. *)
Lemma readUnsigned_numeral (negative : bool) (n : numeral) (rest : string) :
  wellFormed n ->
  endsNumeral n rest = true ->
  readUnsigned negative
    (String.append (digitsText (integerDigits n))
       (String.append
          (if hasPoint n then String "." (digitsText (fractionDigits n))
           else "")
          (String.append (exponentText (exponent n)) rest)))
  = LitDecimal negative
      (digitsValue (integerDigits n ++ fractionDigits n))
      (exponentValue (exponent n)
       - Z.of_nat (List.length (fractionDigits n))).
Proof.
  intros (Hint & Hfrac & Hne & Hpoint & Hexp) Hend.
  destruct n as [sgn int point frac exp].
  cbn [integerDigits fractionDigits hasPoint exponent] in *.
  unfold endsNumeral in Hend. cbn [hasPoint exponent] in Hend.
  apply andb_true_iff in Hend as [Hend Hend3].
  apply andb_true_iff in Hend as [Hend1 Hend2].
  apply negb_true_iff in Hend1.
  set (tail2 := String.append (exponentText exp) rest).
  (* what follows the digits of the fraction *)
  assert (Htail2 : startsDigit tail2 = false).
  { unfold tail2. destruct exp as [part |]; [| exact Hend1].
    destruct part as [upper s ds]. destruct upper; reflexivity. }
  assert (Hexponent : readExponent tail2 = exponentValue exp).
  { unfold tail2. destruct exp as [part |].
    - destruct Hexp as [Hds Hnil]. apply readExponent_part; assumption.
    - apply readExponent_none. apply negb_true_iff. exact Hend2. }
  assert (Hnotpoint : point = false -> readPoint tail2 = None).
  { intros ->. unfold tail2. destruct exp as [part |].
    - destruct part as [upper s ds]. destruct upper; reflexivity.
    - rewrite orb_false_l in Hend3. apply negb_true_iff in Hend3.
      destruct rest as [| c rest]; [reflexivity |].
      change (startsPoint (String c rest)) with (Ascii.eqb c ".") in Hend3.
      change (readPoint (String.append (exponentText None) (String c rest)))
        with (if Ascii.eqb c "." then Some rest else None).
      rewrite Hend3. reflexivity. }
  set (tail1 := String.append (if point then String "." (digitsText frac)
                               else "") tail2).
  assert (Htail1 : startsDigit tail1 = false).
  { unfold tail1. destruct point; [reflexivity | exact Htail2]. }
  assert (Hinf : String.prefix "Infinity"
                   (String.append (digitsText int) tail1) = false).
  { destruct int as [| d int].
    - destruct point.
      + reflexivity.
      + rewrite (Hpoint eq_refl) in Hne. simpl in Hne. congruence.
    - apply Forall_cons in Hint as [Hd _].
      apply isDigit_not_Infinity. apply digitChar_digit, Hd. }
  unfold readUnsigned. rewrite Hinf.
  rewrite (readDigits_digitsText int tail1 0%N 0 Hint Htail1).
  fold (digitsValue int). unfold tail1 at 1. destruct point.
  - change (String.append (String "." (digitsText frac)) tail2)
      with (String "." (String.append (digitsText frac) tail2)).
    cbn [readPoint Ascii.eqb Bool.eqb].
    rewrite (readDigits_digitsText frac tail2 (digitsValue int) 0
               Hfrac Htail2).
    assert (Hz : ((0 + List.length int =? 0) && (0 + List.length frac =? 0))
                 = false).
    { destruct int; [| reflexivity]. destruct frac; [| reflexivity].
      simpl in Hne. congruence. }
    rewrite Hz, Hexponent. unfold digitsValue. rewrite fold_left_app.
    reflexivity.
  - rewrite (Hpoint eq_refl) in *. rewrite app_nil_r in *.
    unfold tail1. change (String.append "" tail2) with tail2.
    rewrite (Hnotpoint eq_refl).
    assert (Hz : (0 + List.length int =? 0) = false).
    { destruct int; [congruence | reflexivity]. }
    rewrite Hz, Hexponent. cbn [List.length]. f_equal. lia.
Qed.

(** A numeral at the front of a text, after white space, is read as the
    literal it denotes. *)
Lemma readLiteral_numeral (pad : list string) (n : numeral) (rest : string) :
  Forall (fun w => w ∈ whiteSpace) pad ->
  wellFormed n ->
  endsNumeral n rest = true ->
  readLiteral
    (String.append (padding pad) (String.append (numeralText n) rest))
  = LitDecimal
      match numeralSign n with MinusSign => true | _ => false end
      (digitsValue (integerDigits n ++ fractionDigits n))
      (exponentValue (exponent n)
       - Z.of_nat (List.length (fractionDigits n))).
Proof.
  intros Hpad Hwf Hend.
  pose proof (readUnsigned_numeral
                match numeralSign n with MinusSign => true | _ => false end
                n rest Hwf Hend) as Hread.
  destruct Hwf as (Hint & Hfrac & Hne & Hpoint & _).
  unfold readLiteral. rewrite (trimStart_padding _ _ Hpad).
  unfold numeralText. rewrite !string_append_assoc.
  set (unsigned :=
         String.append (digitsText (integerDigits n))
           (String.append
              (if hasPoint n then String "." (digitsText (fractionDigits n))
               else "")
              (String.append (exponentText (exponent n)) rest))) in *.
  (* the first character after the sign: a digit or the point *)
  assert (Hfirst : exists c tail,
            unsigned = String c tail /\ nat_of_ascii c < 128 /\
            isWhiteSpace c = false /\ Ascii.eqb c "+" = false /\
            Ascii.eqb c "-" = false).
  { unfold unsigned. destruct (integerDigits n) as [| d int] eqn:Eint.
    - destruct (hasPoint n) eqn:Epoint.
      + eexists _, _. split; [reflexivity |].
        split_and!; first [reflexivity | vm_compute; lia].
      + rewrite (Hpoint eq_refl) in Hne. simpl in Hne. congruence.
    - apply Forall_cons in Hint as [Hd _].
      destruct (digitChar_digit d Hd) as [Hdigit _].
      destruct (digit_facts _ Hdigit) as (H1 & H2 & _ & _ & _ & _ & H3 & H4).
      eexists _, _. split; [reflexivity |]. split_and!; assumption. }
  destruct Hfirst as (c & tail & Hunsigned & Hc & Hws & Hplus & Hminus).
  assert (Htrim : trimStart (String.append (signText (numeralSign n)) unsigned)
                  = String.append (signText (numeralSign n)) unsigned).
  { destruct (numeralSign n).
    - cbn [signText String.append]. rewrite Hunsigned.
      apply trimStart_ascii; assumption.
    - apply trimStart_ascii; [vm_compute; lia | reflexivity].
    - apply trimStart_ascii; [vm_compute; lia | reflexivity]. }
  rewrite Htrim, readSign_signText.
  - exact Hread.
  - intros _. rewrite Hunsigned. split; assumption.
Qed.

(** "Infinity" at the front of a text, after white space and an optional
    sign. *)
Lemma readLiteral_Infinity (pad : list string) (s : sign) (rest : string) :
  Forall (fun w => w ∈ whiteSpace) pad ->
  readLiteral
    (String.append (padding pad)
       (String.append (signText s) (String.append "Infinity" rest)))
  = LitInfinity match s with MinusSign => true | _ => false end.
Proof.
  intros Hpad. unfold readLiteral. rewrite (trimStart_padding _ _ Hpad).
  assert (Htrim : trimStart (String.append (signText s)
                               (String.append "Infinity" rest))
                  = String.append (signText s)
                      (String.append "Infinity" rest)).
  { destruct s; apply trimStart_ascii;
      first [vm_compute; lia | reflexivity]. }
  rewrite Htrim, readSign_signText.
  - unfold readUnsigned.
    assert (String.prefix "Infinity" (String.append "Infinity" rest) = true)
      as -> by (simpl; destruct rest; reflexivity).
    reflexivity.
  - intros _. split; reflexivity.
Qed.

(** *** The coordinate of a cell *)

Lemma coordinate_NaN (cell : value) :
  parseFloat cell = NaN -> coordinate cell = Finite 0.
Proof. unfold coordinate. intros ->. reflexivity. Qed.

Lemma coordinate_Finite (cell : value) (r : R) :
  parseFloat cell = Finite r -> coordinate cell = Finite r.
Proof. unfold coordinate. intros ->. apply Num_or_Finite_zero. Qed.

Lemma coordinate_not_NaN_cell (cell : value) :
  parseFloat cell <> NaN -> coordinate cell = parseFloat cell.
Proof. apply Num_or_not_NaN. Qed.

(** C9, as the code has it.  [App.js] stores [parseFloat(cell) || 0] in the
    fields X, Y and Z of a processed node, and the stand-alone component
    reads the same off a node.  That coordinate is 0 for a missing cell,
    for [null], for a boolean and for text that cannot start a number; for
    a number it is the number, with 0 for NaN; for text that, after white
    space, starts with a numeral of the language (an optional sign, digits
    with an optional point and fraction or a point and a fraction, an
    optional exponent part) of at most 20 digits before the exponent it is
    the double nearest to the value of the numeral, whatever follows the
    numeral; and for text that starts with
    "Infinity" after white space and an optional sign it is the
    infinity of that sign. *)
Theorem coordinate_default_zero (numberToString : num -> string)
  (node : obj) :
  (forall c, c ∈ coordinateFields ->
     get (App.processNode numberToString node) c
     = VNum (coordinate (get node c))) /\
  ThreeDModel.nodePosition node =
    (coordinate (get node "X"), coordinate (get node "Y"),
     coordinate (get node "Z")) /\
  coordinate VUndefined = Finite 0 /\
  coordinate VNull = Finite 0 /\
  (forall b, coordinate (VBool b) = Finite 0) /\
  (forall s, startsNumber s = false -> coordinate (VStr s) = Finite 0) /\
  (forall x, coordinate (VNum x) = if decide (x = NaN) then Finite 0 else x) /\
  (forall pad n rest,
     Forall (fun w => w ∈ whiteSpace) pad ->
     wellFormed n ->
     (List.length (integerDigits n) + List.length (fractionDigits n) <= 20)%nat ->
     endsNumeral n rest = true ->
     coordinate
       (VStr (String.append (padding pad)
                (String.append (numeralText n) rest)))
     = Num.fl (numeralValue n)) /\
  (forall pad s rest,
     Forall (fun w => w ∈ whiteSpace) pad ->
     coordinate
       (VStr (String.append (padding pad)
                (String.append (signText s)
                   (String.append "Infinity" rest))))
     = match s with MinusSign => NegInf | _ => PosInf end).
Proof.
  split_and!.
  - intros c Hc. unfold coordinateFields in Hc.
    repeat (apply elem_of_cons in Hc as [-> | Hc]; [reflexivity |]).
    inversion Hc.
  - reflexivity.
  - apply coordinate_NaN. reflexivity.
  - apply coordinate_NaN. reflexivity.
  - intros b. apply coordinate_NaN. destruct b; reflexivity.
  - intros s Hs. apply coordinate_NaN. simpl.
    apply readLiteral_NaN in Hs. rewrite Hs. reflexivity.
  - intros x. destruct (decide (x = NaN)) as [-> | Hx].
    + reflexivity.
    + apply coordinate_not_NaN_cell. exact Hx.
  - intros pad n rest Hpad Hwf _ Hend.
    assert (Hparse : parseFloat
                       (VStr (String.append (padding pad)
                                (String.append (numeralText n) rest)))
                     = Num.fl (numeralValue n)).
    { cbn [parseFloat]. rewrite (readLiteral_numeral _ _ _ Hpad Hwf Hend).
      unfold literalValue, numeralValue. destruct (numeralSign n); reflexivity. }
    rewrite coordinate_not_NaN_cell; rewrite Hparse;
      [reflexivity | apply fl_not_NaN].
  - intros pad s rest Hpad.
    assert (Hparse : parseFloat
                       (VStr (String.append (padding pad)
                                (String.append (signText s)
                                   (String.append "Infinity" rest))))
                     = match s with MinusSign => NegInf | _ => PosInf end).
    { cbn [parseFloat]. rewrite (readLiteral_Infinity _ _ _ Hpad).
      destruct s; reflexivity. }
    rewrite coordinate_not_NaN_cell; rewrite Hparse;
      [reflexivity | destruct s; discriminate].
Qed.

(** A row with a coordinate given after a no-break space, with an
    exponent and followed by its unit, a missing cell and a cell that says
    there is no value: the position read off it is (15, 0, 0). *)
Lemma coordinate_default_zero_example :
  let numeral15 :=
    mkNumeral NoSign [1] true [5] (Some (mkExponentPart false PlusSign [1])) in
  let node : obj :=
    {[ "Node" := VStr "7";
       "X" := VStr (String.append (bytes [194; 160]) "1.5e+1 m");
       "Z" := VStr "n/a" ]} in
  Forall (fun w => w ∈ whiteSpace) [bytes [194; 160]] /\
  wellFormed numeral15 /\
  (List.length (integerDigits numeral15)
   + List.length (fractionDigits numeral15) <= 20)%nat /\
  endsNumeral numeral15 " m" = true /\
  startsNumber "n/a" = false /\
  ThreeDModel.nodePosition node = (Finite 15, Finite 0, Finite 0).
Proof.
  intros numeral15 node.
  assert (Hpad : Forall (fun w => w ∈ whiteSpace) [bytes [194; 160]]).
  { constructor; [| constructor]. unfold whiteSpace. cbn [map].
    do 6 apply list_elem_of_further. apply list_elem_of_here. }
  assert (Hwf : wellFormed numeral15).
  { unfold wellFormed, numeral15.
    cbn [integerDigits fractionDigits hasPoint exponent exponentDigits].
    split_and!; try (repeat constructor; lia); try discriminate. }
  assert (Hshort : (List.length (integerDigits numeral15)
                    + List.length (fractionDigits numeral15) <= 20)%nat)
    by (cbn; lia).
  assert (Hend : endsNumeral numeral15 " m" = true) by reflexivity.
  assert (Hna : startsNumber "n/a" = false) by reflexivity.
  destruct (coordinate_default_zero (fun _ => EmptyString) node)
    as (_ & Hposition & Hmissing & _ & _ & Htext & _ & Hnumeral & _).
  split_and!; try assumption.
  rewrite Hposition.
  change (get node "X")
    with (VStr (String.append (padding [bytes [194; 160]])
                  (String.append (numeralText numeral15) " m"))).
  change (get node "Y") with VUndefined.
  change (get node "Z") with (VStr "n/a").
  rewrite Hmissing, (Htext "n/a" Hna).
  rewrite (Hnumeral [bytes [194; 160]] numeral15 " m" Hpad Hwf Hshort Hend).
  assert (Hvalue : numeralValue numeral15 = 15%R).
  { unfold numeralValue, numeral15.
    cbn [integerDigits fractionDigits hasPoint exponent numeralSign
         exponentValue exponentSign exponentDigits List.length app].
    change (digitsValue [1; 5]) with 15%N. change (digitsValue [1]) with 1%N.
    change (Z.of_N 15) with 15%Z.
    change (Z.of_N 1 - Z.of_nat 1)%Z with 0%Z.
    change (powerRZ 10 0) with 1%R. lra. }
  rewrite Hvalue. rewrite fl_double by double_by 15%Z 0%Z. reflexivity.
Defined.

(** C9 fails as stated: the text "12abc" is not a number, and the
    coordinate made of it is 12, not 0. *)
Lemma coordinate_of_text_with_numeric_prefix :
  let node : obj := {[ "Node" := VStr "1"; "X" := VStr "12abc" ]} in
  isNumericText "12abc" = false /\
  (forall numberToString,
     get (App.processNode numberToString node) "X" = VNum (Finite 12)) /\
  ThreeDModel.nodePosition node = (Finite 12, Finite 0, Finite 0) /\
  Finite 12 <> Finite 0.
Proof.
  intros node.
  assert (Hx : coordinate (VStr "12abc") = Finite 12).
  { apply coordinate_Finite. unfold parseFloat.
    change (readLiteral "12abc") with (LitDecimal false 12 0).
    unfold literalValue. change (Z.of_N 12) with 12%Z.
    change (powerRZ 10 0) with 1%R.
    replace (12 * 1)%R with 12%R by lra.
    apply fl_double. double_by 12%Z 0%Z. }
  split_and!.
  - reflexivity.
  - intros numberToString.
    change (get (App.processNode numberToString node) "X")
      with (VNum (coordinate (VStr "12abc"))).
    rewrite Hx. reflexivity.
  - change (ThreeDModel.nodePosition node)
      with (coordinate (VStr "12abc"), coordinate VUndefined,
            coordinate VUndefined).
    rewrite Hx. reflexivity.
  - intros [= H]. lra.
Qed.

End Coordinates.

(** * Further properties of the two components *)

(** ** Uploaded data on its way to the scene *)

Section Pipeline.
Local Open Scope R_scope.

Lemma coordinate_not_NaN (cell : value) : coordinate cell <> NaN.
Proof.
  unfold coordinate, Num.or.
  destruct (Num.truthy (parseFloat cell)) eqn:Ht; [| discriminate].
  intros H. rewrite H in Ht. discriminate.
Qed.

Lemma coordinate_stable (cell : value) :
  Num.or (coordinate cell) (Finite 0) = coordinate cell.
Proof.
  unfold coordinate. generalize (parseFloat cell). intros x.
  unfold Num.or. destruct (Num.truthy x) eqn:Ht.
  - rewrite Ht. reflexivity.
  - destruct (Num.truthy (Finite 0)); reflexivity.
Qed.

Lemma processNode_field (numberToString : num -> string) (node : obj)
  (c : string) :
  c ∈ coordinateFields ->
  get (App.processNode numberToString node) c = VNum (coordinate (get node c)).
Proof.
  intros Hc. unfold coordinateFields in Hc.
  repeat (apply elem_of_cons in Hc as [-> | Hc]; [reflexivity |]).
  inversion Hc.
Qed.

Lemma nodePosition_processNode (numberToString : num -> string) (node : obj) :
  ThreeDModel.nodePosition (App.processNode numberToString node)
  = ThreeDModel.nodePosition node.
Proof.
  unfold ThreeDModel.nodePosition.
  rewrite !processNode_field by (unfold coordinateFields; repeat constructor).
  cbn [parseFloat]. fold (coordinate (get node "X")).
  fold (coordinate (get node "Y")). fold (coordinate (get node "Z")).
  rewrite !coordinate_stable. reflexivity.
Qed.

(** X1.  The coordinates [App.js] stores in a processed node are never NaN,
    and read back as they were stored: [parseFloat] of a stored coordinate
    and [parseFloat(...) || 0] of it are both the coordinate the stand-alone
    component reads off the row of the sheet. *)
Theorem processed_coordinates_read_back (numberToString : num -> string)
  (node : obj) :
  (parseFloat (get (App.processNode numberToString node) "X"),
   parseFloat (get (App.processNode numberToString node) "Y"),
   parseFloat (get (App.processNode numberToString node) "Z"))
  = ThreeDModel.nodePosition node /\
  ThreeDModel.nodePosition (App.processNode numberToString node)
  = ThreeDModel.nodePosition node /\
  (ThreeDModel.nodePosition node).1.1 <> NaN /\
  (ThreeDModel.nodePosition node).1.2 <> NaN /\
  (ThreeDModel.nodePosition node).2 <> NaN.
Proof.
  split_and!.
  - rewrite !processNode_field by (unfold coordinateFields; repeat constructor).
    reflexivity.
  - apply nodePosition_processNode.
  - apply coordinate_not_NaN.
  - apply coordinate_not_NaN.
  - apply coordinate_not_NaN.
Qed.

Lemma boundsStep_fold_map (f : obj -> obj) (rx ry rz rx' ry' rz' : obj -> num)
  (nodes : list obj) (acc : Coords) :
  (forall n, rx (f n) = rx' n) ->
  (forall n, ry (f n) = ry' n) ->
  (forall n, rz (f n) = rz' n) ->
  fold_left (boundsStep rx ry rz) (map f nodes) acc
  = fold_left (boundsStep rx' ry' rz') nodes acc.
Proof.
  intros Hx Hy Hz. revert acc.
  induction nodes as [| n nodes IH]; intros acc; [reflexivity |].
  cbn [map fold_left]. rewrite IH. f_equal.
  unfold boundsStep. rewrite Hx, Hy, Hz. reflexivity.
Qed.

(** X2.  On uploaded data the two [sceneBounds] agree: the bounds [App.js]
    computes from the processed nodes are the bounds the stand-alone
    component computes from the rows of the sheet, and processing the rows
    first does not change the latter. *)
Theorem sceneBounds_of_processed_nodes (numberToString : num -> string)
  (nodesData : list obj) :
  App.sceneBounds (map (App.processNode numberToString) nodesData)
  = ThreeDModel.sceneBounds nodesData /\
  ThreeDModel.sceneBounds (map (App.processNode numberToString) nodesData)
  = ThreeDModel.sceneBounds nodesData.
Proof.
  destruct nodesData as [| n nodesData]; [split; reflexivity |].
  cbn [map]. rewrite App_sceneBounds_fold, !ThreeDModel_sceneBounds_fold.
  change (App.processNode numberToString n
          :: map (App.processNode numberToString) nodesData)
    with (map (App.processNode numberToString) (n :: nodesData)).
  split; f_equal; apply boundsStep_fold_map; intros node;
    rewrite processNode_field by (unfold coordinateFields; repeat constructor);
    cbn [parseFloat]; try reflexivity; apply coordinate_stable.
Qed.

Lemma render_onload (numberToString : num -> string) (st : App.State)
  (read : App.ReadResult) :
  match App.tryProcess numberToString read with
  | inl message =>
      App.render (App.onload numberToString st read)
      = App.mkView (Some (String.append "Error processing file: " message))
                   None None
  | inr (ms, ns) =>
      ms <> [] /\ ns <> [] /\
      App.render (App.onload numberToString st read)
      = App.mkView None (Some (List.length ms, List.length ns))
                   (Some (App.ThreeDModel ms ns))
  end.
Proof.
  unfold App.onload.
  destruct (App.tryProcess numberToString read) as [message | [ms ns]] eqn:Ht.
  - reflexivity.
  - assert (Hne : ms <> [] /\ ns <> []).
    { destruct read as [message | workbook]; [discriminate |].
      cbn in Ht.
      destruct (App.sheetRows workbook 0) as [| r0 rows0];
        [discriminate |].
      destruct (App.sheetRows workbook 1) as [| r1 rows1];
        [discriminate |].
      injection Ht as <- <-. split; discriminate. }
    destruct Hne as [Hm Hn]. split_and!; [exact Hm | exact Hn |].
    destruct ms; [congruence |]. destruct ns; [congruence |]. reflexivity.
Qed.

(** X3.  After an upload [App] shows either the error text or the model,
    never both and never neither; the message with the counts is shown
    exactly with the model, and its counts are the numbers of rows of the
    first and of the second sheet. *)
Theorem upload_shows_error_or_model (numberToString : num -> string)
  (st : App.State) (read : App.ReadResult) :
  let view := App.render (App.onload numberToString st read) in
  (App.errorMessage view = None <-> is_Some (App.model view)) /\
  (is_Some (App.loadedMessage view) <-> is_Some (App.model view)) /\
  (forall workbook, read = App.ReadOk workbook ->
     is_Some (App.model view) ->
     App.loadedMessage view
     = Some (List.length (App.sheetRows workbook 0),
             List.length (App.sheetRows workbook 1))).
Proof.
  intros view. subst view.
  pose proof (render_onload numberToString st read) as H.
  destruct (App.tryProcess numberToString read) as [message | [ms ns]] eqn:Ht.
  - rewrite H. cbn. split_and!.
    + split; [discriminate | intros [? [=]]].
    + split; intros [? [=]].
    + intros workbook _ [? [=]].
  - destruct H as (_ & _ & ->). cbn. split_and!.
    + split; eauto.
    + split; eauto.
    + intros workbook -> _. cbn in Ht.
      destruct (_ || _)%bool; [discriminate |].
      injection Ht as <- <-. rewrite !length_map. reflexivity.
Qed.

Lemma strictEq_optToString (numberToString : num -> string) (a b : value) :
  strictEq (optToString numberToString a) (optToString numberToString b)
  = sameId numberToString a b.
Proof. destruct a, b; reflexivity. Qed.

(** Looking an identifier up among the processed nodes is looking its cell
    up among the rows by what the cells print. *)
Lemma findNode_processed (numberToString : num -> string)
  (nodesData : list obj) (id : value) :
  findNode (map (App.processNode numberToString) nodesData)
           (optToString numberToString id)
  = App.processNode numberToString
      <$> List.find (fun n => sameId numberToString (get n "Node") id)
                    nodesData.
Proof.
  unfold findNode. induction nodesData as [| n nodesData IH]; [reflexivity |].
  cbn [map List.find].
  change (get (App.processNode numberToString n) "Node")
    with (optToString numberToString (get n "Node")).
  rewrite strictEq_optToString.
  destruct (sameId numberToString (get n "Node") id); [reflexivity | exact IH].
Qed.

Lemma App_cylinderOf_processed (numberToString : num -> string)
  (nodesData : list obj) (i : nat) (m : obj) :
  App.cylinderOf (map (App.processNode numberToString) nodesData) i
                 (App.processMember numberToString m)
  = match List.find (fun n => sameId numberToString (get n "Node")
                                     (get m "Start Node")) nodesData,
          List.find (fun n => sameId numberToString (get n "Node")
                                     (get m "End Node")) nodesData with
    | Some s, Some e =>
        Some (App.mkCylinderProps i (ThreeDModel.nodePosition s)
                                  (ThreeDModel.nodePosition e))
    | _, _ => None
    end.
Proof.
  unfold App.cylinderOf.
  change (get (App.processMember numberToString m) "StartNode")
    with (optToString numberToString (get m "Start Node")).
  change (get (App.processMember numberToString m) "EndNode")
    with (optToString numberToString (get m "End Node")).
  rewrite !findNode_processed.
  destruct (List.find _ nodesData) as [s |]; [| reflexivity].
  destruct (List.find _ nodesData) as [e |]; reflexivity.
Qed.

(** X4.  From the sheets to the cylinders: after an upload, the cylinder
    list of [App.js] holds, for every row [i] of the members sheet whose
    "Start Node" cell and whose "End Node" cell each have the same
    identifier as the "Node" cell of some row of the nodes sheet, one
    cylinder with key [i] between the coordinates of the first such rows,
    and it holds nothing else.  Two cells have the same identifier when
    both are missing ([undefined] or [null]) or when neither is missing
    and they print the same: a cell holding the number 1 and a cell holding
    the text "1" name the same node when the number prints as "1", and a
    member row without a cell names a node row without a "Node" cell. *)
Theorem uploaded_cylinders (numberToString : num -> string)
  (membersData nodesData : list obj) (props : App.CylinderProps) :
  props ∈ App.cylinders (map (App.processMember numberToString) membersData)
                        (map (App.processNode numberToString) nodesData)
  <->
  exists i m s e,
    membersData !! i = Some m /\
    List.find (fun n => sameId numberToString (get n "Node")
                               (get m "Start Node")) nodesData = Some s /\
    List.find (fun n => sameId numberToString (get n "Node")
                               (get m "End Node")) nodesData = Some e /\
    props = App.mkCylinderProps i (ThreeDModel.nodePosition s)
                                (ThreeDModel.nodePosition e).
Proof.
  rewrite App_cylinders_elem. split.
  - intros (i & m' & Hm & Hc).
    rewrite list_lookup_fmap in Hm.
    destruct (membersData !! i) as [m |] eqn:Hi; [| discriminate].
    injection Hm as <-. rewrite App_cylinderOf_processed in Hc.
    destruct (List.find _ nodesData) as [s |] eqn:Hs; [| discriminate].
    destruct (List.find (fun n => sameId numberToString (get n "Node")
                                         (get m "End Node")) nodesData)
      as [e |] eqn:He; [| discriminate].
    injection Hc as <-. exists i, m, s, e. auto.
  - intros (i & m & s & e & Hm & Hs & He & ->).
    exists i, (App.processMember numberToString m). split.
    + rewrite list_lookup_fmap, Hm. reflexivity.
    + rewrite App_cylinderOf_processed, Hs, He. reflexivity.
Qed.

Lemma strictEq_sameType (a b : value) :
  strictEq a b = true -> sameType a b = true.
Proof. destruct a, b; simpl; congruence. Qed.

(** X5.  The stand-alone component compares identifiers as they are in the
    rows: a member whose start or end cell is of another type than the
    "Node" cell of every node (text against numbers, say) has no node, and
    its entry in the cylinder list is [null]. *)
Theorem cylinders_identifier_types (numberToString : num -> string)
  (members nodes : list obj) (i : nat) (m : obj) :
  members !! i = Some m ->
  Forall (fun n => sameType (get n "Node") (get m "Start Node") = false) nodes
  \/ Forall (fun n => sameType (get n "Node") (get m "End Node") = false)
            nodes ->
  ThreeDModel.cylinders numberToString members nodes !! i = Some None.
Proof.
  intros Hm Htypes.
  assert (Hnone : forall id,
            Forall (fun n => sameType (get n "Node") id = false) nodes ->
            findNode nodes id = None).
  { intros id H. apply findNode_None. unfold matchesNoNode.
    eapply Forall_impl; [exact H |]. intros n Hn. cbv beta in *.
    destruct (strictEq (get n "Node") id) eqn:E; [| reflexivity].
    apply strictEq_sameType in E. congruence. }
  rewrite (ThreeDModel_cylinders_lookup _ _ _ _ _ Hm).
  destruct Htypes as [H | H]; rewrite (Hnone _ H).
  - reflexivity.
  - destruct (findNode nodes (get m "Start Node")); reflexivity.
Qed.

(** Nodes numbered 1 and 2, a member from "1" to "2" given as text. *)
Lemma cylinders_identifier_types_example :
  let nodes := [numberedNodeRow 1 0 0 0; numberedNodeRow 2 0 5 0] in
  let members := [memberRow "1" "2"] in
  members !! 0%nat = Some (memberRow "1" "2") /\
  Forall (fun n => sameType (get n "Node")
                            (get (memberRow "1" "2") "Start Node") = false)
         nodes /\
  ThreeDModel.cylinders (fun _ => EmptyString) members nodes !! 0%nat
  = Some None.
Proof.
  intros nodes members.
  assert (Hm : members !! 0%nat = Some (memberRow "1" "2")) by reflexivity.
  assert (Ht : Forall (fun n => sameType (get n "Node")
                         (get (memberRow "1" "2") "Start Node") = false) nodes)
    by (repeat constructor).
  split_and!; [exact Hm | exact Ht |].
  exact (cylinders_identifier_types (fun _ => EmptyString) members nodes 0%nat
           _ Hm (or_introl Ht)).
Defined.

End Pipeline.

(** ** The lists of the scene *)

Section SceneLists.

Lemma cylinderOf_keys_sorted (nodes members : list obj) (k : nat) :
  StronglySorted lt
    (App.key <$> omap (fun element => element)
                      (imap (fun i => App.cylinderOf nodes (k + i)) members))
  /\ Forall (fun j => k <= j < k + List.length members)
       (App.key <$> omap (fun element => element)
                         (imap (fun i => App.cylinderOf nodes (k + i))
                               members)).
Proof.
  revert k. induction members as [| m members IH]; intros k.
  - split; constructor.
  - rewrite imap_cons.
    assert (Hext : imap ((fun i => App.cylinderOf nodes (k + i)) ∘ S) members
                   = imap (fun i => App.cylinderOf nodes (S k + i)) members).
    { apply imap_ext. intros i x _. cbn. f_equal. lia. }
    rewrite Hext. destruct (IH (S k)) as [Hsorted Hrange].
    assert (Hrange' : Forall (fun j => k <= j < k + List.length (m :: members))
              (App.key <$> omap (fun element => element)
                 (imap (fun i => App.cylinderOf nodes (S k + i)) members))).
    { eapply Forall_impl; [exact Hrange |]. cbn. intros j Hj. lia. }
    cbn [omap list_omap].
    destruct (App.cylinderOf nodes (k + 0) m) as [props |] eqn:Hc.
    + apply App_cylinderOf_key in Hc. cbn [fmap list_fmap]. split.
      * constructor; [exact Hsorted |].
        eapply Forall_impl; [exact Hrange |]. cbn. intros j Hj. lia.
      * constructor; [cbn; lia | exact Hrange'].
    + split; [exact Hsorted | exact Hrange'].
Qed.

(** X6.  The keys of the cylinders are the indices of their members: in
    [App.js], where the members without nodes are filtered out, the keys are
    strictly increasing, hence distinct, and below the number of members;
    the list of the stand-alone component has one entry per member, and the
    cylinder at entry [i] has key [i]. *)
Theorem cylinder_keys (numberToString : num -> string)
  (members nodes : list obj) :
  StronglySorted lt (App.key <$> App.cylinders members nodes) /\
  Forall (fun j => j < List.length members)
         (App.key <$> App.cylinders members nodes) /\
  List.length (ThreeDModel.cylinders numberToString members nodes)
  = List.length members /\
  (forall i props,
     ThreeDModel.cylinders numberToString members nodes !! i
     = Some (Some props) ->
     ThreeDModel.key props = i).
Proof.
  split_and!.
  - unfold App.cylinders. destruct (_ || _)%bool; [constructor |].
    apply (cylinderOf_keys_sorted nodes members 0).
  - unfold App.cylinders. destruct (_ || _)%bool; [constructor |].
    destruct (cylinderOf_keys_sorted nodes members 0) as [_ H].
    eapply Forall_impl; [exact H |]. cbn. intros j Hj. lia.
  - unfold ThreeDModel.cylinders. apply length_imap.
  - intros i props H.
    destruct (members !! i) as [m |] eqn:Hm.
    + rewrite (ThreeDModel_cylinders_lookup _ _ _ _ _ Hm) in H.
      destruct (findNode nodes (get m "Start Node")); [| discriminate].
      destruct (findNode nodes (get m "End Node")); [| discriminate].
      injection H as <-. reflexivity.
    + unfold ThreeDModel.cylinders in H.
      rewrite list_lookup_imap, Hm in H. discriminate.
Qed.

Lemma setAdd_length {A : Type} `{EqDecision A} (set : list A) (x : A) :
  List.length (setAdd set x) <= S (List.length set).
Proof.
  unfold setAdd. destruct (decide (x ∈ set)); [lia |].
  rewrite length_app. simpl. lia.
Qed.

Lemma cubesStep_length (members nodes : list obj)
  (acc : list (value * value * value)) (i : nat) :
  List.length (cubesStep members nodes acc i) <= 2 + List.length acc.
Proof.
  unfold cubesStep. destruct (members !! i) as [m |]; [| lia].
  destruct (findNode nodes (get m "StartNode")) as [s |],
           (findNode nodes (get m "EndNode")) as [e |]; try lia.
  - pose proof (setAdd_length (setAdd acc (App.cubePosition s))
                              (App.cubePosition e)).
    pose proof (setAdd_length acc (App.cubePosition s)). lia.
  - pose proof (setAdd_length acc (App.cubePosition s)). lia.
  - pose proof (setAdd_length acc (App.cubePosition e)). lia.
Qed.

Lemma cubes_fold_length (members nodes : list obj) (indices : list nat)
  (acc : list (value * value * value)) :
  List.length (fold_left (cubesStep members nodes) indices acc)
  <= 2 * List.length indices + List.length acc.
Proof.
  revert acc. induction indices as [| i indices IH]; intros acc.
  - simpl. lia.
  - cbn [fold_left List.length].
    pose proof (IH (cubesStep members nodes acc i)).
    pose proof (cubesStep_length members nodes acc i). lia.
Qed.

Lemma App_cubes_elem (members nodes : list obj) (p : value * value * value) :
  p ∈ App.cubes members nodes <->
  exists i, i ∈ App.specialMembers /\ markedAt members nodes i p.
Proof.
  rewrite App_cubes_fold. destruct members as [| m0 members].
  { simpl. split; [intros H; inversion H |].
    intros (i & _ & m & n & H & _). rewrite lookup_nil in H. discriminate. }
  destruct nodes as [| n0 nodes].
  { simpl. split; [intros H; inversion H |].
    intros (i & _ & m & n & _ & [H | H] & _); discriminate. }
  cbn [List.length Nat.eqb orb]. rewrite cubes_fold_elem.
  split; [| auto]. intros [H | H]; [inversion H | exact H].
Qed.

(** X7.  [App.js] never places more than six cubes. *)
Theorem cubes_at_most_six (members nodes : list obj) :
  List.length (App.cubes members nodes) <= 6.
Proof.
  rewrite App_cubes_fold. destruct (_ || _)%bool; [simpl; lia |].
  pose proof (cubes_fold_length members nodes App.specialMembers []) as H.
  change (List.length App.specialMembers) with 3 in H.
  change (List.length (@nil (value * value * value))) with 0 in H. lia.
Qed.

(** X8.  Every cylinder [App.js] draws for one of the members 0, 11 and 4
    has a cube at each of its two ends: the positions of its start and of
    its end, as they come back from JSON, are among the cubes. *)
Theorem special_cylinder_has_cubes (members nodes : list obj)
  (props : App.CylinderProps) :
  props ∈ App.cylinders members nodes ->
  App.key props ∈ App.specialMembers ->
  jsonTriple (App.start props) ∈ App.cubes members nodes /\
  jsonTriple (App.end_ props) ∈ App.cubes members nodes.
Proof.
  intros Hin Hkey. apply App_cylinders_elem in Hin as (i & m & Hm & Hc).
  pose proof (App_cylinderOf_key _ _ _ _ Hc) as Hk. rewrite Hk in Hkey.
  unfold App.cylinderOf in Hc.
  destruct (findNode nodes (get m "StartNode")) as [s |] eqn:Hs;
    [| discriminate].
  destruct (findNode nodes (get m "EndNode")) as [e |] eqn:He;
    [| discriminate].
  injection Hc as <-. cbn [App.start App.end_].
  split; apply App_cubes_elem; exists i; (split; [exact Hkey |]).
  - exists m, s. split_and!; [exact Hm | left; exact Hs | reflexivity].
  - exists m, e. split_and!; [exact Hm | right; exact He | reflexivity].
Qed.

(** One member between the nodes 1 and 2. *)
Lemma special_cylinder_has_cubes_example :
  let nodes := [nodeRow "1" 0 0 0; nodeRow "2" 0 5 0] in
  let members := [memberOf "1" "2"] in
  let props :=
    App.mkCylinderProps 0 (Finite 0%R, Finite 0%R, Finite 0%R)
                        (Finite 0%R, Finite 5%R, Finite 0%R) in
  props ∈ App.cylinders members nodes /\
  App.key props ∈ App.specialMembers /\
  jsonTriple (App.end_ props) ∈ App.cubes members nodes.
Proof.
  intros nodes members props.
  assert (Hin : props ∈ App.cylinders members nodes) by left.
  assert (Hkey : App.key props ∈ App.specialMembers) by left.
  split_and!; [exact Hin | exact Hkey |].
  exact (proj2 (special_cylinder_has_cubes members nodes props Hin Hkey)).
Defined.

End SceneLists.

(** ** More on the scene bounds *)

Section MoreBounds.
Local Open Scope R_scope.

Lemma least_le (lo x : R) (xs : list R) : least lo xs -> x ∈ xs -> lo <= x.
Proof. intros [_ H] Hx. rewrite Forall_forall in H. apply H, Hx. Qed.

Lemma greatest_ge (hi x : R) (xs : list R) :
  greatest hi xs -> x ∈ xs -> x <= hi.
Proof. intros [_ H] Hx. rewrite Forall_forall in H. apply H, Hx. Qed.

(** X9.  The scene fits its bounds: for nodes at finite positions whose
    sums, halves, extents and their product in [sceneBounds] are doubles,
    so that no step rounds, both [sceneBounds] return a finite center and a
    size that is not negative, every node is within a third of the size of
    the center on every axis, and the group is moved by minus the
    center. *)
Theorem scene_fits_bounds (nodes : list obj) (ps : list (R * R * R))
  (loX hiX loY hiY loZ hiZ : R) :
  nodes <> [] ->
  Forall2 positioned nodes ps ->
  least loX (map xOf ps) -> greatest hiX (map xOf ps) ->
  least loY (map yOf ps) -> greatest hiY (map yOf ps) ->
  least loZ (map zOf ps) -> greatest hiZ (map zOf ps) ->
  Forall isDouble (boundsSteps loX hiX loY hiY loZ hiZ) ->
  exists (c : R * R * R) (s : R),
    App.sceneBounds nodes = mkBounds (fin3 c) (Finite s) /\
    ThreeDModel.sceneBounds nodes = mkBounds (fin3 c) (Finite s) /\
    0 <= s /\
    Forall (withinBox c (s / 3)) ps /\
    groupPosition (App.sceneBounds nodes) = fin3 (- xOf c, - yOf c, - zOf c).
Proof.
  intros Hne Hpos H1 H2 H3 H4 H5 H6 Hexact.
  destruct (sceneBounds_extremes nodes ps Hne Hpos)
    as (loX' & hiX' & loY' & hiY' & loZ' & hiZ'
        & H1' & H2' & H3' & H4' & H5' & H6' & HA & HT).
  rewrite (least_unique _ _ _ H1' H1), (greatest_unique _ _ _ H2' H2),
          (least_unique _ _ _ H3' H3), (greatest_unique _ _ _ H4' H4),
          (least_unique _ _ _ H5' H5), (greatest_unique _ _ _ H6' H6)
    in HA, HT.
  rewrite (boundsFrom_exact _ _ _ _ _ _ Hexact) in HA, HT.
  exists ((loX + hiX) / 2, (loY + hiY) / 2, (loZ + hiZ) / 2),
         (Rmax (Rmax (hiX - loX) (hiY - loY)) (hiZ - loZ) * 1.5).
  rewrite HT, HA.
  pose proof (Rmax_l (Rmax (hiX - loX) (hiY - loY)) (hiZ - loZ)) as M1.
  pose proof (Rmax_r (Rmax (hiX - loX) (hiY - loY)) (hiZ - loZ)) as M2.
  pose proof (Rmax_l (hiX - loX) (hiY - loY)) as M3.
  pose proof (Rmax_r (hiX - loX) (hiY - loY)) as M4.
  assert (HloX : loX <= hiX)
    by (destruct H1 as [Hin _]; exact (greatest_ge _ _ _ H2 Hin)).
  split_and!; try reflexivity.
  - lra.
  - apply Forall_forall. intros p Hp. unfold withinBox.
    rewrite !xOf_triple, !yOf_triple, !zOf_triple.
    assert (Hx : xOf p ∈ map xOf ps) by (apply list_elem_of_fmap; eauto).
    assert (Hy : yOf p ∈ map yOf ps) by (apply list_elem_of_fmap; eauto).
    assert (Hz : zOf p ∈ map zOf ps) by (apply list_elem_of_fmap; eauto).
    pose proof (least_le _ _ _ H1 Hx). pose proof (greatest_ge _ _ _ H2 Hx).
    pose proof (least_le _ _ _ H3 Hy). pose proof (greatest_ge _ _ _ H4 Hy).
    pose proof (least_le _ _ _ H5 Hz). pose proof (greatest_ge _ _ _ H6 Hz).
    split_and!; apply Rabs_le; lra.
Qed.

(** The nodes (0,0,0), (10,0,0) and (0,10,0): center (5,5,0) and size 15;
    every node is within 5 of the center. *)
Lemma scene_fits_bounds_example :
  let nodes := [nodeRow "1" 0 0 0; nodeRow "2" 10 0 0; nodeRow "3" 0 10 0] in
  let ps := [(0, 0, 0); (10, 0, 0); (0, 10, 0)] in
  nodes <> [] /\
  Forall2 positioned nodes ps /\
  least 0 (map xOf ps) /\ greatest 10 (map xOf ps) /\
  least 0 (map yOf ps) /\ greatest 10 (map yOf ps) /\
  least 0 (map zOf ps) /\ greatest 0 (map zOf ps) /\
  Forall isDouble (boundsSteps 0 10 0 10 0 0) /\
  exists (c : R * R * R) (s : R),
    App.sceneBounds nodes = mkBounds (fin3 c) (Finite s) /\
    Forall (withinBox c (s / 3)) ps.
Proof.
  intros nodes ps.
  assert (Hne : nodes <> []) by discriminate.
  assert (Hpos : Forall2 positioned nodes ps) by (repeat constructor).
  assert (H1 : least 0 (map xOf ps))
    by (split; [left | repeat constructor; cbn; lra]).
  assert (H2 : greatest 10 (map xOf ps))
    by (split; [right; left | repeat constructor; cbn; lra]).
  assert (H3 : least 0 (map yOf ps))
    by (split; [left | repeat constructor; cbn; lra]).
  assert (H4 : greatest 10 (map yOf ps))
    by (split; [right; right; left | repeat constructor; cbn; lra]).
  assert (H5 : least 0 (map zOf ps))
    by (split; [left | repeat constructor; cbn; lra]).
  assert (H6 : greatest 0 (map zOf ps))
    by (split; [left | repeat constructor; cbn; lra]).
  assert (Hmax : Rmax (Rmax (10 - 0) (10 - 0)) (0 - 0) = 10)
    by (unfold Rmax; repeat destruct (Rle_dec _ _); lra).
  assert (Hexact : Forall isDouble (boundsSteps 0 10 0 10 0 0)).
  { unfold boundsSteps. rewrite Hmax.
    all_doubles
      ltac:(first [double_by 10%Z 0%Z | double_by 5%Z 0%Z
                  | double_by 0%Z 0%Z | double_by 15%Z 0%Z]). }
  split_and!; try assumption.
  destruct (scene_fits_bounds nodes ps 0 10 0 10 0 0
              Hne Hpos H1 H2 H3 H4 H5 H6 Hexact)
    as (c & s & HA & _ & _ & Hfit & _).
  exists c, s. split; assumption.
Defined.

Lemma positioned_realPosition (n : obj) (p : R * R * R) :
  positioned n p -> p = realPosition n.
Proof.
  destruct p as [[x y] z]. unfold positioned, realPosition.
  rewrite xOf_triple, yOf_triple, zOf_triple. intros (-> & -> & ->).
  reflexivity.
Qed.

Lemma positioned_all (nodes : list obj) :
  Forall (fun n => exists p, positioned n p) nodes ->
  Forall2 positioned nodes (map realPosition nodes).
Proof.
  induction 1 as [| n nodes [p Hp] _ IH]; cbn [map]; constructor.
  - rewrite <- (positioned_realPosition n p Hp). exact Hp.
  - exact IH.
Qed.

Lemma least_Permutation (lo : R) (xs ys : list R) :
  xs ≡ₚ ys -> least lo xs -> least lo ys.
Proof. intros Hp [Hin Hall]. split; rewrite <- Hp; assumption. Qed.

Lemma greatest_Permutation (hi : R) (xs ys : list R) :
  xs ≡ₚ ys -> greatest hi xs -> greatest hi ys.
Proof. intros Hp [Hin Hall]. split; rewrite <- Hp; assumption. Qed.

(** X10.  The bounds do not depend on the order of the nodes: two lists of
    nodes at finite positions that are permutations of one another have the
    same bounds, in both components. *)
Theorem sceneBounds_order (nodes nodes' : list obj) :
  nodes ≡ₚ nodes' ->
  Forall (fun n => exists p, positioned n p) nodes ->
  App.sceneBounds nodes' = App.sceneBounds nodes /\
  ThreeDModel.sceneBounds nodes' = ThreeDModel.sceneBounds nodes.
Proof.
  intros Hperm Hall.
  destruct nodes as [| n nodes].
  { apply Permutation_nil_l in Hperm. subst. split; reflexivity. }
  assert (Hne : n :: nodes <> []) by discriminate.
  assert (Hne' : nodes' <> []).
  { intros ->. apply Permutation_nil_r in Hperm. discriminate. }
  assert (Hall' : Forall (fun n => exists p, positioned n p) nodes')
    by (rewrite <- Hperm; exact Hall).
  destruct (sceneBounds_extremes _ _ Hne (positioned_all _ Hall))
    as (loX & hiX & loY & hiY & loZ & hiZ
        & H1 & H2 & H3 & H4 & H5 & H6 & HA & HT).
  destruct (sceneBounds_extremes _ _ Hne' (positioned_all _ Hall'))
    as (loX' & hiX' & loY' & hiY' & loZ' & hiZ'
        & H1' & H2' & H3' & H4' & H5' & H6' & HA' & HT').
  assert (Hps : map realPosition (n :: nodes) ≡ₚ map realPosition nodes')
    by (apply fmap_Permutation, Hperm).
  assert (HpX : map xOf (map realPosition (n :: nodes))
                ≡ₚ map xOf (map realPosition nodes'))
    by (apply fmap_Permutation, Hps).
  assert (HpY : map yOf (map realPosition (n :: nodes))
                ≡ₚ map yOf (map realPosition nodes'))
    by (apply fmap_Permutation, Hps).
  assert (HpZ : map zOf (map realPosition (n :: nodes))
                ≡ₚ map zOf (map realPosition nodes'))
    by (apply fmap_Permutation, Hps).
  assert (loX' = loX) as ->
    by (apply (least_unique _ _ _ H1'), (least_Permutation _ _ _ HpX H1)).
  assert (hiX' = hiX) as ->
    by (apply (greatest_unique _ _ _ H2'),
              (greatest_Permutation _ _ _ HpX H2)).
  assert (loY' = loY) as ->
    by (apply (least_unique _ _ _ H3'), (least_Permutation _ _ _ HpY H3)).
  assert (hiY' = hiY) as ->
    by (apply (greatest_unique _ _ _ H4'),
              (greatest_Permutation _ _ _ HpY H4)).
  assert (loZ' = loZ) as ->
    by (apply (least_unique _ _ _ H5'), (least_Permutation _ _ _ HpZ H5)).
  assert (hiZ' = hiZ) as ->
    by (apply (greatest_unique _ _ _ H6'),
              (greatest_Permutation _ _ _ HpZ H6)).
  rewrite HT', HT, HA', HA. split; reflexivity.
Qed.

(** Two nodes, in one order and in the other. *)
Lemma sceneBounds_order_example :
  let nodes := [nodeRow "1" 0 0 0; nodeRow "2" 10 0 0] in
  let nodes' := [nodeRow "2" 10 0 0; nodeRow "1" 0 0 0] in
  nodes ≡ₚ nodes' /\
  Forall (fun n => exists p, positioned n p) nodes /\
  App.sceneBounds nodes' = App.sceneBounds nodes.
Proof.
  intros nodes nodes'.
  assert (Hperm : nodes ≡ₚ nodes') by apply perm_swap.
  assert (Hall : Forall (fun n => exists p, positioned n p) nodes).
  { repeat constructor.
    - exists (0, 0, 0). repeat split.
    - exists (10, 0, 0). repeat split. }
  split_and!; [exact Hperm | exact Hall |].
  exact (proj1 (sceneBounds_order nodes nodes' Hperm Hall)).
Defined.

(** X11.  When all the nodes are at one position [p] whose coordinates
    are doubles below 2^1023 in absolute value, a single node for one,
    both [sceneBounds] return the center [p] and the size 0, and the camera
    is at [p] itself. *)
Theorem sceneBounds_coincident_nodes (nodes : list obj) (p : R * R * R) :
  nodes <> [] ->
  Forall (fun n => positioned n p) nodes ->
  isDouble (xOf p) -> isDouble (yOf p) -> isDouble (zOf p) ->
  Rabs (xOf p) < pow2 1023 -> Rabs (yOf p) < pow2 1023 ->
  Rabs (zOf p) < pow2 1023 ->
  App.sceneBounds nodes = mkBounds (fin3 p) (Finite 0) /\
  ThreeDModel.sceneBounds nodes = mkBounds (fin3 p) (Finite 0) /\
  cameraPosition (App.sceneBounds nodes) = fin3 p.
Proof.
  intros Hne Hall Dx Dy Dz Bx By Bz.
  assert (Hpos : Forall2 positioned nodes (map (fun _ => p) nodes)).
  { clear Hne. induction Hall; cbn [map]; constructor; assumption. }
  destruct (sceneBounds_extremes _ _ Hne Hpos)
    as (loX & hiX & loY & hiY & loZ & hiZ
        & H1 & H2 & H3 & H4 & H5 & H6 & HA & HT).
  assert (Hconst : forall (proj : R * R * R -> R) v,
            v ∈ map proj (map (fun _ => p) nodes) -> v = proj p).
  { intros proj v Hv. apply list_elem_of_fmap in Hv as (q & -> & Hq).
    apply list_elem_of_fmap in Hq as (n & -> & _). reflexivity. }
  destruct H1 as [H1 _], H2 as [H2 _], H3 as [H3 _], H4 as [H4 _],
           H5 as [H5 _], H6 as [H6 _].
  apply Hconst in H1, H2, H3, H4, H5, H6. subst.
  assert (Hhalf : forall x, isDouble x -> Rabs x < pow2 1023 ->
            Num.div (Num.add (Finite x) (Finite x)) (Finite 2) = Finite x).
  { intros x Dx' Bx'. rewrite Num_add_exact by (apply isDouble_twice; assumption).
    rewrite Num_div_Finite by lra. replace ((x + x) / 2) with x by lra.
    apply fl_double, Dx'. }
  assert (Hb : boundsFrom (mkCoords (Finite (xOf p)) (Finite (xOf p))
                                    (Finite (yOf p)) (Finite (yOf p))
                                    (Finite (zOf p)) (Finite (zOf p)))
               = mkBounds (fin3 p) (Finite 0)).
  { unfold boundsFrom, fin3, Num.max3. cbn [minX maxX minY maxY minZ maxZ].
    rewrite !Hhalf by assumption. rewrite !Num_sub_same, !Num_max_Finite.
    replace (Rmax (Rmax 0 0) 0) with 0
      by (unfold Rmax; repeat destruct (Rle_dec _ _); lra).
    rewrite Num_mul_0_l. reflexivity. }
  rewrite HT, HA, Hb. split_and!; try reflexivity.
  unfold cameraPosition, fin3. cbn [center size].
  rewrite !Num_add_0_r by assumption. reflexivity.
Qed.

(** A single node at (3, 4, 5). *)
Lemma sceneBounds_coincident_nodes_example :
  [nodeRow "1" 3 4 5] <> [] /\
  Forall (fun n => positioned n (3, 4, 5)) [nodeRow "1" 3 4 5] /\
  isDouble 3 /\ isDouble 4 /\ isDouble 5 /\
  Rabs 3 < pow2 1023 /\ Rabs 4 < pow2 1023 /\ Rabs 5 < pow2 1023 /\
  App.sceneBounds [nodeRow "1" 3 4 5] = mkBounds (fin3 (3, 4, 5)) (Finite 0).
Proof.
  assert (Hne : [nodeRow "1" 3 4 5] <> []) by discriminate.
  assert (Hall : Forall (fun n => positioned n (3, 4, 5)) [nodeRow "1" 3 4 5])
    by (repeat constructor).
  assert (D3 : isDouble 3) by double_by 3%Z 0%Z.
  assert (D4 : isDouble 4) by double_by 4%Z 0%Z.
  assert (D5 : isDouble 5) by double_by 5%Z 0%Z.
  assert (Hbig : 8 <= pow2 1023).
  { replace 8 with (pow2 3) by (unfold pow2; simpl; lra).
    apply pow2_le. lia. }
  assert (B3 : Rabs 3 < pow2 1023) by (rewrite Rabs_pos_eq; lra).
  assert (B4 : Rabs 4 < pow2 1023) by (rewrite Rabs_pos_eq; lra).
  assert (B5 : Rabs 5 < pow2 1023) by (rewrite Rabs_pos_eq; lra).
  split_and!; try assumption.
  exact (proj1 (sceneBounds_coincident_nodes _ (3, 4, 5) Hne Hall
                  D3 D4 D5 B3 B4 B5)).
Defined.

End MoreBounds.

(** ** More on the cylinder between two points *)

Section MoreGeometry.
Local Open Scope R_scope.

(** The memoised value of [Cylinder] in the stand-alone component, part by
    part. *)
Lemma ThreeDModel_Cylinder_mesh_parts (EPS : num) (a b : R * R * R) :
  ThreeDModel.Cylinder_mesh EPS (fin3 a) (fin3 b) =
  ThreeDModel.mkMesh
    (Vector3.toArray
       (Vector3.multiplyScalar (Vector3.add (vec3 a) (vec3 b)) (Finite 0.5)))
    (Quaternion.toArray
       (Quaternion.setFromUnitVectors EPS up
          (Vector3.normalize (Vector3.sub (vec3 b) (vec3 a)))))
    (Vector3.length (Vector3.sub (vec3 b) (vec3 a))).
Proof. reflexivity. Qed.

(** A difference taken the other way round is the negated difference:
    rounding is symmetric. *)
Lemma Num_sub_reversed (x y : R) :
  Num.sub (Finite x) (Finite y) = Num.neg (Num.sub (Finite y) (Finite x)).
Proof.
  rewrite !Num_sub_Finite. replace (x - y) with (- (y - x)) by ring.
  apply fl_opp.
Qed.

Lemma Num_mul_neg_neg (n : num) :
  Num.mul (Num.neg n) (Num.neg n) = Num.mul n n.
Proof.
  destruct n; try reflexivity. cbn [Num.neg]. rewrite !Num_mul_Finite.
  f_equal. ring.
Qed.

Lemma Vector3_length_reversed (a b : R * R * R) :
  Vector3.length (Vector3.sub (vec3 a) (vec3 b))
  = Vector3.length (Vector3.sub (vec3 b) (vec3 a)).
Proof.
  unfold Vector3.length, Vector3.sub, vec3.
  cbn [Vector3.x Vector3.y Vector3.z].
  rewrite (Num_sub_reversed (xOf a)), (Num_sub_reversed (yOf a)),
          (Num_sub_reversed (zOf a)).
  rewrite !Num_mul_neg_neg. reflexivity.
Qed.

Lemma Vector3_add_comm (u v : Vector3.t) : Vector3.add u v = Vector3.add v u.
Proof.
  unfold Vector3.add. f_equal; apply Num_add_comm.
Qed.

(** X12.  The direction of a member changes neither the length nor the
    center of its cylinder: with start and end exchanged both [Cylinder]
    components return the same length and the same position. *)
Theorem Cylinder_reversed (EPS : num) (a b : R * R * R) :
  (exists mesh mesh',
     snd (App.Cylinder_mesh EPS (fin3 a) (fin3 b)) = Some mesh /\
     snd (App.Cylinder_mesh EPS (fin3 b) (fin3 a)) = Some mesh' /\
     App.length mesh' = App.length mesh /\
     App.position mesh' = App.position mesh) /\
  ThreeDModel.length (ThreeDModel.Cylinder_mesh EPS (fin3 b) (fin3 a))
  = ThreeDModel.length (ThreeDModel.Cylinder_mesh EPS (fin3 a) (fin3 b)) /\
  ThreeDModel.position (ThreeDModel.Cylinder_mesh EPS (fin3 b) (fin3 a))
  = ThreeDModel.position (ThreeDModel.Cylinder_mesh EPS (fin3 a) (fin3 b)).
Proof.
  rewrite !App_Cylinder_mesh_parts, !ThreeDModel_Cylinder_mesh_parts.
  cbn [snd ThreeDModel.length ThreeDModel.position].
  rewrite (Vector3_length_reversed a b), (Vector3_add_comm (vec3 b) (vec3 a)).
  split_and!; try reflexivity.
  eexists _, _. split_and!; reflexivity.
Qed.

Lemma difference_shift (t a b : R * R * R) :
  Vector3.sub (vec3 (shift t b)) (vec3 (shift t a))
  = Vector3.sub (vec3 b) (vec3 a).
Proof.
  unfold Vector3.sub, vec3, shift. cbn [Vector3.x Vector3.y Vector3.z].
  rewrite !xOf_triple, !yOf_triple, !zOf_triple, !Num_sub_Finite.
  f_equal; f_equal; ring.
Qed.

(** X13.  Moving both points by the same vector, when the coordinates of
    the moved points are doubles (the move itself does not round), leaves
    the length and the orientation of the cylinder as they are, in both
    [Cylinder] components. *)
Theorem Cylinder_shifted (EPS : num) (t a b : R * R * R) :
  Forall isDouble [xOf a; yOf a; zOf a; xOf b; yOf b; zOf b] ->
  Forall isDouble
    [xOf (shift t a); yOf (shift t a); zOf (shift t a);
     xOf (shift t b); yOf (shift t b); zOf (shift t b)] ->
  (exists mesh mesh',
     snd (App.Cylinder_mesh EPS (fin3 a) (fin3 b)) = Some mesh /\
     snd (App.Cylinder_mesh EPS (fin3 (shift t a)) (fin3 (shift t b)))
     = Some mesh' /\
     App.length mesh' = App.length mesh /\
     App.rotation mesh' = App.rotation mesh) /\
  ThreeDModel.length
    (ThreeDModel.Cylinder_mesh EPS (fin3 (shift t a)) (fin3 (shift t b)))
  = ThreeDModel.length (ThreeDModel.Cylinder_mesh EPS (fin3 a) (fin3 b)) /\
  ThreeDModel.quaternion
    (ThreeDModel.Cylinder_mesh EPS (fin3 (shift t a)) (fin3 (shift t b)))
  = ThreeDModel.quaternion (ThreeDModel.Cylinder_mesh EPS (fin3 a) (fin3 b)).
Proof.
  intros _ _.
  rewrite !App_Cylinder_mesh_parts, !ThreeDModel_Cylinder_mesh_parts.
  cbn [snd ThreeDModel.length ThreeDModel.quaternion].
  rewrite difference_shift.
  split_and!; try reflexivity.
  eexists _, _. split_and!; reflexivity.
Qed.

(** The member from (1,2,3) to (4,6,3), moved by (10,20,30). *)
Lemma Cylinder_shifted_example :
  let t : R * R * R := (10, 20, 30) in
  let a : R * R * R := (1, 2, 3) in
  let b : R * R * R := (4, 6, 3) in
  Forall isDouble [xOf a; yOf a; zOf a; xOf b; yOf b; zOf b] /\
  Forall isDouble
    [xOf (shift t a); yOf (shift t a); zOf (shift t a);
     xOf (shift t b); yOf (shift t b); zOf (shift t b)] /\
  ThreeDModel.length
    (ThreeDModel.Cylinder_mesh Num.EPSILON (fin3 (shift t a))
                               (fin3 (shift t b)))
  = ThreeDModel.length
      (ThreeDModel.Cylinder_mesh Num.EPSILON (fin3 a) (fin3 b)).
Proof.
  intros t a b.
  assert (H1 : Forall isDouble [xOf a; yOf a; zOf a; xOf b; yOf b; zOf b]).
  { unfold a, b. rewrite !xOf_triple, !yOf_triple, !zOf_triple.
    all_doubles ltac:(first [double_by 1%Z 0%Z | double_by 2%Z 0%Z
                            | double_by 3%Z 0%Z | double_by 4%Z 0%Z
                            | double_by 6%Z 0%Z]). }
  assert (H2 : Forall isDouble
                 [xOf (shift t a); yOf (shift t a); zOf (shift t a);
                  xOf (shift t b); yOf (shift t b); zOf (shift t b)]).
  { unfold shift, t, a, b. rewrite !xOf_triple, !yOf_triple, !zOf_triple.
    all_doubles ltac:(first [double_by 11%Z 0%Z | double_by 22%Z 0%Z
                            | double_by 33%Z 0%Z | double_by 14%Z 0%Z
                            | double_by 26%Z 0%Z]). }
  split_and!; [exact H1 | exact H2 |].
  exact (proj1 (proj2 (Cylinder_shifted Num.EPSILON t a b H1 H2))).
Defined.

End MoreGeometry.

(** ** More on the connection counts *)

Section MoreEndpoints.

Lemma countStep_lookup (numberToString : num -> string)
  (all : list obj) (acc : gmap string nat) (m : obj) (k : string) :
  exists c1 c2,
    countStep numberToString all acc m !! k
    = if decide (endKey numberToString m = k) then Some (c2 + 1)
      else if decide (startKey numberToString m = k) then Some (c1 + 1)
      else acc !! k.
Proof.
  unfold countStep, startKey, endKey. eexists _, _.
  rewrite !lookup_insert. reflexivity.
Qed.

Lemma countStep_fold_positive (numberToString : num -> string)
  (all members : list obj) (acc : gmap string nat) :
  (forall k c, acc !! k = Some c -> 1 <= c) ->
  forall k c,
    fold_left (countStep numberToString all) members acc !! k = Some c ->
    1 <= c.
Proof.
  revert acc. induction members as [| m members IH]; intros acc Hacc.
  - exact Hacc.
  - cbn [fold_left]. apply IH. intros k c.
    destruct (countStep_lookup numberToString all acc m k) as (c1 & c2 & ->).
    repeat case_decide; intros Hc.
    + injection Hc as <-. lia.
    + injection Hc as <-. lia.
    + eapply Hacc, Hc.
Qed.

Lemma countStep_fold_keeps (numberToString : num -> string)
  (all members : list obj) (acc : gmap string nat) (k : string) :
  is_Some (acc !! k) ->
  is_Some (fold_left (countStep numberToString all) members acc !! k).
Proof.
  revert acc. induction members as [| m members IH]; intros acc Hk.
  - exact Hk.
  - cbn [fold_left]. apply IH.
    destruct (countStep_lookup numberToString all acc m k) as (c1 & c2 & ->).
    repeat case_decide; eauto.
Qed.

Lemma countStep_fold_writes (numberToString : num -> string)
  (all members : list obj) (acc : gmap string nat) (m : obj) :
  m ∈ members ->
  is_Some (fold_left (countStep numberToString all) members acc
             !! startKey numberToString m) /\
  is_Some (fold_left (countStep numberToString all) members acc
             !! endKey numberToString m).
Proof.
  revert acc. induction members as [| m' members IH]; intros acc Hin.
  - inversion Hin.
  - cbn [fold_left]. apply elem_of_cons in Hin as [-> | Hin].
    + split; apply countStep_fold_keeps.
      * destruct (countStep_lookup numberToString all acc m'
                    (startKey numberToString m')) as (c1 & c2 & ->).
        repeat case_decide; try congruence; eauto.
      * destruct (countStep_lookup numberToString all acc m'
                    (endKey numberToString m')) as (c1 & c2 & ->).
        repeat case_decide; try congruence; eauto.
    + apply IH, Hin.
Qed.

Lemma countStep_fold_only (numberToString : num -> string)
  (all members : list obj) (acc : gmap string nat) (k : string) :
  is_Some (fold_left (countStep numberToString all) members acc !! k) ->
  is_Some (acc !! k) \/
  exists m, m ∈ members /\
            (k = startKey numberToString m \/ k = endKey numberToString m).
Proof.
  revert acc. induction members as [| m members IH]; intros acc Hk.
  - left. exact Hk.
  - cbn [fold_left] in Hk. apply IH in Hk as [Hk | (m' & Hm' & Hkey)].
    + destruct (countStep_lookup numberToString all acc m k)
        as (c1 & c2 & Heq).
      rewrite Heq in Hk. repeat case_decide.
      * right. exists m. split; [left | right; congruence].
      * right. exists m. split; [left | left; congruence].
      * left. exact Hk.
    + right. exists m'. split; [right; exact Hm' | exact Hkey].
Qed.

(** X15.  For members whose identifiers name no property that a plain
    object inherits ("constructor", "__proto__" and the like), the
    connection map of [findEndpoints] has an entry exactly under the keys
    [member.StartNode] and [member.EndNode] of the members, and every count
    in it is at least 1: the lookup [findEndpoints[member.EndNode]] of
    [cylinders] always finds a count. *)
Theorem findEndpoints_entries (numberToString : num -> string)
  (members : list obj) :
  Forall (plainKeys numberToString) members ->
  (forall k c,
     ThreeDModel.findEndpoints numberToString members !! k = Some c ->
     1 <= c) /\
  (forall k,
     is_Some (ThreeDModel.findEndpoints numberToString members !! k) <->
     exists m, m ∈ members /\
               (k = startKey numberToString m \/ k = endKey numberToString m)).
Proof.
  intros _. rewrite findEndpoints_fold. split.
  - apply countStep_fold_positive. intros k c H.
    rewrite lookup_empty in H. discriminate.
  - intros k. split.
    + intros H. apply countStep_fold_only in H as [H | H]; [| exact H].
      rewrite lookup_empty in H. destruct H as [? [=]].
    + intros (m & Hm & [-> | ->]);
        apply (countStep_fold_writes numberToString members members ∅ m Hm).
Qed.

(** Two processed members over the nodes 1, 2 and 3: the map has an entry
    under "3". *)
Lemma findEndpoints_entries_example :
  let toString : num -> string := fun _ => EmptyString in
  let members := [memberOf "1" "2"; memberOf "2" "3"] in
  Forall (plainKeys toString) members /\
  is_Some (ThreeDModel.findEndpoints toString members !! "3"%string).
Proof.
  intros toString members.
  assert (Hplain : Forall (plainKeys toString) members).
  { repeat constructor. }
  split; [exact Hplain |].
  apply (proj2 (findEndpoints_entries toString members Hplain)).
  exists (memberOf "2" "3"). split.
  - apply list_elem_of_further, list_elem_of_here.
  - right. reflexivity.
Defined.

(** X16.  On rows of the members sheet the stand-alone component never
    marks an endpoint: every cylinder of its list has [isEndpoint] false, so
    that no [EndCube] is rendered. *)
Theorem no_endpoint_on_sheet_rows (numberToString : num -> string)
  (EPS : num) (members nodes : list obj) (i : nat)
  (props : ThreeDModel.CylinderProps) :
  Forall (isSheetRow numberToString) members ->
  ThreeDModel.cylinders numberToString members nodes !! i = Some (Some props) ->
  ThreeDModel.isEndpoint props = false /\
  ThreeDModel.endCube
    (ThreeDModel.Cylinder EPS (ThreeDModel.start props)
       (ThreeDModel.end_ props) (ThreeDModel.isEndpoint props)) = None.
Proof.
  intros Hrows Hi.
  assert (Hfalse : ThreeDModel.isEndpoint props = false).
  { destruct (members !! i) as [m |] eqn:Hm.
    - rewrite (ThreeDModel_cylinders_lookup _ _ _ _ _ Hm) in Hi.
      destruct (findNode nodes (get m "Start Node")); [| discriminate].
      destruct (findNode nodes (get m "End Node")); [| discriminate].
      injection Hi as <-. cbn [ThreeDModel.isEndpoint].
      assert (Hne : members <> []) by (intros ->; discriminate).
      rewrite (findEndpoints_sheet_rows _ _ Hne Hrows).
      rewrite Forall_forall in Hrows.
      destruct (Hrows m (list_elem_of_lookup_2 _ _ _ Hm)) as (_ & He & _).
      rewrite He. cbn [ToString]. rewrite lookup_singleton_eq.
      apply bool_decide_eq_false_2. discriminate.
    - unfold ThreeDModel.cylinders in Hi.
      rewrite list_lookup_imap, Hm in Hi. discriminate. }
  split; [exact Hfalse |]. rewrite Hfalse. reflexivity.
Qed.

(** A chain of two rows over three nodes. *)
Lemma no_endpoint_on_sheet_rows_example :
  let nodes := [nodeRow "1" 0 0 0; nodeRow "2" 0 5 0; nodeRow "3" 4 5 0] in
  let members := [memberRow "1" "2"; memberRow "2" "3"] in
  let toString : num -> string := fun _ => EmptyString in
  Forall (isSheetRow toString) members /\
  exists props,
    ThreeDModel.cylinders toString members nodes !! 1 = Some (Some props) /\
    ThreeDModel.isEndpoint props = false.
Proof.
  intros nodes members toString.
  assert (Hrows : Forall (isSheetRow toString) members).
  { repeat constructor; discriminate. }
  split; [exact Hrows |].
  assert (Hi : ThreeDModel.cylinders toString members nodes !! 1
               = Some (Some (ThreeDModel.mkCylinderProps 1
                    (ThreeDModel.nodePosition (nodeRow "2" 0 5 0))
                    (ThreeDModel.nodePosition (nodeRow "3" 4 5 0)) false)))
    by (vm_compute; reflexivity).
  eexists. split; [exact Hi |].
  exact (proj1 (no_endpoint_on_sheet_rows toString Num.EPSILON members nodes 1
                  _ Hrows Hi)).
Defined.

End MoreEndpoints.

(** ** Edge cases of the scene *)

Section SceneEdges.
Local Open Scope R_scope.

(** X17.  With no nodes nothing is drawn between nodes: the cylinders and
    the cubes of [App.js] are empty, and every entry of the cylinder list of
    the stand-alone component is [null].  With no members [App.js] has no
    cylinder and no cube, and the stand-alone component has no cylinder but
    still one point per node. *)
Theorem scene_without_nodes_or_members (numberToString : num -> string)
  (members nodes : list obj) :
  App.sceneCylinders (App.ThreeDModel members []) = [] /\
  App.sceneCubes (App.ThreeDModel members []) = [] /\
  Forall (fun entry => entry = None)
    (ThreeDModel.sceneCylinders
       (ThreeDModel.ThreeDModel numberToString members [])) /\
  App.sceneCylinders (App.ThreeDModel [] nodes) = [] /\
  App.sceneCubes (App.ThreeDModel [] nodes) = [] /\
  ThreeDModel.sceneCylinders (ThreeDModel.ThreeDModel numberToString [] nodes)
  = [] /\
  List.length
    (ThreeDModel.sceneNodePoints
       (ThreeDModel.ThreeDModel numberToString [] nodes))
  = List.length nodes.
Proof.
  split_and!.
  - cbn. unfold App.cylinders. rewrite orb_true_r. reflexivity.
  - cbn. unfold App.cubes. rewrite orb_true_r. reflexivity.
  - cbn [ThreeDModel.ThreeDModel ThreeDModel.sceneCylinders].
    apply Forall_lookup. intros i entry H.
    unfold ThreeDModel.cylinders in H. rewrite list_lookup_imap in H.
    destruct (members !! i) as [m |]; [| discriminate].
    cbn in H. injection H as <-. reflexivity.
  - reflexivity.
  - reflexivity.
  - reflexivity.
  - cbn. unfold ThreeDModel.nodePoints. apply length_map.
Qed.

Lemma findNode_first (pre post : list obj) (n : obj) (id : value) :
  matchesNoNode pre id ->
  strictEq (get n "Node") id = true ->
  findNode (pre ++ n :: post) id = Some n.
Proof.
  intros Hpre Hn. unfold findNode, matchesNoNode in *.
  induction Hpre as [| n' pre Hn' _ IH]; cbn [app List.find].
  - rewrite Hn. reflexivity.
  - rewrite Hn'. exact IH.
Qed.

(** X18.  When several nodes carry the identifier of a member's start or
    end, the first of them in the node list is the one used: the cylinder of
    the member runs between the positions of the first matching nodes, and
    the nodes after them have no part in it. *)
Theorem cylinder_uses_first_node (nodes pre post pre' post' : list obj)
  (i : nat) (m s e : obj) :
  nodes = pre ++ s :: post ->
  nodes = pre' ++ e :: post' ->
  matchesNoNode pre (get m "StartNode") ->
  strictEq (get s "Node") (get m "StartNode") = true ->
  matchesNoNode pre' (get m "EndNode") ->
  strictEq (get e "Node") (get m "EndNode") = true ->
  App.cylinderOf nodes i m
  = Some (App.mkCylinderProps i
            (parseFloat (get s "X"), parseFloat (get s "Y"),
             parseFloat (get s "Z"))
            (parseFloat (get e "X"), parseFloat (get e "Y"),
             parseFloat (get e "Z"))).
Proof.
  intros Hs He Hpre Hsm Hpre' Hem. unfold App.cylinderOf.
  rewrite Hs at 1. rewrite (findNode_first pre post s _ Hpre Hsm).
  rewrite He. rewrite (findNode_first pre' post' e _ Hpre' Hem).
  reflexivity.
Qed.

(** The identifier 2 twice, at (0,5,0) and then at (9,9,9). *)
Lemma cylinder_uses_first_node_example :
  let nodes := [nodeRow "1" 0 0 0; nodeRow "2" 0 5 0; nodeRow "2" 9 9 9] in
  App.cylinders [memberOf "1" "2"] nodes
  = [App.mkCylinderProps 0 (fin3 (0, 0, 0)) (fin3 (0, 5, 0))].
Proof.
  intros nodes. unfold App.cylinders. cbn [List.length Nat.eqb orb imap].
  rewrite (cylinder_uses_first_node nodes [] [nodeRow "2" 0 5 0; nodeRow "2" 9 9 9]
             [nodeRow "1" 0 0 0] [nodeRow "2" 9 9 9] 0 (memberOf "1" "2")
             (nodeRow "1" 0 0 0) (nodeRow "2" 0 5 0));
    try reflexivity; repeat constructor.
Defined.

Lemma fold_min_NaN (r : obj -> num) (nodes : list obj) :
  fold_left (fun m n => Num.min m (r n)) nodes NaN = NaN.
Proof. induction nodes as [| n nodes IH]; [reflexivity | exact IH]. Qed.

Lemma fold_max_NaN (r : obj -> num) (nodes : list obj) :
  fold_left (fun m n => Num.max m (r n)) nodes NaN = NaN.
Proof. induction nodes as [| n nodes IH]; [reflexivity | exact IH]. Qed.

Lemma Num_min_NaN_r (a : num) : Num.min a NaN = NaN.
Proof. destruct a; reflexivity. Qed.

Lemma Num_max_NaN_r (a : num) : Num.max a NaN = NaN.
Proof. destruct a; reflexivity. Qed.

Lemma fold_min_poisoned (r : obj -> num) (nodes : list obj) (acc : num) :
  Exists (fun n => r n = NaN) nodes ->
  fold_left (fun m n => Num.min m (r n)) nodes acc = NaN.
Proof.
  intros H. revert acc. induction H as [n nodes Hn | n nodes _ IH]; intros acc.
  - cbn [fold_left]. rewrite Hn, Num_min_NaN_r. apply fold_min_NaN.
  - cbn [fold_left]. apply IH.
Qed.

Lemma fold_max_poisoned (r : obj -> num) (nodes : list obj) (acc : num) :
  Exists (fun n => r n = NaN) nodes ->
  fold_left (fun m n => Num.max m (r n)) nodes acc = NaN.
Proof.
  intros H. revert acc. induction H as [n nodes Hn | n nodes _ IH]; intros acc.
  - cbn [fold_left]. rewrite Hn, Num_max_NaN_r. apply fold_max_NaN.
  - cbn [fold_left]. apply IH.
Qed.

(** X19.  [sceneBounds] of [App.js] does not default a coordinate: given a
    node whose X does not parse (a row that was not processed), the x of the
    center and the size are NaN, and so is the camera position on every
    axis.  The stand-alone component reads such an X as 0 and never has NaN
    there. *)
Theorem sceneBounds_unparsed_coordinate (nodes : list obj) :
  Exists (fun n => parseFloat (get n "X") = NaN) nodes ->
  (center (App.sceneBounds nodes)).1.1 = NaN /\
  size (App.sceneBounds nodes) = NaN /\
  cameraPosition (App.sceneBounds nodes) = (NaN, NaN, NaN) /\
  Forall (fun n => (ThreeDModel.nodePosition n).1.1 <> NaN) nodes.
Proof.
  intros Hex.
  assert (Hfold : exists loY hiY loZ hiZ,
            App.sceneBounds nodes
            = boundsFrom (mkCoords NaN NaN loY hiY loZ hiZ)).
  { destruct nodes as [| n nodes]; [inversion Hex |].
    rewrite App_sceneBounds_fold, boundsStep_fold.
    rewrite (fold_min_poisoned _ _ _ Hex), (fold_max_poisoned _ _ _ Hex).
    eexists _, _, _, _. reflexivity. }
  destruct Hfold as (loY & hiY & loZ & hiZ & ->).
  assert (Hsize : size (boundsFrom (mkCoords NaN NaN loY hiY loZ hiZ)) = NaN).
  { unfold boundsFrom, Num.max3. cbn [size maxX minX maxY minY maxZ minZ].
    cbn [Num.sub Num.neg Num.add Num.max]. reflexivity. }
  split_and!.
  - reflexivity.
  - exact Hsize.
  - unfold cameraPosition. rewrite Hsize.
    destruct (center (boundsFrom (mkCoords NaN NaN loY hiY loZ hiZ)))
      as [[cx cy] cz].
    destruct cx, cy, cz; reflexivity.
  - apply Forall_forall. intros n _. apply coordinate_not_NaN.
Qed.

(** A node whose X is the text "n/a". *)
Lemma sceneBounds_unparsed_coordinate_example :
  let nodes : list obj :=
    [nodeRow "1" 0 0 0; {[ "Node" := VStr "2"; "X" := VStr "n/a" ]}] in
  Exists (fun n => parseFloat (get n "X") = NaN) nodes /\
  size (App.sceneBounds nodes) = NaN.
Proof.
  intros nodes.
  assert (Hex : Exists (fun n => parseFloat (get n "X") = NaN) nodes)
    by (right; left; reflexivity).
  split; [exact Hex |].
  exact (proj1 (proj2 (sceneBounds_unparsed_coordinate nodes Hex))).
Defined.

End SceneEdges.

